(** * A shallow embedding of [scrapper.py]

    The paper scraper has three layers: text helpers built on Python's [re]
    module ([sanitize_filename], [extract_bib_field], [extract_pdf_url],
    [extract_all_bib_fields]), the HTTP helpers ([fetch], [download_pdf]) and
    the pipeline stages ([process_bib_and_pdf], [process_abstract],
    [process_href]).

    Text is a list of characters; a character is a code point below 256, with
    Python's classification of it ([\s], [\w], [str.strip]).  The regular
    expressions of the source are values of a small pattern type, run by a
    backtracking matcher which follows [re]: greedy repetition, leftmost
    match, non-overlapping [findall].  The stages run in a state-and-error
    monad over an abstract runtime (HTTP client, file system, HTML parser,
    console).  [main] is embedded up to its call of [asyncio.gather]; the
    concurrent run of the [process_href] tasks is not. *)

From Stdlib Require Import List Ascii String Bool Arith Lia.
Import ListNotations.

Set Implicit Arguments.

(** ** Text *)

Definition str := list ascii.

(** A literal of the source, written as a Rocq string. *)
Definition txt (x : string) : str := list_ascii_of_string x.

Definition newline : str := ["010"%char].

Definition code (c : ascii) : nat := nat_of_ascii c.

Definition between (lo hi n : nat) : bool := (lo <=? n) && (n <=? hi).

(** [\s] on [str] patterns, and the characters removed by [str.strip()]:
    tab to carriage return, the four separators 28-31, space, NEL and the
    no-break space. *)
Definition is_space (c : ascii) : bool :=
  let n := code c in
  between 9 13 n || between 28 32 n || (n =? 133) || (n =? 160).

(** [\w] on [str] patterns: alphanumeric code points and the underscore. *)
Definition is_word (c : ascii) : bool :=
  let n := code c in
  between 48 57 n || between 65 90 n || (n =? 95) || between 97 122 n
  || (n =? 170) || between 178 179 n || (n =? 181) || between 185 186 n
  || between 188 190 n || between 192 214 n || between 216 246 n
  || between 248 255 n.

Fixpoint str_eqb (a b : str) : bool :=
  match a, b with
  | [], [] => true
  | x :: a', y :: b' => Ascii.eqb x y && str_eqb a' b'
  | _, _ => false
  end.

Fixpoint lstrip (s : str) : str :=
  match s with
  | c :: s' => if is_space c then lstrip s' else s
  | [] => []
  end.

Definition rstrip (s : str) : str := rev (lstrip (rev s)).

(** [str.strip()] *)
Definition strip (s : str) : str := rstrip (lstrip s).

(** ** The [re] module, as far as the program uses it *)

Module Re.

(** The pattern items that occur in the source: a literal character, an
    optional literal ([s?]), a character class once, and a class under the
    greedy [*] and [+]. *)
Inductive atom : Type :=
| Lit (c : ascii)
| Opt (c : ascii)
| One (cls : ascii -> bool)
| Star (cls : ascii -> bool)
| Plus (cls : ascii -> bool).

(** A pattern is a sequence of items, each with the number of the capture
    group it stands in (0: in no group). *)
Definition pattern := list (nat * atom).

(** The characters a match consumed, each with the group of its item. *)
Definition matched := list (nat * ascii).

Definition push (g : nat) (c : ascii) (r : option (matched * str))
  : option (matched * str) :=
  match r with
  | Some (m, rest) => Some ((g, c) :: m, rest)
  | None => None
  end.

(** Greedy repetition of a class before the continuation [k]: as many
    characters as possible, giving one back each time the rest fails. *)
Fixpoint many (g : nat) (cls : ascii -> bool)
    (k : str -> option (matched * str)) (s : str)
  : option (matched * str) :=
  match s with
  | c :: s' =>
      if cls c then
        match many g cls k s' with
        | Some (m, rest) => Some ((g, c) :: m, rest)
        | None => k s
        end
      else k s
  | [] => k []
  end.

(** [pattern.match] at the head of [s]: the consumed characters and the
    text left after the match. *)
Fixpoint match_here (p : pattern) : str -> option (matched * str) :=
  match p with
  | [] => fun s => Some ([], s)
  | (g, a) :: p' =>
      let k := match_here p' in
      match a with
      | Lit c => fun s =>
          match s with
          | x :: s' => if Ascii.eqb x c then push g x (k s') else None
          | [] => None
          end
      | Opt c => fun s =>
          match s with
          | x :: s' =>
              if Ascii.eqb x c then
                match k s' with
                | Some (m, rest) => Some ((g, x) :: m, rest)
                | None => k s
                end
              else k s
          | [] => k []
          end
      | One cls => fun s =>
          match s with
          | x :: s' => if cls x then push g x (k s') else None
          | [] => None
          end
      | Star cls => many g cls k
      | Plus cls => fun s =>
          match s with
          | x :: s' => if cls x then push g x (many g cls k s') else None
          | [] => None
          end
      end
  end.

(** [pattern.search]: the match at the leftmost position that has one. *)
Fixpoint search (p : pattern) (s : str) : option (matched * str) :=
  match match_here p s with
  | Some r => Some r
  | None =>
      match s with
      | [] => None
      | _ :: s' => search p s'
      end
  end.

(** [match.group(g)] *)
Definition group (g : nat) (m : matched) : str :=
  map snd (filter (fun x => fst x =? g) m).

(** [pattern.findall]: the matches from left to right, each search
    starting where the previous match ended.  Every pattern of the program
    consumes at least one character; after an empty match the scan moves
    one character on. *)
Fixpoint findall_from (fuel : nat) (p : pattern) (s : str) : list matched :=
  match fuel with
  | 0 => []
  | S n =>
      match search p s with
      | None => []
      | Some ([], []) => [[]]
      | Some ([], _ :: rest) => [] :: findall_from n p rest
      | Some (m, rest) => m :: findall_from n p rest
      end
  end.

Definition findall (p : pattern) (s : str) : list matched :=
  findall_from (S (List.length s)) p s.

(** [re.sub(pattern, repl, s)] for a pattern that consumes at least one
    character: every match is replaced by [repl], the other characters
    are copied. *)
Fixpoint sub_from (fuel : nat) (p : pattern) (repl s : str) : str :=
  match fuel with
  | 0 => s
  | S n =>
      match s with
      | [] => []
      | c :: s' =>
          match match_here p s with
          | Some (_ :: _, rest) => repl ++ sub_from n p repl rest
          | _ => c :: sub_from n p repl s'
          end
      end
  end.

Definition sub (p : pattern) (repl s : str) : str :=
  sub_from (S (List.length s)) p repl s.

(** A literal text inside group [g]. *)
Definition lit (g : nat) (s : str) : pattern := map (fun c => (g, Lit c)) s.

End Re.

Import Re.

(** ** Helper functions of the source *)

(** The class of [sanitize_filename]: backslash, slash, colon, star,
    question mark, double quote (code 34), the angle brackets and the bar. *)
Definition forbidden (c : ascii) : bool :=
  existsb (Ascii.eqb c)
    ["\"%char; "/"%char; ":"%char; "*"%char; "?"%char; "034"%char;
     "<"%char; ">"%char; "|"%char].

Definition sanitize_filename (filename : str) : str :=
  Re.sub [(0, One forbidden)] (txt "_") filename.

(** The class [[^{}]]. *)
Definition not_brace (c : ascii) : bool :=
  negb (Ascii.eqb c "{"%char || Ascii.eqb c "}"%char).

(** Every character but the double quote (code 34). *)
Definition not_quote (c : ascii) : bool := negb (Ascii.eqb c "034"%char).

(** [{field_name}\s*=\s*{([^{}]+)}]: the field name is spliced into the
    pattern text.  A name made of word characters stands for itself there,
    and these are the names the model covers: the properties of the lookup
    are stated for them.  A name with a character that [re] reads as an
    operator (a bar, a dot, a parenthesis) is outside the model. *)
Definition bib_field_pattern (field_name : str) : pattern :=
  lit 0 field_name
  ++ [(0, Star is_space); (0, Lit "="%char); (0, Star is_space);
      (0, Lit "{"%char); (1, Plus not_brace); (0, Lit "}"%char)].

Definition last_match (l : list str) : option str :=
  match rev l with
  | [] => None
  | m :: _ => Some m
  end.

Definition extract_bib_field (bib_text field_name : str) : option str :=
  let matches :=
    map (group 1) (findall (bib_field_pattern field_name) bib_text) in
  match last_match matches with
  | Some m => Some (strip m)
  | None => None
  end.

(** [url\s*=\s*{(https?://Q+\.pdf)}], where [Q] is the class of every
    character but the double quote. *)
Definition pdf_url_pattern : pattern :=
  lit 0 (txt "url")
  ++ [(0, Star is_space); (0, Lit "="%char); (0, Star is_space);
      (0, Lit "{"%char)]
  ++ lit 1 (txt "http") ++ [(1, Opt "s"%char)] ++ lit 1 (txt "://")
  ++ [(1, Plus not_quote)] ++ lit 1 (txt ".pdf")
  ++ [(0, Lit "}"%char)].

Definition extract_pdf_url (bib_text : str) : option str :=
  match search pdf_url_pattern bib_text with
  | Some (m, _) => Some (group 1 m)
  | None => None
  end.

(** A Python [dict] with text keys: the items in insertion order;
    assignment to a present key replaces the value in place. *)
Definition dict := list (str * str).

Fixpoint dict_set (d : dict) (k v : str) : dict :=
  match d with
  | [] => [(k, v)]
  | (k', v') :: d' =>
      if str_eqb k' k then (k', v) :: d' else (k', v') :: dict_set d' k v
  end.

Fixpoint dict_lookup (d : dict) (k : str) : option str :=
  match d with
  | [] => None
  | (k', v') :: d' => if str_eqb k' k then Some v' else dict_lookup d' k
  end.

(** [d.get(k, default)] *)
Definition dict_get (d : dict) (k default : str) : str :=
  match dict_lookup d k with
  | Some v => v
  | None => default
  end.

(** [(\w+)\s*=\s*{([^{}]+)}] *)
Definition all_fields_pattern : pattern :=
  [(1, Plus is_word); (0, Star is_space); (0, Lit "="%char);
   (0, Star is_space); (0, Lit "{"%char); (2, Plus not_brace);
   (0, Lit "}"%char)].

Definition extract_all_bib_fields (bib_text : str) : dict :=
  let matches := findall all_fields_pattern bib_text in
  fold_left
    (fun fields m => dict_set fields (group 1 m) (strip (group 2 m)))
    matches [].

(** ** The runtime of the stages

    An exception of class [Exception] is kept as the text [str(e)] that the
    handlers print. *)

Definition exn := str.

Inductive result (A : Type) : Type :=
| Ok (a : A)
| Raise (e : exn).

Arguments Ok {A} a.
Arguments Raise {A} e.

(** What is written to a file: [str] in text mode, [bytes] in binary mode. *)
Inductive content : Type :=
| Text (s : str)
| Bytes (b : str).

(** The effects of the program, in the order they are attempted. *)
Inductive event : Type :=
| Get (url : str) (headers : list (str * str))
| MakeDirs (path : str)
| Open (path mode : str)
| Write (path : str) (data : content)
| Close (path : str)
| Print (line : str).

(** The libraries the program calls: [aiohttp] (a GET gives a response or
    raises; the response has a status and delivers its body on request),
    [os] and [aiofiles] (an open file is named by its path), [bs4] (the
    elements a CSS selector finds in a document, the attributes of an
    element), [os.path.join], [json.dumps(_, indent=4)] and the built-in
    [print], which raises when the standard output does (a closed pipe, a
    character the console cannot encode).  The network, the file system
    and the console are a state [world] that every call may change. *)
Record Runtime : Type := {
  world : Type;
  response : Type;
  tag : Type;
  session_get : str -> list (str * str) -> world -> result response * world;
  response_status : response -> nat;
  response_text : response -> world -> result str * world;
  response_read : response -> world -> result str * world;
  os_makedirs : str -> world -> result unit * world;
  aio_open : str -> str -> world -> result unit * world;
  file_write : str -> content -> world -> result unit * world;
  file_close : str -> world -> result unit * world;
  builtin_print : str -> world -> result unit * world;
  bs_select : str -> str -> result (list tag);
  tag_attr : tag -> str -> option str;
  path_join : str -> str -> str;
  json_dumps : dict -> str
}.

(** ** Constants *)

Definition BASE_URL : str := txt "https://papers.nips.cc/".

Definition USER_AGENTS : list str :=
  [txt "Mozilla/5.0 (Windows NT 10.0; Win64; x64; rv:90.0) Gecko/20100101 Firefox/90.0"].

Fixpoint startswith (s prefix : str) : bool :=
  match prefix, s with
  | [], _ => true
  | p :: prefix', c :: s' => Ascii.eqb c p && startswith s' prefix'
  | _ :: _, [] => false
  end.

Section Stages.

Variable R : Runtime.

(** A computation: from a state of the world to a result, the events it
    attempted and the new state. *)
Definition M (A : Type) : Type := world R -> result A * list event * world R.

Definition ret {A : Type} (a : A) : M A := fun w => (Ok a, [], w).

Definition raise {A : Type} (e : exn) : M A := fun w => (Raise e, [], w).

Definition bind {A B : Type} (m : M A) (f : A -> M B) : M B :=
  fun w =>
    match m w with
    | (Ok a, t, w1) =>
        match f a w1 with
        | (r, t2, w2) => (r, t ++ t2, w2)
        end
    | (Raise e, t, w1) => (Raise e, t, w1)
    end.

(** [try: m  except Exception as e: h e] *)
Definition try_except {A : Type} (m : M A) (h : exn -> M A) : M A :=
  fun w =>
    match m w with
    | (Ok a, t, w1) => (Ok a, t, w1)
    | (Raise e, t, w1) =>
        match h e w1 with
        | (r, t2, w2) => (r, t ++ t2, w2)
        end
    end.

(** Leaving a [with] block: [exit] runs whether [m] returned or raised; an
    exception of [exit] replaces the outcome of [m]. *)
Definition finally {A : Type} (m : M A) (exit : M unit) : M A :=
  fun w =>
    match m w with
    | (r, t, w1) =>
        match exit w1 with
        | (Ok _, t2, w2) => (r, t ++ t2, w2)
        | (Raise e, t2, w2) => (Raise e, t ++ t2, w2)
        end
    end.

(** A call of the runtime, recorded as the event [ev]. *)
Definition call {A : Type} (ev : event)
    (f : world R -> result A * world R) : M A :=
  fun w => match f w with (r, w1) => (r, [ev], w1) end.

(** A call that is not recorded: reading the body of a response. *)
Definition io {A : Type} (f : world R -> result A * world R) : M A :=
  fun w => match f w with (r, w1) => (r, [], w1) end.

(** A call that touches no state, such as parsing. *)
Definition pure {A : Type} (r : result A) : M A := fun w => (r, [], w).

(** [print(line)]: the line is handed to the console, which may raise. *)
Definition print (line : str) : M unit :=
  call (Print line) (builtin_print R line).

Fixpoint for_each {A : Type} (l : list A) (body : A -> M unit) : M unit :=
  match l with
  | [] => ret tt
  | x :: l' => bind (body x) (fun _ => for_each l' body)
  end.

Notation "x <- m ;; k" := (bind m (fun x => k))
  (at level 61, m at next level, right associativity).
Notation "m ;;; k" := (bind m (fun _ => k))
  (at level 61, right associativity).

(** [async with aio_open(path, mode) as f: body] *)
Definition with_open {A : Type} (path mode : str) (body : M A) : M A :=
  call (Open path mode) (aio_open R path mode) ;;;
  finally body (call (Close path) (file_close R path)).

(** [link[name]]: a missing attribute raises [KeyError(name)], whose text is
    the name between single quotes. *)
Definition getitem (t : tag R) (name : str) : M str :=
  match tag_attr R t name with
  | Some v => ret v
  | None => raise (txt "'" ++ name ++ txt "'")
  end.

(** ** Main scraping logic *)

(** Leaving the [async with] of a response only releases the connection. *)
Definition fetch (url : str) : M str :=
  let headers := [(txt "User-Agent", nth 0 USER_AGENTS [])] in
  response <- call (Get url headers) (session_get R url headers) ;;
  io (response_text R response).

Definition download_pdf (url file_path : str) : M unit :=
  response <- call (Get url []) (session_get R url []) ;;
  with_open file_path (txt "wb")
    (data <- io (response_read R response) ;;
     call (Write file_path (Bytes data)) (file_write R file_path (Bytes data))).

Definition process_bib_and_pdf (bib_url folder_path folder_name : str)
  : M unit :=
  try_except
    (bib_text <- fetch bib_url ;;
     match extract_pdf_url bib_text with
     | Some ((_ :: _) as pdf_url) =>
         let bib_fields := extract_all_bib_fields bib_text in
         let title := dict_get bib_fields (txt "title") (txt "Unknown_Title") in
         let booktitle :=
           dict_get bib_fields (txt "booktitle") (txt "Unknown_Booktitle") in
         let author :=
           dict_get bib_fields (txt "author") (txt "Unknown_Author") in
         let sanitized_title := sanitize_filename title in
         let sanitized_booktitle := sanitize_filename booktitle in
         let sanitized_author := sanitize_filename author in
         let pdf_folder_path := path_join R folder_path (txt "pdf") in
         let json_folder_path :=
           path_join R folder_path (txt "json_" ++ folder_name) in
         call (MakeDirs pdf_folder_path) (os_makedirs R pdf_folder_path) ;;;
         call (MakeDirs json_folder_path) (os_makedirs R json_folder_path) ;;;
         let pdf_file_name :=
           sanitized_booktitle ++ txt "_" ++ sanitized_author ++ txt ".pdf" in
         let pdf_file_path := path_join R pdf_folder_path pdf_file_name in
         download_pdf pdf_url pdf_file_path ;;;
         print (txt "Downloaded PDF: " ++ pdf_file_path) ;;;
         let bib_data := dict_set bib_fields (txt "url") pdf_url in
         let json_file_name := sanitized_title ++ txt ".json" in
         let json_file_path := path_join R json_folder_path json_file_name in
         with_open json_file_path (txt "w")
           (let data := Text (json_dumps R bib_data) in
            call (Write json_file_path data)
              (file_write R json_file_path data)) ;;;
         print (txt "Saved JSON: " ++ json_file_path)
     | _ => ret tt
     end)
    (fun e =>
       print (txt "Error processing bib and PDF: " ++ bib_url
              ++ txt " | " ++ e)).

(** [found] stands for [soup.select_one(...)]: the first element the
    selector finds, if any; an element counts as true. *)
Definition process_abstract (url folder_path folder_name : str) : M unit :=
  try_except
    (html <- fetch url ;;
     found <- pure (bs_select R html (txt "a.btn.btn-light.btn-spacer")) ;;
     match found with
     | pdf_link :: _ =>
         href <- getitem pdf_link (txt "href") ;;
         let pdf_url := BASE_URL ++ href in
         process_bib_and_pdf pdf_url folder_path folder_name
     | [] => ret tt
     end)
    (fun e =>
       print (txt "Error processing abstract: " ++ url ++ txt " | " ++ e)).

Definition process_href (url folder_path folder_name : str) : M unit :=
  try_except
    (html <- fetch url ;;
     links <- pure (bs_select R html (txt "li > a")) ;;
     for_each links
       (fun link =>
          href <- getitem link (txt "href") ;;
          if startswith href (txt "/paper_files/paper/") then
            process_abstract (BASE_URL ++ href) folder_path folder_name
          else ret tt))
    (fun e => print (txt "Error processing href: " ++ url ++ txt " | " ++ e)).

End Stages.

(** The outcome and the events of a run. *)
Definition outcome {A W : Type} (r : result A * list event * W)
  : result A := fst (fst r).

Definition events {A W : Type} (r : result A * list event * W)
  : list event := snd (fst r).

(** The lines a run handed to [print], in order. *)
Definition printed (t : list event) : list str :=
  flat_map (fun ev => match ev with Print line => [line] | _ => [] end) t.

(** The header every [fetch] sends. *)
Definition fetch_headers : list (str * str) :=
  [(txt "User-Agent", nth 0 USER_AGENTS [])].

(** ** Record texts

    The texts the properties of extraction speak of: a run of assignments
    [key = {value}], each key a word, padded with white space around the
    equals sign, the value free of braces, and between the assignments
    (and before the first) separators that hold no word character: commas,
    line ends, blanks. *)

Record assignment : Type := {
  key : str;
  pad_left : str;
  pad_right : str;
  value : str;
  separator : str
}.

Definition render_assignment (a : assignment) : str :=
  key a ++ pad_left a ++ txt "=" ++ pad_right a
  ++ txt "{" ++ value a ++ txt "}" ++ separator a.

Definition render_all (l : list assignment) : str :=
  List.concat (map render_assignment l).

Definition render (lead : str) (l : list assignment) : str :=
  lead ++ render_all l.

Definition is_empty (s : str) : bool :=
  match s with
  | [] => true
  | _ :: _ => false
  end.

Definition no_word (s : str) : bool := forallb (fun c => negb (is_word c)) s.

(** A well-formed assignment; its value may be empty. *)
Definition well_formed (a : assignment) : bool :=
  negb (is_empty (key a)) && forallb is_word (key a)
  && forallb is_space (pad_left a) && forallb is_space (pad_right a)
  && forallb not_brace (value a) && no_word (separator a).

Definition has_value (a : assignment) : bool := negb (is_empty (value a)).

(** The trimmed value of the last assignment of [l] that declares [k]. *)
Fixpoint declared (l : list assignment) (k : str) : option str :=
  match l with
  | [] => None
  | a :: l' =>
      match declared l' k with
      | Some v => Some v
      | None => if str_eqb (key a) k then Some (strip (value a)) else None
      end
  end.

(** [s.endswith(suffix)] *)
Fixpoint endswith (s suffix : str) : bool :=
  str_eqb s suffix
  || match s with
     | [] => false
     | _ :: s' => endswith s' suffix
     end.

(** The characters of [s] as consumed inside group [g]. *)
Definition tagged (g : nat) (s : str) : matched := map (fun c => (g, c)) s.

(** The part the two field patterns share, [\s*=\s*{([^{}]+)}], with the
    number [g] of its group. *)
Definition assign_tail (g : nat) : pattern :=
  [(0, Star is_space); (0, Lit "="%char); (0, Star is_space);
   (0, Lit "{"%char); (g, Plus not_brace); (0, Lit "}"%char)].

(** What a field pattern consumes of an assignment from its equals sign on:
    the padding, the braces and, in group [g], the value. *)
Definition tail_match (g : nat) (a : assignment) : matched :=
  tagged 0 (pad_left a) ++ (0, "="%char) :: tagged 0 (pad_right a)
  ++ (0, "{"%char) :: tagged g (value a) ++ [(0, "}"%char)].

(** The match of [all_fields_pattern] on an assignment. *)
Definition bulk_match (a : assignment) : matched :=
  tagged 1 (key a) ++ tail_match 2 a.

(** The match of [bib_field_pattern name] on an assignment whose key ends
    with [name]. *)
Definition field_match (name : str) (a : assignment) : matched :=
  tagged 0 name ++ tail_match 1 a.

(** The text of an assignment after its key, followed by [rest]. *)
Definition after_key (a : assignment) (rest : str) : str :=
  pad_left a ++ "="%char :: pad_right a ++ "{"%char :: value a
  ++ "}"%char :: rest.

Definition word_or_space (c : ascii) : bool := is_word c || is_space c.

(** The step of the loop of [extract_all_bib_fields]. *)
Definition store_field (fields : dict) (m : matched) : dict :=
  dict_set fields (group 1 m) (strip (group 2 m)).

(** The assignments a lookup of [name] matches: those with a value whose
    key ends with [name]. *)
Definition matches_field (name : str) (a : assignment) : bool :=
  has_value a && endswith (key a) name.

(** ** A sample runtime

    A site given as a table of pages: a GET of a listed URL answers with a
    status and a body, any other GET raises; the file system and the
    console accept every call; the list-item anchors of a document are given by [anchors], each
    with its [href] if it has one, and no other selector finds anything. *)

Definition sample_join (a b : str) : str := a ++ txt "/" ++ b.

Definition sample_dumps (d : dict) : str :=
  List.concat (map (fun kv => fst kv ++ txt ": " ++ snd kv ++ txt "; ") d).

Fixpoint sample_page (site : list (str * (nat * str))) (url : str)
  : option (nat * str) :=
  match site with
  | [] => None
  | (u, r) :: site' => if str_eqb u url then Some r else sample_page site' url
  end.

Definition sample_runtime (site : list (str * (nat * str)))
    (anchors : str -> list (option str)) : Runtime := {|
  world := unit;
  response := nat * str;
  tag := option str;
  session_get := fun url _ w =>
    match sample_page site url with
    | Some r => (Ok r, w)
    | None => (Raise (txt "Cannot connect to host"), w)
    end;
  response_status := fst;
  response_text := fun r w => (Ok (snd r), w);
  response_read := fun r w => (Ok (snd r), w);
  os_makedirs := fun _ w => (Ok tt, w);
  aio_open := fun _ _ w => (Ok tt, w);
  file_write := fun _ _ w => (Ok tt, w);
  file_close := fun _ w => (Ok tt, w);
  builtin_print := fun _ w => (Ok tt, w);
  bs_select := fun html selector =>
    if str_eqb selector (txt "li > a") then Ok (anchors html) else Ok [];
  tag_attr := fun t _ => t;
  path_join := sample_join;
  json_dumps := sample_dumps
|}.

(** A bibliography with the four usual fields, and the site that serves it
    together with its PDF. *)
Definition sample_bib_url : str :=
  txt "https://papers.nips.cc/paper_files/paper/2021/file/abc-Bibtex.bib".

Definition sample_bib_body : str :=
  txt "title = {T}" ++ newline ++ txt "author = {A}" ++ newline
  ++ txt "booktitle = {B}" ++ newline ++ txt "url = {https://x/doc.pdf}".

Definition sample_site : list (str * (nat * str)) :=
  [(sample_bib_url, (200, sample_bib_body));
   (txt "https://x/doc.pdf", (200, txt "%PDF-1.4"))].

(** A bibliography whose last [url] field is not the PDF URL. *)
Definition sample_draft_body : str :=
  txt "title = {T}" ++ newline ++ txt "url = {https://x/doc.pdf}" ++ newline
  ++ txt "url = {draft}".

Definition sample_draft_site : list (str * (nat * str)) :=
  [(sample_bib_url, (200, sample_draft_body));
   (txt "https://x/doc.pdf", (200, txt "%PDF-1.4"))].

(** An assignment with one blank on each side of the equals sign, closed by
    a comma and a line end. *)
Definition field_line (k v : str) : assignment := {|
  key := k;
  pad_left := txt " ";
  pad_right := txt " ";
  value := v;
  separator := txt "," ++ newline
|}.

(** A record with a repeated key and padded values. *)
Definition sample_record : list assignment :=
  [field_line (txt "title") (txt " Draft ");
   field_line (txt "author") (txt "A. Author");
   field_line (txt "title") (txt "Final title ")].

(** An assignment without value. *)
Definition sample_empty : assignment := field_line (txt "note") [].

(** ** Auxiliary notions of the proofs *)

(** What [sanitize_filename] does to one character. *)
Definition underscore_if_forbidden (c : ascii) : ascii :=
  if forbidden c then "_"%char else c.

(** Every event of a run of [m] has the property [P]. *)
Definition emits {R : Runtime} {A : Type} (P : event -> Prop) (m : M R A)
  : Prop :=
  forall w, Forall P (events (m w)).

(** A continuation that fails on every text which starts in the class:
    then the repetition never has to give a character back. *)
Definition rejects (k : str -> option (matched * str)) (cls : ascii -> bool)
  : Prop :=
  forall c s, cls c = true -> k (c :: s) = None.

Definition stops (cls : ascii -> bool) (s : str) : Prop :=
  match s with
  | [] => True
  | c :: _ => cls c = false
  end.

(** Every event of [process_bib_and_pdf] is one of the twelve steps of the
    source (or the error line), with the names and the data the source
    computes from the bibliography body. *)
Definition step_of (R : Runtime)
    (bib_url folder_path folder_name body : str) (ev : event) : Prop :=
  let fields := extract_all_bib_fields body in
  let pdf_folder_path := path_join R folder_path (txt "pdf") in
  let json_folder_path :=
    path_join R folder_path (txt "json_" ++ folder_name) in
  let pdf_file_path :=
    path_join R pdf_folder_path
      (sanitize_filename
         (dict_get fields (txt "booktitle") (txt "Unknown_Booktitle"))
       ++ txt "_"
       ++ sanitize_filename
            (dict_get fields (txt "author") (txt "Unknown_Author"))
       ++ txt ".pdf") in
  let json_file_path :=
    path_join R json_folder_path
      (sanitize_filename (dict_get fields (txt "title") (txt "Unknown_Title"))
       ++ txt ".json") in
  match ev with
  | Get url headers =>
      (url = bib_url /\ headers = fetch_headers)
      \/ (extract_pdf_url body = Some url /\ headers = [])
  | MakeDirs path => path = pdf_folder_path \/ path = json_folder_path
  | Open path mode =>
      (path = pdf_file_path /\ mode = txt "wb")
      \/ (path = json_file_path /\ mode = txt "w")
  | Write path (Bytes _) => path = pdf_file_path
  | Write path (Text s) =>
      path = json_file_path
      /\ exists pdf_url,
           extract_pdf_url body = Some pdf_url
           /\ s = json_dumps R (dict_set fields (txt "url") pdf_url)
  | Close path => path = pdf_file_path \/ path = json_file_path
  | Print _ => True
  end.

(** ** The crawl driver

    [main] fetches the index, makes one folder per paper listing and builds
    one [process_href] task per listing; then [asyncio.gather] runs the
    tasks concurrently.  [main_tasks] is [main] up to the call of [gather]:
    its result is the list of the tasks built, each kept as the arguments of
    its [process_href] call. *)

Definition DOWNLOAD_PATH : str := txt "D:/ds".

(** [s.replace(old, new)] for a non-empty [old]: every occurrence of [old],
    from left to right and without overlap, becomes [new]. *)
Fixpoint replace_from (fuel : nat) (s old new : str) : str :=
  match fuel with
  | 0 => s
  | S n =>
      match s with
      | [] => []
      | c :: s' =>
          if startswith s old
          then new ++ replace_from n (skipn (List.length old) s) old new
          else c :: replace_from n s' old new
      end
  end.

Definition replace (s old new : str) : str :=
  replace_from (S (List.length s)) s old new.

(** [needle in s] *)
Fixpoint contains (s needle : str) : bool :=
  startswith s needle
  || match s with
     | [] => false
     | _ :: s' => contains s' needle
     end.

(** The arguments of a [process_href] call: URL, folder path, folder name. *)
Definition task : Type := (str * str * str)%type.

(** The loop of [main] over the list-item anchors, from the tasks built so
    far. *)
Fixpoint collect_tasks (R : Runtime) (links : list (tag R))
    (tasks : list task) : M R (list task) :=
  match links with
  | [] => ret R tasks
  | link :: links' =>
      bind (getitem R link (txt "href"))
        (fun href =>
           if startswith href (txt "/paper_files/paper/") then
             let folder_name := replace href (txt "/paper_files/paper/") [] in
             let folder_path := path_join R DOWNLOAD_PATH folder_name in
             bind (call R (MakeDirs folder_path) (os_makedirs R folder_path))
               (fun _ =>
                  collect_tasks R links'
                    (tasks ++ [(BASE_URL ++ href, folder_path, folder_name)]))
           else collect_tasks R links' tasks)
  end.

Definition main_tasks (R : Runtime) : M R (list task) :=
  bind (fetch R BASE_URL)
    (fun html =>
       bind (pure R (bs_select R html (txt "li > a")))
         (fun links => collect_tasks R links [])).

(** ** Further notions of the properties *)

(** The prefix of the links that [main] and [process_href] follow. *)
Definition paper_prefix : str := txt "/paper_files/paper/".

(** The [href] values of the anchors that have one, in document order. *)
Definition hrefs_of (R : Runtime) (links : list (tag R)) : list str :=
  flat_map
    (fun link =>
       match tag_attr R link (txt "href") with
       | Some href => [href]
       | None => []
       end)
    links.

(** The [href] values that start with the prefix. *)
Definition paper_hrefs (R : Runtime) (links : list (tag R)) : list str :=
  filter (fun href => startswith href paper_prefix) (hrefs_of R links).

(** The task [main] builds for a link. *)
Definition task_of (R : Runtime) (href : str) : task :=
  (BASE_URL ++ href,
   path_join R DOWNLOAD_PATH (replace href paper_prefix []),
   replace href paper_prefix []).

(** A file system on which [os.makedirs] always succeeds. *)
Definition makedirs_succeeds (R : Runtime) : Prop :=
  forall path w, exists w', os_makedirs R path w = (Ok tt, w').

(** The keys of a list in the order of their first occurrence. *)
Fixpoint first_seen (l : list str) : list str :=
  match l with
  | [] => []
  | k :: l' => k :: filter (fun k' => negb (str_eqb k k')) (first_seen l')
  end.

(** The step on the keys of a [dict] when a key is assigned. *)
Definition add_key (ks : list str) (k : str) : list str :=
  if existsb (str_eqb k) ks then ks else ks ++ [k].

(** A sample runtime whose body reads and directory creations are given:
    [read] answers the reading of a response as bytes, [mkdir] a call of
    [os.makedirs]. *)
Definition faulty_runtime (site : list (str * (nat * str)))
    (anchors : str -> list (option str))
    (read : nat * str -> result str) (mkdir : str -> result unit)
  : Runtime := {|
  world := unit;
  response := nat * str;
  tag := option str;
  session_get := fun url _ w =>
    match sample_page site url with
    | Some r => (Ok r, w)
    | None => (Raise (txt "Cannot connect to host"), w)
    end;
  response_status := fst;
  response_text := fun r w => (Ok (snd r), w);
  response_read := fun r w => (read r, w);
  os_makedirs := fun path w => (mkdir path, w);
  aio_open := fun _ _ w => (Ok tt, w);
  file_write := fun _ _ w => (Ok tt, w);
  file_close := fun _ w => (Ok tt, w);
  builtin_print := fun _ w => (Ok tt, w);
  bs_select := fun html selector =>
    if str_eqb selector (txt "li > a") then Ok (anchors html) else Ok [];
  tag_attr := fun t _ => t;
  path_join := sample_join;
  json_dumps := sample_dumps
|}.

(** A sample runtime in which every selector finds the given elements. *)
Definition button_runtime (site : list (str * (nat * str)))
    (found : list (option str)) : Runtime := {|
  world := unit;
  response := nat * str;
  tag := option str;
  session_get := fun url _ w =>
    match sample_page site url with
    | Some r => (Ok r, w)
    | None => (Raise (txt "Cannot connect to host"), w)
    end;
  response_status := fst;
  response_text := fun r w => (Ok (snd r), w);
  response_read := fun r w => (Ok (snd r), w);
  os_makedirs := fun _ w => (Ok tt, w);
  aio_open := fun _ _ w => (Ok tt, w);
  file_write := fun _ _ w => (Ok tt, w);
  file_close := fun _ w => (Ok tt, w);
  builtin_print := fun _ w => (Ok tt, w);
  bs_select := fun _ _ => Ok found;
  tag_attr := fun t _ => t;
  path_join := sample_join;
  json_dumps := sample_dumps
|}.

(** An abstract page and the site that serves it. *)
Definition sample_abstract_url : str :=
  txt "https://papers.nips.cc/paper_files/paper/2021/hash/abc-Abstract.html".

Definition sample_abstract_site : list (str * (nat * str)) :=
  [(sample_abstract_url, (200, txt "<html>...</html>"))].

(** The body of the loop of [process_href] for one anchor, and the stage it
    runs for the [href] of a paper link. *)
Definition visit_link (R : Runtime) (folder_path folder_name : str)
    (link : tag R) : M R unit :=
  bind (getitem R link (txt "href"))
    (fun href =>
       if startswith href (txt "/paper_files/paper/")
       then process_abstract R (BASE_URL ++ href) folder_path folder_name
       else ret R tt).

Definition abstract_of (R : Runtime) (folder_path folder_name href : str)
  : M R unit :=
  process_abstract R (BASE_URL ++ href) folder_path folder_name.

(** A listing page and the site that serves it. *)
Definition sample_listing_url : str :=
  txt "https://papers.nips.cc/paper_files/paper/2021".

Definition sample_listing_site : list (str * (nat * str)) :=
  [(sample_listing_url, (200, txt "<ul>...</ul>"))].

(** A console on which [print] never raises. *)
Definition print_succeeds (R : Runtime) : Prop :=
  forall line w, exists w', builtin_print R line w = (Ok tt, w').

(** A file system that accepts every call. *)
Definition files_succeed (R : Runtime) : Prop :=
  makedirs_succeeds R
  /\ (forall path mode w, exists w', aio_open R path mode w = (Ok tt, w'))
  /\ (forall path data w, exists w', file_write R path data w = (Ok tt, w'))
  /\ (forall path w, exists w', file_close R path w = (Ok tt, w')).

(** A GET of [url] without header is answered, and the body of the
    response reads as [data]. *)
Definition serves (R : Runtime) (url data : str) : Prop :=
  forall w,
  exists r w1,
    session_get R url [] w = (Ok r, w1)
    /\ forall w2, exists w3, response_read R r w2 = (Ok data, w3).

(** The runtime [R] with another console: [console] answers each line. *)
Definition with_console (R : Runtime) (console : str -> result unit)
  : Runtime := {|
  world := world R;
  response := response R;
  tag := tag R;
  session_get := session_get R;
  response_status := response_status R;
  response_text := response_text R;
  response_read := response_read R;
  os_makedirs := os_makedirs R;
  aio_open := aio_open R;
  file_write := file_write R;
  file_close := file_close R;
  builtin_print := fun line w => (console line, w);
  bs_select := bs_select R;
  tag_attr := tag_attr R;
  path_join := path_join R;
  json_dumps := json_dumps R
|}.

(** A console whose pipe is closed: every [print] raises. *)
Definition closed_pipe (line : str) : result unit :=
  Raise (txt "[Errno 32] Broken pipe").

(** A listing with two paper links and a link to another page. *)
Definition sample_anchors (html : str) : list (option str) :=
  [Some (txt "/paper_files/paper/2021/hash/abc-Abstract.html");
   Some (txt "/about");
   Some (txt "/paper_files/paper/2021/hash/def-Abstract.html")].

(** * Properties *)

Unset Implicit Arguments.

(** ** Characters and text *)

Ltac each_char c :=
  destruct c as [[] [] [] [] [] [] [] []]; vm_compute;
  try reflexivity; try discriminate.

Lemma word_not_space c : is_word c = true -> is_space c = false.
Proof. each_char c. Qed.

Lemma word_not_brace c : is_word c = true -> not_brace c = true.
Proof. each_char c. Qed.

Lemma word_not_equals c : is_word c = true -> Ascii.eqb c "="%char = false.
Proof. each_char c. Qed.

Lemma space_not_equals c : is_space c = true -> Ascii.eqb c "="%char = false.
Proof. each_char c. Qed.

Lemma space_not_open c : is_space c = true -> Ascii.eqb c "{"%char = false.
Proof. each_char c. Qed.

Lemma space_not_word c : is_space c = true -> is_word c = false.
Proof. each_char c. Qed.

Lemma not_brace_close c : not_brace c = true -> Ascii.eqb c "}"%char = false.
Proof. each_char c. Qed.

Lemma not_brace_open c : not_brace c = true -> Ascii.eqb c "{"%char = false.
Proof. each_char c. Qed.

Lemma str_eqb_spec a b : reflect (a = b) (str_eqb a b).
Proof.
  revert b; induction a as [|x a IH]; intros [|y b]; simpl;
    try (constructor; congruence).
  destruct (Ascii.eqb_spec x y) as [->|Hxy]; simpl.
  - destruct (IH b) as [->|Hab]; constructor; congruence.
  - constructor; congruence.
Qed.

Lemma str_eqb_refl a : str_eqb a a = true.
Proof. destruct (str_eqb_spec a a); congruence. Qed.

Lemma str_eqb_eq a b : str_eqb a b = true <-> a = b.
Proof. destruct (str_eqb_spec a b); split; congruence. Qed.

Lemma str_eqb_neq a b : str_eqb a b = false <-> a <> b.
Proof. destruct (str_eqb_spec a b); split; congruence. Qed.

(** ** The sanitizer *)

Lemma sub_from_one cls repl s :
  forall n, List.length s < n ->
    sub_from n [(0, One cls)] repl s
    = flat_map (fun c => if cls c then repl else [c]) s.
Proof.
  induction s as [|c s IH]; intros [|n] Hn; simpl in *; try lia; auto.
  destruct (cls c); simpl; rewrite IH by lia; reflexivity.
Qed.

Lemma sanitize_filename_map s :
  sanitize_filename s = map underscore_if_forbidden s.
Proof.
  unfold sanitize_filename, Re.sub.
  rewrite sub_from_one by lia.
  induction s as [|c s IH]; [reflexivity|].
  cbn [flat_map map]; rewrite IH.
  change (underscore_if_forbidden c) with (if forbidden c then "_"%char else c).
  destruct (forbidden c); reflexivity.
Qed.

Lemma underscore_if_forbidden_safe c :
  forbidden (underscore_if_forbidden c) = false.
Proof.
  unfold underscore_if_forbidden.
  destruct (forbidden c) eqn:E; [reflexivity | exact E].
Qed.

(** C5.  [sanitize_filename] replaces each of the nine characters
    backslash, slash, colon, star, question mark, double quote, less-than,
    greater-than and bar by one underscore and leaves every other character
    in place; so none of the nine occurs in its result, and applying it
    twice is the same as applying it once. *)
Theorem sanitize_filename_safe_idempotent (s : str) :
  sanitize_filename s = map underscore_if_forbidden s
  /\ (forall c,
        In c ["\"%char; "/"%char; ":"%char; "*"%char; "?"%char; "034"%char;
              "<"%char; ">"%char; "|"%char] ->
        forbidden c = true /\ ~ In c (sanitize_filename s))
  /\ sanitize_filename (sanitize_filename s) = sanitize_filename s.
Proof.
  split; [apply sanitize_filename_map|split].
  - intros c Hc.
    assert (Hf : forbidden c = true).
    { simpl in Hc.
      repeat (destruct Hc as [<-|Hc]; [reflexivity|]); contradiction. }
    split; [exact Hf|].
    rewrite sanitize_filename_map, in_map_iff.
    intros [x [Hx _]].
    pose proof (underscore_if_forbidden_safe x) as Hs.
    rewrite Hx in Hs; congruence.
  - rewrite !sanitize_filename_map, map_map.
    apply map_ext; intros c.
    unfold underscore_if_forbidden at 1.
    rewrite underscore_if_forbidden_safe; reflexivity.
Qed.

Lemma sanitize_filename_safe_idempotent_witness :
  forbidden "/"%char = true /\ ~ In "/"%char (sanitize_filename (txt "a/b:c")).
Proof.
  apply (sanitize_filename_safe_idempotent (txt "a/b:c")).
  simpl. auto.
Defined.

(** ** The PDF-URL pattern runs past the closing brace *)

(** C3.  What [extract_pdf_url] returns depends on where the [url] field
    stands.  After another field it is the value of the [url] field; before
    a field that ends in [.pdf] it is not: the class before [.pdf] also
    takes braces and line ends, so the match runs on to the last [.pdf}] of
    the text.  The same happens with two [url] fields that both hold a PDF
    URL: the answer is not the value of the first. *)
Theorem extract_pdf_url_runs_to_last_pdf :
  extract_pdf_url
    (txt "file = {y.pdf}" ++ newline ++ txt "url = {http://x/y.pdf}")
  = Some (txt "http://x/y.pdf")
  /\ extract_pdf_url
       (txt "url = {http://x/y.pdf}" ++ newline ++ txt "file = {y.pdf}")
     = Some (txt "http://x/y.pdf}" ++ newline ++ txt "file = {y.pdf")
  /\ extract_pdf_url
       (txt "url = {http://x/y.pdf}" ++ newline
        ++ txt "url = {http://x/z.pdf}")
     = Some (txt "http://x/y.pdf}" ++ newline ++ txt "url = {http://x/z.pdf").
Proof. repeat split; vm_compute; reflexivity. Qed.

(** ** The field lookup matches the tail of a longer key *)

(** C8.  [extract_bib_field] asked for [title] answers with the value of
    [booktitle]: when no [title] field is in the text, and when a [title]
    field stands before the [booktitle] field. *)
Theorem extract_bib_field_takes_longer_key :
  extract_bib_field (txt "booktitle = {B}") (txt "title") = Some (txt "B")
  /\ extract_bib_field (txt "title = {T}, booktitle = {B}") (txt "title")
     = Some (txt "B").
Proof. split; vm_compute; reflexivity. Qed.

(** ** Running the stages *)

Section StageFacts.

Variable R : Runtime.

Lemma fetch_run url w :
  fetch R url w
  = match session_get R url fetch_headers w with
    | (Ok r, w1) =>
        match response_text R r w1 with
        | (res, w2) => (res, [Get url fetch_headers], w2)
        end
    | (Raise e, w1) => (Raise e, [Get url fetch_headers], w1)
    end.
Proof.
  unfold fetch, bind, call, io. fold fetch_headers.
  destruct (session_get R url fetch_headers w) as [[r|e] w1]; auto.
  destruct (response_text R r w1) as [res w2]; reflexivity.
Qed.

Lemma fetch_events url w : events (fetch R url w) = [Get url fetch_headers].
Proof.
  rewrite fetch_run.
  destruct (session_get R url fetch_headers w) as [[r|e] w1]; auto.
  destruct (response_text R r w1) as [res w2]; reflexivity.
Qed.

Lemma fetch_body url w r w1 body w2 :
  session_get R url fetch_headers w = (Ok r, w1) ->
  response_text R r w1 = (Ok body, w2) ->
  fetch R url w = (Ok body, [Get url fetch_headers], w2).
Proof. intros H1 H2. rewrite fetch_run, H1, H2. reflexivity. Qed.

Lemma fetch_raises url w e w1 :
  session_get R url fetch_headers w = (Raise e, w1) ->
  fetch R url w = (Raise e, [Get url fetch_headers], w1).
Proof. intros H1. rewrite fetch_run, H1. reflexivity. Qed.

(** A [try] whose handler prints: the outcome of the handler is that of
    [print]. *)
Lemma try_print_run (m : M R unit) (msg : exn -> str) w :
  try_except m (fun e => print R (msg e)) w
  = match m w with
    | (Ok a, t, w1) => (Ok a, t, w1)
    | (Raise e, t, w1) =>
        match builtin_print R (msg e) w1 with
        | (res, w2) => (res, t ++ [Print (msg e)], w2)
        end
    end.
Proof.
  unfold try_except, print, call.
  destruct (m w) as [[[a|e] t] w1]; [reflexivity|].
  destruct (builtin_print R (msg e) w1) as [res w2]; reflexivity.
Qed.


Lemma try_print_outcome (m : M R unit) (msg : exn -> str) w :
  print_succeeds R ->
  outcome (try_except m (fun e => print R (msg e)) w) = Ok tt.
Proof.
  intros Hp. rewrite try_print_run.
  destruct (m w) as [[[[]|e] t] w1]; [reflexivity|].
  destruct (Hp (msg e) w1) as [w2 ->]. reflexivity.
Qed.

Lemma bind_raised {A B : Type} (m : M R A) (f : A -> M R B) w e t w1 :
  m w = (Raise e, t, w1) -> bind m f w = (Raise e, t, w1).
Proof. intros H. unfold bind. rewrite H. reflexivity. Qed.

Lemma bind_ok {A B : Type} (m : M R A) (f : A -> M R B) w a t w1 :
  m w = (Ok a, t, w1) ->
  bind m f w = match f a w1 with (r, t2, w2) => (r, t ++ t2, w2) end.
Proof. intros H. unfold bind. rewrite H. reflexivity. Qed.

(** *** Properties of every event of a run *)

Lemma emits_ret {A : Type} P (a : A) : emits P (ret R a).
Proof. intros w; constructor. Qed.

Lemma emits_raise {A : Type} P e : emits P (@raise R A e).
Proof. intros w; constructor. Qed.

Lemma emits_pure {A : Type} P (r : result A) : emits P (pure R r).
Proof. intros w; constructor. Qed.

Lemma emits_io {A : Type} P (f : world R -> result A * world R) :
  emits P (io R f).
Proof. intros w; unfold io, events. destruct (f w); constructor. Qed.

Lemma emits_call {A : Type} (P : event -> Prop) ev
    (f : world R -> result A * world R) :
  P ev -> emits P (call R ev f).
Proof.
  intros H w; unfold call, events. destruct (f w); simpl. auto.
Qed.

Lemma emits_print (P : event -> Prop) line :
  P (Print line) -> emits P (print R line).
Proof. intros H. apply emits_call, H. Qed.

Lemma events_bind_at {A B : Type} P (m : M R A) (f : A -> M R B) w :
  Forall P (events (m w)) ->
  (forall a t w1, m w = (Ok a, t, w1) -> Forall P (events (f a w1))) ->
  Forall P (events (bind m f w)).
Proof.
  unfold bind, events. intros Hm Hf.
  destruct (m w) as [[[a|e] t] w1]; simpl in *; auto.
  specialize (Hf a t w1 eq_refl).
  destruct (f a w1) as [[r t2] w2]; simpl in *.
  apply Forall_app; auto.
Qed.

Lemma emits_bind {A B : Type} P (m : M R A) (f : A -> M R B) :
  emits P m -> (forall a, emits P (f a)) -> emits P (bind m f).
Proof.
  intros Hm Hf w. apply events_bind_at; auto. intros a t w1 _. apply Hf.
Qed.

Lemma events_try_at {A : Type} P (m : M R A) (h : exn -> M R A) w :
  Forall P (events (m w)) ->
  (forall e, emits P (h e)) ->
  Forall P (events (try_except m h w)).
Proof.
  unfold try_except, events. intros Hm Hh.
  destruct (m w) as [[[a|e] t] w1]; simpl in *; auto.
  specialize (Hh e w1). unfold events in Hh.
  destruct (h e w1) as [[r t2] w2]; simpl in *.
  apply Forall_app; auto.
Qed.

Lemma emits_finally {A : Type} P (m : M R A) (exit : M R unit) :
  emits P m -> emits P exit -> emits P (finally m exit).
Proof.
  intros Hm Hx w. specialize (Hm w). unfold finally, events in *.
  destruct (m w) as [[r t] w1]; simpl in *.
  specialize (Hx w1). unfold events in Hx.
  destruct (exit w1) as [[[u|e] t2] w2]; simpl in *; apply Forall_app; auto.
Qed.

Lemma emits_with_open {A : Type} (P : event -> Prop) path mode (body : M R A) :
  P (Open path mode) -> P (Close path) -> emits P body ->
  emits P (with_open path mode body).
Proof.
  intros Ho Hc Hb. unfold with_open.
  apply emits_bind; [apply emits_call; exact Ho|intros _].
  apply emits_finally; [exact Hb|apply emits_call; exact Hc].
Qed.

End StageFacts.

(** ** The fetcher *)

(** C2, as the code has it.  [fetch] issues exactly one GET, with the fixed
    header; an exception of the client (a network error, a timeout)
    reaches the caller; a response is never looked at for its status: the
    caller gets whatever reading its body gives. *)
Theorem fetch_one_get_no_status_check (R : Runtime) (url : str) (w : world R) :
  events (fetch R url w) = [Get url fetch_headers]
  /\ (forall e w1,
        session_get R url fetch_headers w = (Raise e, w1) ->
        outcome (fetch R url w) = Raise e)
  /\ (forall r w1 res w2,
        session_get R url fetch_headers w = (Ok r, w1) ->
        response_text R r w1 = (res, w2) ->
        outcome (fetch R url w) = res).
Proof.
  split; [apply fetch_events|split].
  - intros e w1 H. rewrite (fetch_raises R url w e w1 H). reflexivity.
  - intros r w1 res w2 H1 H2. rewrite fetch_run, H1, H2. reflexivity.
Qed.

Lemma fetch_one_get_no_status_check_witness :
  outcome
    (fetch
       (sample_runtime
          [(txt "https://papers.nips.cc/", (200, txt "<ul></ul>"))]
          (fun _ => []))
       (txt "https://papers.nips.cc/") tt)
  = Ok (txt "<ul></ul>").
Proof.
  apply (fetch_one_get_no_status_check
           (sample_runtime
              [(txt "https://papers.nips.cc/", (200, txt "<ul></ul>"))]
              (fun _ => []))
           (txt "https://papers.nips.cc/") tt)
    with (r := (200, txt "<ul></ul>")) (w1 := tt) (w2 := tt); reflexivity.
Defined.

(** C2 fails for a status outside 200-299: the client hands [fetch] a
    response with status 404, and [fetch] returns its body. *)
Lemma fetch_returns_body_of_404 :
  let R := sample_runtime
             [(txt "https://papers.nips.cc/gone", (404, txt "Not Found"))]
             (fun _ => []) in
  session_get R (txt "https://papers.nips.cc/gone") fetch_headers tt
  = (Ok (404, txt "Not Found"), tt)
  /\ response_status R (404, txt "Not Found") = 404
  /\ outcome (fetch R (txt "https://papers.nips.cc/gone") tt)
     = Ok (txt "Not Found").
Proof. repeat split. Qed.

(** ** A bibliography body without a PDF URL *)

(** C1, as the code has it.  When the bibliography body holds no PDF URL,
    [process_bib_and_pdf] does nothing after the GET of the bibliography:
    no directory is made, no file is opened or written, and no line is
    printed. *)
Theorem process_bib_and_pdf_no_pdf_url (R : Runtime)
    (bib_url folder_path folder_name : str) (w : world R)
    (r : response R) (w1 : world R) (body : str) (w2 : world R) :
  session_get R bib_url fetch_headers w = (Ok r, w1) ->
  response_text R r w1 = (Ok body, w2) ->
  extract_pdf_url body = None ->
  process_bib_and_pdf R bib_url folder_path folder_name w
  = (Ok tt, [Get bib_url fetch_headers], w2)
  /\ printed (events (process_bib_and_pdf R bib_url folder_path folder_name w))
     = [].
Proof.
  intros H1 H2 H3.
  assert (E : process_bib_and_pdf R bib_url folder_path folder_name w
              = (Ok tt, [Get bib_url fetch_headers], w2)).
  { unfold process_bib_and_pdf, try_except.
    unfold bind. rewrite (fetch_body R _ _ _ _ _ _ H1 H2), H3. reflexivity. }
  rewrite E. split; reflexivity.
Qed.

Lemma process_bib_and_pdf_no_pdf_url_witness :
  let R := sample_runtime
             [(txt "https://papers.nips.cc/bib", (200, txt "title = {T}"))]
             (fun _ => []) in
  process_bib_and_pdf R (txt "https://papers.nips.cc/bib")
    (txt "D:/ds/2021") (txt "2021") tt
  = (Ok tt, [Get (txt "https://papers.nips.cc/bib") fetch_headers], tt)
  /\ printed
       (events
          (process_bib_and_pdf R (txt "https://papers.nips.cc/bib")
             (txt "D:/ds/2021") (txt "2021") tt))
     = [].
Proof.
  apply (process_bib_and_pdf_no_pdf_url
           (sample_runtime
              [(txt "https://papers.nips.cc/bib", (200, txt "title = {T}"))]
              (fun _ => []))
           (txt "https://papers.nips.cc/bib") (txt "D:/ds/2021") (txt "2021")
           tt (200, txt "title = {T}") tt (txt "title = {T}") tt);
    reflexivity.
Defined.

(** C1 fails on the error line: for a body without a PDF URL the stage
    prints nothing, so it does not log exactly one error line. *)
Lemma process_bib_and_pdf_prints_nothing :
  let R := sample_runtime
             [(txt "https://papers.nips.cc/bib", (200, txt "title = {T}"))]
             (fun _ => []) in
  outcome (fetch R (txt "https://papers.nips.cc/bib") tt)
  = Ok (txt "title = {T}")
  /\ extract_pdf_url (txt "title = {T}") = None
  /\ ~ (exists line,
          printed
            (events
               (process_bib_and_pdf R (txt "https://papers.nips.cc/bib")
                  (txt "D:/ds/2021") (txt "2021") tt))
          = [line]).
Proof.
  repeat split. intros [line H]. vm_compute in H. discriminate H.
Qed.

(** ** Failures stay inside a stage *)

Section Isolation.

Variable R : Runtime.



Lemma bind_ret_run {A B : Type} (a : A) (f : A -> M R B) w :
  bind (ret R a) f w = f a w.
Proof. unfold bind, ret. destruct (f a w) as [[r t] w2]. reflexivity. Qed.

Lemma for_each_ok {A : Type} (body : A -> M R unit) (l : list A) :
  (forall x w, In x l -> outcome (body x w) = Ok tt) ->
  forall w, outcome (for_each l body w) = Ok tt.
Proof.
  induction l as [|a l IH]; intros Hb w; [reflexivity|].
  simpl. unfold bind.
  pose proof (Hb a w (or_introl eq_refl)) as Ha.
  destruct (body a w) as [[[[]|e] t] w1]; [|discriminate Ha].
  assert (Hl : outcome (for_each l body w1) = Ok tt).
  { apply IH. intros x w' Hx. apply Hb. right; exact Hx. }
  destruct (for_each l body w1) as [[r2 t2] w2]. exact Hl.
Qed.


Lemma process_abstract_ok url folder_path folder_name w :
  print_succeeds R ->
  outcome (process_abstract R url folder_path folder_name w) = Ok tt.
Proof. apply try_print_outcome. Qed.


End Isolation.




(** ** Dictionaries *)

Lemma dict_lookup_set_eq (d : dict) (k v : str) :
  dict_lookup (dict_set d k v) k = Some v.
Proof.
  induction d as [|[k0 v0] d IH]; simpl.
  - rewrite str_eqb_refl. reflexivity.
  - destruct (str_eqb k0 k) eqn:E; simpl; rewrite E; auto.
Qed.

Lemma dict_lookup_set_neq (d : dict) (k k' v : str) :
  k <> k' -> dict_lookup (dict_set d k v) k' = dict_lookup d k'.
Proof.
  intros Hk. induction d as [|[k0 v0] d IH]; simpl.
  - apply str_eqb_neq in Hk. rewrite Hk. reflexivity.
  - destruct (str_eqb k0 k) eqn:E; simpl.
    + apply str_eqb_eq in E. subst k0.
      apply str_eqb_neq in Hk. rewrite Hk. reflexivity.
    + rewrite IH. reflexivity.
Qed.

(** ** The files of a paper *)

Section Files.

Variable R : Runtime.

Lemma emits_download_pdf (P : event -> Prop) url file_path :
  P (Get url []) -> P (Open file_path (txt "wb")) -> P (Close file_path) ->
  (forall data, P (Write file_path (Bytes data))) ->
  emits P (download_pdf R url file_path).
Proof.
  intros Hg Ho Hc Hw. unfold download_pdf.
  apply emits_bind; [apply emits_call; exact Hg|intros response].
  apply emits_with_open; auto.
  apply emits_bind; [apply emits_io|intros data].
  apply emits_call. apply Hw.
Qed.

Lemma process_bib_and_pdf_steps bib_url folder_path folder_name w r w1 body w2 :
  session_get R bib_url fetch_headers w = (Ok r, w1) ->
  response_text R r w1 = (Ok body, w2) ->
  Forall (step_of R bib_url folder_path folder_name body)
    (events (process_bib_and_pdf R bib_url folder_path folder_name w)).
Proof.
  intros H1 H2. unfold process_bib_and_pdf.
  apply events_try_at; [|intros e; apply emits_print; exact I].
  apply events_bind_at.
  - rewrite fetch_events. constructor; [|constructor].
    left; split; reflexivity.
  - intros a t w' Hf.
    rewrite (fetch_body R bib_url w r w1 body w2 H1 H2) in Hf.
    injection Hf as <- _ <-.
    destruct (extract_pdf_url body) as [[|c u]|] eqn:Eu;
      try (apply emits_ret).
    apply emits_bind; [apply emits_call; left; reflexivity|intros _].
    apply emits_bind; [apply emits_call; right; reflexivity|intros _].
    apply emits_bind; [|intros _].
    { apply emits_download_pdf.
      - right. rewrite Eu. split; reflexivity.
      - left; split; reflexivity.
      - left; reflexivity.
      - intros data. reflexivity. }
    apply emits_bind; [apply emits_print; exact I|intros _].
    apply emits_bind; [|intros _; apply emits_print; exact I].
    apply emits_with_open.
    + right; split; reflexivity.
    + right; reflexivity.
    + apply emits_call. split; [reflexivity|].
      exists (c :: u). rewrite Eu. split; reflexivity.
Qed.

End Files.

(** The end-to-end scenario: a body with title [T], author [A], booktitle
    [B] and a PDF URL, on a site that serves both documents. *)
Lemma sample_run_events :
  events
    (process_bib_and_pdf (sample_runtime sample_site (fun _ => []))
       sample_bib_url (txt "D:/ds/2021/hash/abc") (txt "2021/hash/abc") tt)
  = [Get sample_bib_url fetch_headers;
     MakeDirs (txt "D:/ds/2021/hash/abc/pdf");
     MakeDirs (txt "D:/ds/2021/hash/abc/json_2021/hash/abc");
     Get (txt "https://x/doc.pdf") [];
     Open (txt "D:/ds/2021/hash/abc/pdf/B_A.pdf") (txt "wb");
     Write (txt "D:/ds/2021/hash/abc/pdf/B_A.pdf") (Bytes (txt "%PDF-1.4"));
     Close (txt "D:/ds/2021/hash/abc/pdf/B_A.pdf");
     Print (txt "Downloaded PDF: D:/ds/2021/hash/abc/pdf/B_A.pdf");
     Open (txt "D:/ds/2021/hash/abc/json_2021/hash/abc/T.json") (txt "w");
     Write (txt "D:/ds/2021/hash/abc/json_2021/hash/abc/T.json")
       (Text (sample_dumps
                [(txt "title", txt "T"); (txt "author", txt "A");
                 (txt "booktitle", txt "B");
                 (txt "url", txt "https://x/doc.pdf")]));
     Close (txt "D:/ds/2021/hash/abc/json_2021/hash/abc/T.json");
     Print (txt "Saved JSON: D:/ds/2021/hash/abc/json_2021/hash/abc/T.json")].
Proof. vm_compute. reflexivity. Qed.

(** C9.  Whatever text [process_bib_and_pdf] writes is the JSON of the
    extracted fields with the key [url] set to the URL that
    [extract_pdf_url] found in the same body: the value of [url] in it is
    that URL, also when bulk extraction had another value for [url], and
    every other key is as bulk extraction left it. *)
Theorem json_url_is_pdf_url (R : Runtime)
    (bib_url folder_path folder_name : str) (w : world R)
    (r : response R) (w1 : world R) (body : str) (w2 : world R) :
  session_get R bib_url fetch_headers w = (Ok r, w1) ->
  response_text R r w1 = (Ok body, w2) ->
  forall path s,
    In (Write path (Text s))
       (events (process_bib_and_pdf R bib_url folder_path folder_name w)) ->
    exists pdf_url bib_data,
      extract_pdf_url body = Some pdf_url
      /\ s = json_dumps R bib_data
      /\ dict_lookup bib_data (txt "url") = Some pdf_url
      /\ forall k, k <> txt "url" ->
           dict_lookup bib_data k
           = dict_lookup (extract_all_bib_fields body) k.
Proof.
  intros H1 H2 path s Hin.
  pose proof (process_bib_and_pdf_steps R bib_url folder_path folder_name
                w r w1 body w2 H1 H2) as Hall.
  rewrite Forall_forall in Hall.
  destruct (Hall _ Hin) as [_ [pdf_url [Hu Hs]]].
  exists pdf_url, (dict_set (extract_all_bib_fields body) (txt "url") pdf_url).
  repeat split; auto.
  - apply dict_lookup_set_eq.
  - intros k Hk. apply dict_lookup_set_neq. congruence.
Qed.

Lemma json_url_is_pdf_url_witness :
  dict_lookup (extract_all_bib_fields sample_draft_body) (txt "url")
  = Some (txt "draft")
  /\ exists pdf_url bib_data,
       extract_pdf_url sample_draft_body = Some pdf_url
       /\ txt "title: T; url: https://x/doc.pdf; " = sample_dumps bib_data
       /\ dict_lookup bib_data (txt "url") = Some pdf_url
       /\ forall k, k <> txt "url" ->
            dict_lookup bib_data k
            = dict_lookup (extract_all_bib_fields sample_draft_body) k.
Proof.
  split; [reflexivity|].
  apply (json_url_is_pdf_url (sample_runtime sample_draft_site (fun _ => []))
           sample_bib_url (txt "D:/ds/2021") (txt "2021") tt
           (200, sample_draft_body) tt sample_draft_body tt
           eq_refl eq_refl
           (txt "D:/ds/2021/json_2021/T.json")
           (txt "title: T; url: https://x/doc.pdf; ")).
  vm_compute. auto 20.
Defined.

(** ** The matcher *)

Lemma lit_app g a b : lit g (a ++ b) = lit g a ++ lit g b.
Proof. unfold lit. apply map_app. Qed.

Lemma tagged_app g a b : tagged g (a ++ b) = tagged g a ++ tagged g b.
Proof. unfold tagged. apply map_app. Qed.

Lemma tagged_chars g s : map snd (tagged g s) = s.
Proof.
  unfold tagged. rewrite map_map. simpl. apply map_id.
Qed.

Lemma group_tagged g h s :
  group g (tagged h s) = if h =? g then s else [].
Proof.
  unfold group, tagged. induction s as [|c s IH]; simpl.
  - destruct (h =? g); reflexivity.
  - destruct (h =? g) eqn:E; simpl; rewrite IH; reflexivity.
Qed.

Lemma group_app g m1 m2 : group g (m1 ++ m2) = group g m1 ++ group g m2.
Proof. unfold group. rewrite filter_app, map_app. reflexivity. Qed.

Lemma group_cons g h c m :
  group g ((h, c) :: m) = if h =? g then c :: group g m else group g m.
Proof. unfold group. simpl. destruct (h =? g); reflexivity. Qed.

(** What a successful repetition consumed. *)
Lemma many_inv g cls k s m rest :
  many g cls k s = Some (m, rest) ->
  exists w s' m',
    s = w ++ s' /\ forallb cls w = true
    /\ k s' = Some (m', rest) /\ m = tagged g w ++ m'.
Proof.
  revert m rest. induction s as [|c s IH]; intros m rest H; simpl in H.
  - exists [], [], m. auto.
  - destruct (cls c) eqn:Ec.
    + destruct (many g cls k s) as [[m1 r1]|] eqn:Em.
      * injection H as <- <-.
        destruct (IH m1 r1 eq_refl) as (w & s' & m' & -> & Hw & Hk & ->).
        exists (c :: w), s', m'. simpl. rewrite Ec, Hw. auto.
      * exists [], (c :: s), m. auto.
    + exists [], (c :: s), m. auto.
Qed.

Lemma many_span g cls k w s :
  forallb cls w = true -> stops cls s -> rejects k cls ->
  many g cls k (w ++ s)
  = match k s with
    | Some (m, rest) => Some (tagged g w ++ m, rest)
    | None => None
    end.
Proof.
  intros Hw Hs Hk. induction w as [|c w IH]; simpl in *.
  - destruct s as [|c s]; simpl in *.
    + destruct (k []) as [[m r]|]; reflexivity.
    + rewrite Hs. destruct (k (c :: s)) as [[m r]|]; reflexivity.
  - apply andb_true_iff in Hw as [Hc Hw]. rewrite Hc, (IH Hw).
    destruct (k s) as [[m r]|]; [reflexivity|].
    apply Hk. exact Hc.
Qed.

Lemma match_lit g c p s :
  match_here ((g, Lit c) :: p) (c :: s) = push g c (match_here p s).
Proof. simpl. rewrite Ascii.eqb_refl. reflexivity. Qed.

Lemma match_lit_inv g c p s m rest :
  match_here ((g, Lit c) :: p) s = Some (m, rest) ->
  exists s' m',
    s = c :: s' /\ match_here p s' = Some (m', rest) /\ m = (g, c) :: m'.
Proof.
  simpl. destruct s as [|x s]; [discriminate|].
  destruct (Ascii.eqb_spec x c) as [->|_]; [|discriminate].
  unfold push. destruct (match_here p s) as [[m' r]|] eqn:E; [|discriminate].
  intros H. injection H as <- <-. exists s, m'. auto.
Qed.

Lemma match_lits g name p s :
  match_here (lit g name ++ p) (name ++ s)
  = match match_here p s with
    | Some (m, rest) => Some (tagged g name ++ m, rest)
    | None => None
    end.
Proof.
  induction name as [|c name IH].
  - simpl. destruct (match_here p s) as [[m r]|]; reflexivity.
  - change (lit g (c :: name) ++ p) with ((g, Lit c) :: lit g name ++ p).
    change ((c :: name) ++ s) with (c :: name ++ s).
    rewrite match_lit, IH. unfold push.
    destruct (match_here p s) as [[m r]|]; reflexivity.
Qed.

Lemma match_lits_inv g name p s m rest :
  match_here (lit g name ++ p) s = Some (m, rest) ->
  exists s' m',
    s = name ++ s' /\ match_here p s' = Some (m', rest)
    /\ m = tagged g name ++ m'.
Proof.
  revert s m. induction name as [|c name IH]; intros s m H.
  - exists s, m. auto.
  - change (lit g (c :: name) ++ p) with ((g, Lit c) :: lit g name ++ p) in H.
    apply match_lit_inv in H as (s1 & m1 & -> & H & ->).
    apply IH in H as (s' & m' & -> & H & ->).
    exists s', m'. auto.
Qed.

Lemma match_star_inv g cls p s m rest :
  match_here ((g, Star cls) :: p) s = Some (m, rest) ->
  exists w s' m',
    s = w ++ s' /\ forallb cls w = true
    /\ match_here p s' = Some (m', rest) /\ m = tagged g w ++ m'.
Proof. simpl. apply many_inv. Qed.

Lemma match_star_span g cls p w s :
  forallb cls w = true -> stops cls s -> rejects (match_here p) cls ->
  match_here ((g, Star cls) :: p) (w ++ s)
  = match match_here p s with
    | Some (m, rest) => Some (tagged g w ++ m, rest)
    | None => None
    end.
Proof. intros. simpl. apply many_span; assumption. Qed.

Lemma match_plus_inv g cls p s m rest :
  match_here ((g, Plus cls) :: p) s = Some (m, rest) ->
  exists w s' m',
    s = w ++ s' /\ w <> [] /\ forallb cls w = true
    /\ match_here p s' = Some (m', rest) /\ m = tagged g w ++ m'.
Proof.
  simpl. destruct s as [|x s]; [discriminate|].
  destruct (cls x) eqn:Ex; [|discriminate].
  unfold push.
  destruct (many g cls (match_here p) s) as [[m1 r1]|] eqn:Em; [|discriminate].
  intros H. injection H as <- <-.
  apply many_inv in Em as (w & s' & m' & -> & Hw & Hk & ->).
  exists (x :: w), s', m'. simpl. rewrite Ex, Hw.
  repeat split; auto. discriminate.
Qed.

Lemma match_plus_span g cls p w s :
  w <> [] -> forallb cls w = true -> stops cls s ->
  rejects (match_here p) cls ->
  match_here ((g, Plus cls) :: p) (w ++ s)
  = match match_here p s with
    | Some (m, rest) => Some (tagged g w ++ m, rest)
    | None => None
    end.
Proof.
  intros Hne Hw Hs Hk. destruct w as [|c w]; [congruence|].
  simpl in Hw. apply andb_true_iff in Hw as [Hc Hw].
  change (match_here ((g, Plus cls) :: p) ((c :: w) ++ s))
    with (if cls c then push g c (many g cls (match_here p) (w ++ s))
          else None).
  rewrite Hc, (many_span g cls (match_here p) w s Hw Hs Hk).
  destruct (match_here p s) as [[m r]|]; reflexivity.
Qed.

Lemma match_plus_stops g cls p s :
  stops cls s -> match_here ((g, Plus cls) :: p) s = None.
Proof.
  destruct s as [|c s]; simpl; [reflexivity|]. intros ->. reflexivity.
Qed.

(** A match consumes a prefix of the text. *)
Lemma match_here_consumes p :
  forall s m rest, match_here p s = Some (m, rest) -> s = map snd m ++ rest.
Proof.
  induction p as [|[g a] p IH]; intros s m rest H.
  - simpl in H. injection H as <- <-. reflexivity.
  - destruct a as [c|c|cls|cls|cls].
    + apply match_lit_inv in H as (s' & m' & -> & H & ->).
      simpl. f_equal. apply IH, H.
    + simpl in H. destruct s as [|x s]; [apply IH, H|].
      destruct (Ascii.eqb x c); [|apply IH, H].
      destruct (match_here p s) as [[m1 r1]|] eqn:E; [|apply IH, H].
      injection H as <- <-. simpl. f_equal. apply IH, E.
    + simpl in H. destruct s as [|x s]; [discriminate|].
      destruct (cls x); [|discriminate]. unfold push in H.
      destruct (match_here p s) as [[m1 r1]|] eqn:E; [|discriminate].
      injection H as <- <-. simpl. f_equal. apply IH, E.
    + apply match_star_inv in H as (w & s' & m' & -> & _ & H & ->).
      rewrite map_app, tagged_chars, <- app_assoc. f_equal. apply IH, H.
    + apply match_plus_inv in H as (w & s' & m' & -> & _ & _ & H & ->).
      rewrite map_app, tagged_chars, <- app_assoc. f_equal. apply IH, H.
Qed.

(** ** No pattern of the program matches the empty text *)

Lemma match_here_has_lit p :
  forall s m rest g c,
    In (g, Lit c) p -> match_here p s = Some (m, rest) -> In (g, c) m.
Proof.
  induction p as [|[h a] p IH]; intros s m rest g c Hin H; [contradiction|].
  destruct Hin as [E|Hin].
  - injection E as -> ->.
    apply match_lit_inv in H as (s' & m' & _ & _ & ->). left; reflexivity.
  - destruct a as [d|d|cls|cls|cls].
    + apply match_lit_inv in H as (s' & m' & _ & H & ->).
      right. exact (IH _ _ _ _ _ Hin H).
    + simpl in H. destruct s as [|x s]; [exact (IH _ _ _ _ _ Hin H)|].
      destruct (Ascii.eqb x d); [|exact (IH _ _ _ _ _ Hin H)].
      destruct (match_here p s) as [[m1 r1]|] eqn:E;
        [|exact (IH _ _ _ _ _ Hin H)].
      injection H as <- <-. right. exact (IH _ _ _ _ _ Hin E).
    + simpl in H. destruct s as [|x s]; [discriminate|].
      destruct (cls x); [|discriminate]. unfold push in H.
      destruct (match_here p s) as [[m1 r1]|] eqn:E; [|discriminate].
      injection H as <- <-. right. exact (IH _ _ _ _ _ Hin E).
    + apply match_star_inv in H as (w & s' & m' & _ & _ & H & ->).
      apply in_or_app. right. exact (IH _ _ _ _ _ Hin H).
    + apply match_plus_inv in H as (w & s' & m' & _ & _ & _ & H & ->).
      apply in_or_app. right. exact (IH _ _ _ _ _ Hin H).
Qed.

Lemma program_patterns_consume name s m rest :
  (match_here (bib_field_pattern name) s = Some (m, rest) -> m <> [])
  /\ (match_here pdf_url_pattern s = Some (m, rest) -> m <> [])
  /\ (match_here all_fields_pattern s = Some (m, rest) -> m <> []).
Proof.
  assert (Hne : forall p, In (0, Lit "="%char) p ->
                  match_here p s = Some (m, rest) -> m <> []).
  { intros p Hin H E. apply (match_here_has_lit p s m rest) in Hin; [|exact H].
    rewrite E in Hin. contradiction. }
  repeat split; apply Hne.
  - unfold bib_field_pattern. apply in_or_app. right. simpl. auto.
  - simpl. auto 10.
  - simpl. auto.
Qed.

(** ** [search] and [findall] *)

Lemma search_hit p s r : match_here p s = Some r -> search p s = Some r.
Proof. intros H. destruct s; simpl; rewrite H; reflexivity. Qed.

Lemma search_step p c s :
  match_here p (c :: s) = None -> search p (c :: s) = search p s.
Proof. intros H. simpl. rewrite H. reflexivity. Qed.

Lemma search_length p s m rest :
  search p s = Some (m, rest) ->
  List.length m + List.length rest <= List.length s.
Proof.
  induction s as [|c s IH]; simpl.
  - destruct (match_here p []) as [[m1 r1]|] eqn:E; [|discriminate].
    intros H. injection H as <- <-.
    apply match_here_consumes in E.
    apply (f_equal (@List.length ascii)) in E.
    rewrite length_app, length_map in E. simpl in E. lia.
  - destruct (match_here p (c :: s)) as [[m1 r1]|] eqn:E.
    + intros H. injection H as <- <-.
      apply match_here_consumes in E.
      apply (f_equal (@List.length ascii)) in E.
      rewrite length_app, length_map in E. simpl in E. lia.
    + intros H. apply IH in H. lia.
Qed.

Lemma findall_from_fuel p :
  forall n n' s, List.length s < n -> List.length s < n' ->
    findall_from n p s = findall_from n' p s.
Proof.
  induction n as [|n IH]; intros [|n'] s Hn Hn'; try lia.
  simpl. destruct (search p s) as [[m rest]|] eqn:E; [|reflexivity].
  apply search_length in E.
  destruct m as [|x m].
  - destruct rest as [|c rest]; [reflexivity|].
    simpl in E. f_equal. apply IH; lia.
  - simpl in E. f_equal. apply IH; lia.
Qed.

Lemma findall_from_S n p s :
  findall_from (S n) p s
  = match search p s with
    | None => []
    | Some ([], []) => [[]]
    | Some ([], _ :: rest) => [] :: findall_from n p rest
    | Some (m, rest) => m :: findall_from n p rest
    end.
Proof. reflexivity. Qed.

Lemma findall_none p s : search p s = None -> findall p s = [].
Proof. intros H. unfold findall. rewrite findall_from_S, H. reflexivity. Qed.

Lemma findall_some p s x m rest :
  search p s = Some (x :: m, rest) ->
  findall p s = (x :: m) :: findall p rest.
Proof.
  intros H. unfold findall. rewrite findall_from_S at 1. rewrite H. f_equal.
  apply search_length in H. simpl in H.
  apply findall_from_fuel; lia.
Qed.

(** A stretch of text in which no match starts adds nothing. *)
Lemma findall_skip p u s :
  search p (u ++ s) = search p s -> findall p (u ++ s) = findall p s.
Proof.
  intros H. unfold findall. rewrite !findall_from_S, H.
  destruct (search p s) as [[m rest]|] eqn:E; [|reflexivity].
  apply search_length in E. rewrite length_app.
  destruct m as [|x m].
  - destruct rest as [|c rest]; [reflexivity|].
    simpl in E. f_equal. apply findall_from_fuel; lia.
  - simpl in E. f_equal. apply findall_from_fuel; lia.
Qed.

(** Every match reported by [search] and [findall] is a match of the
    pattern at some position. *)
Lemma search_sound p s m rest :
  search p s = Some (m, rest) ->
  exists s', match_here p s' = Some (m, rest).
Proof.
  induction s as [|c s IH]; simpl.
  - destruct (match_here p []) as [r|] eqn:E; [|discriminate].
    intros H. injection H as ->. exists []. exact E.
  - destruct (match_here p (c :: s)) as [r|] eqn:E; [|exact IH].
    intros H. injection H as ->. exists (c :: s). exact E.
Qed.

Lemma findall_from_sound p n :
  forall s m, In m (findall_from n p s) ->
    exists s' rest, match_here p s' = Some (m, rest).
Proof.
  induction n as [|n IH]; intros s m Hin; [contradiction|].
  rewrite findall_from_S in Hin.
  destruct (search p s) as [[m0 rest]|] eqn:E; [|contradiction].
  apply search_sound in E as [s' E].
  destruct m0 as [|x m0].
  - destruct rest as [|c rest].
    + destruct Hin as [<-|[]]. eauto.
    + destruct Hin as [<-|Hin]; [eauto|exact (IH _ _ Hin)].
  - destruct Hin as [<-|Hin]; [eauto|exact (IH _ _ Hin)].
Qed.

Lemma findall_sound p s m :
  In m (findall p s) -> exists s' rest, match_here p s' = Some (m, rest).
Proof. apply findall_from_sound. Qed.

(** ** Texts cut at the first character outside a class *)

Lemma span_unique (cls : ascii -> bool) a x s1 b y s2 :
  forallb cls a = true -> forallb cls b = true ->
  cls x = false -> cls y = false ->
  a ++ x :: s1 = b ++ y :: s2 ->
  a = b /\ x = y /\ s1 = s2.
Proof.
  intros Ha Hb Hx Hy. revert b Hb.
  induction a as [|c a IH]; intros [|d b] Hb H; simpl in *.
  - injection H as -> ->. auto.
  - injection H as -> _. apply andb_true_iff in Hb as [Hd _]. congruence.
  - injection H as -> _. apply andb_true_iff in Ha as [Hc _]. congruence.
  - injection H as -> H.
    apply andb_true_iff in Ha as [_ Ha]. apply andb_true_iff in Hb as [_ Hb].
    destruct (IH Ha b Hb H) as (-> & -> & ->). auto.
Qed.

Lemma word_space_split k1 p1 k2 p2 :
  forallb is_word k1 = true -> forallb is_space p1 = true ->
  forallb is_word k2 = true -> forallb is_space p2 = true ->
  k1 ++ p1 = k2 ++ p2 -> k1 = k2 /\ p1 = p2.
Proof.
  intros Hk1 Hp1. revert k2.
  induction k1 as [|c k1 IH]; intros [|d k2] Hk2 Hp2 H; simpl in *.
  - auto.
  - subst p1. simpl in Hp1.
    apply andb_true_iff in Hp1 as [Hd _]. apply andb_true_iff in Hk2 as [Hw _].
    apply word_not_space in Hw. congruence.
  - subst p2. simpl in Hp2.
    apply andb_true_iff in Hp2 as [Hd _]. apply andb_true_iff in Hk1 as [Hw _].
    apply word_not_space in Hw. congruence.
  - injection H as -> H.
    apply andb_true_iff in Hk1 as [_ Hk1].
    apply andb_true_iff in Hk2 as [_ Hk2].
    destruct (IH Hk1 k2 Hk2 Hp2 H) as [-> ->]. auto.
Qed.

Lemma forallb_weaken (P Q : ascii -> bool) s :
  (forall c, P c = true -> Q c = true) ->
  forallb P s = true -> forallb Q s = true.
Proof.
  intros HPQ. rewrite !forallb_forall. auto.
Qed.

Lemma spaces_no_word s : forallb is_space s = true -> no_word s = true.
Proof.
  apply forallb_weaken. intros c Hc. rewrite (space_not_word c Hc). reflexivity.
Qed.

Lemma endswith_cons c s suffix :
  endswith (c :: s) suffix = str_eqb (c :: s) suffix || endswith s suffix.
Proof. reflexivity. Qed.

Lemma endswith_spec s suffix :
  endswith s suffix = true <-> exists pre, s = pre ++ suffix.
Proof.
  induction s as [|c s IH].
  - simpl. rewrite orb_false_r. split.
    + intros H. exists []. destruct suffix; [reflexivity|discriminate].
    + intros [pre H]. symmetry in H. apply app_eq_nil in H as [_ ->].
      reflexivity.
  - rewrite endswith_cons, orb_true_iff, IH, str_eqb_eq. split.
    + intros [<-|[pre ->]].
      * exists []. reflexivity.
      * exists (c :: pre). reflexivity.
    + intros [[|d pre] H]; simpl in H.
      * left. congruence.
      * right. injection H as _ ->. exists pre. reflexivity.
Qed.

(** ** The shared tail of the field patterns *)

Lemma lit_rejects g c p (cls : ascii -> bool) :
  (forall x, cls x = true -> Ascii.eqb x c = false) ->
  rejects (match_here ((g, Lit c) :: p)) cls.
Proof. intros H x s Hx. simpl. rewrite (H x Hx). reflexivity. Qed.

Lemma tail_rejects_word g : rejects (match_here (assign_tail g)) is_word.
Proof.
  intros c s Hc. unfold assign_tail.
  change (many 0 is_space
            (match_here
               [(0, Lit "="%char); (0, Star is_space); (0, Lit "{"%char);
                (g, Plus not_brace); (0, Lit "}"%char)])
            (c :: s) = None).
  simpl. rewrite (word_not_space c Hc), (word_not_equals c Hc). reflexivity.
Qed.

Lemma tail_inv g s m rest :
  match_here (assign_tail g) s = Some (m, rest) ->
  exists w1 w2 v,
    s = w1 ++ "="%char :: w2 ++ "{"%char :: v ++ "}"%char :: rest
    /\ forallb is_space w1 = true /\ forallb is_space w2 = true
    /\ forallb not_brace v = true /\ v <> [].
Proof.
  unfold assign_tail. intros H.
  apply match_star_inv in H as (w1 & s1 & m1 & -> & Hw1 & H & _).
  apply match_lit_inv in H as (s2 & m2 & -> & H & _).
  apply match_star_inv in H as (w2 & s3 & m3 & -> & Hw2 & H & _).
  apply match_lit_inv in H as (s4 & m4 & -> & H & _).
  apply match_plus_inv in H as (v & s5 & m5 & -> & Hne & Hv & H & _).
  apply match_lit_inv in H as (s6 & m6 & -> & H & _).
  simpl in H. injection H as _ <-.
  exists w1, w2, v. auto.
Qed.

(** The value a field pattern captures is never empty. *)
Lemma tail_group g s m rest :
  g <> 0 ->
  match_here (assign_tail g) s = Some (m, rest) -> group g m <> [].
Proof.
  unfold assign_tail. intros Hg H.
  assert (E0 : (0 =? g) = false) by (apply Nat.eqb_neq; lia).
  apply match_star_inv in H as (w1 & s1 & m1 & _ & _ & H & ->).
  apply match_lit_inv in H as (s2 & m2 & _ & H & ->).
  apply match_star_inv in H as (w2 & s3 & m3 & _ & _ & H & ->).
  apply match_lit_inv in H as (s4 & m4 & _ & H & ->).
  apply match_plus_inv in H as (v & s5 & m5 & _ & Hne & _ & H & ->).
  repeat (rewrite ?group_app, ?group_cons, ?group_tagged, ?E0).
  rewrite Nat.eqb_refl. simpl.
  destruct v as [|c v]; [congruence|discriminate].
Qed.

Lemma stops_cons (cls : ascii -> bool) c s :
  cls c = false -> stops cls (c :: s).
Proof. intros H. exact H. Qed.

Lemma tail_run g a rest :
  forallb is_space (pad_left a) = true ->
  forallb is_space (pad_right a) = true ->
  forallb not_brace (value a) = true ->
  value a <> [] ->
  match_here (assign_tail g) (after_key a rest) = Some (tail_match g a, rest).
Proof.
  intros Hl Hr Hv Hne. unfold assign_tail, after_key, tail_match.
  rewrite match_star_span;
    [|exact Hl|apply stops_cons; reflexivity
     |apply lit_rejects; exact space_not_equals].
  rewrite match_lit.
  rewrite match_star_span;
    [|exact Hr|apply stops_cons; reflexivity
     |apply lit_rejects; exact space_not_open].
  rewrite match_lit.
  rewrite match_plus_span;
    [|exact Hne|exact Hv|apply stops_cons; reflexivity
     |apply lit_rejects; exact not_brace_close].
  rewrite match_lit. reflexivity.
Qed.

(** Where a field pattern can match at a key: only at the whole stretch of
    word characters before the padding, and only before a non-empty value. *)
Lemma shape_at_key a k2 kw w1 w2 v r rest :
  forallb is_space (pad_left a) = true ->
  forallb is_space (pad_right a) = true ->
  forallb not_brace (value a) = true ->
  forallb is_word k2 = true -> forallb is_word kw = true ->
  forallb is_space w1 = true -> forallb is_space w2 = true ->
  forallb not_brace v = true ->
  k2 ++ after_key a rest
  = kw ++ w1 ++ "="%char :: w2 ++ "{"%char :: v ++ "}"%char :: r ->
  k2 = kw /\ v = value a /\ r = rest.
Proof.
  intros Hl Hr Hv Hk2 Hkw Hw1 Hw2 Hv' H. unfold after_key in H.
  rewrite !app_assoc in H. rewrite <- !app_assoc in H.
  assert (Hws : forall k p, forallb is_word k = true ->
                  forallb is_space p = true ->
                  forallb word_or_space (k ++ p) = true).
  { intros k p Hk Hp. rewrite forallb_app. apply andb_true_iff. split.
    - revert Hk. apply forallb_weaken. unfold word_or_space.
      intros c ->. reflexivity.
    - revert Hp. apply forallb_weaken. unfold word_or_space.
      intros c ->. apply orb_true_r. }
  rewrite (app_assoc k2), (app_assoc kw) in H.
  apply (span_unique word_or_space) in H as (H1 & _ & H2);
    [|apply Hws; assumption|apply Hws; assumption|reflexivity|reflexivity].
  apply word_space_split in H1 as [-> _]; try assumption.
  apply (span_unique is_space) in H2 as (_ & _ & H2);
    [|assumption|assumption|reflexivity|reflexivity].
  apply (span_unique not_brace) in H2 as (-> & _ & ->);
    [|assumption|assumption|reflexivity|reflexivity].
  auto.
Qed.

(** ** Well-formed assignments *)

Lemma well_formed_parts a :
  well_formed a = true ->
  key a <> [] /\ forallb is_word (key a) = true
  /\ forallb is_space (pad_left a) = true
  /\ forallb is_space (pad_right a) = true
  /\ forallb not_brace (value a) = true
  /\ no_word (separator a) = true.
Proof.
  unfold well_formed. rewrite !andb_true_iff.
  intros [[[[[Hk Hw] Hl] Hr] Hv] Hs].
  repeat split; auto. intros E. rewrite E in Hk. discriminate.
Qed.

Lemma has_value_spec a : has_value a = true <-> value a <> [].
Proof.
  unfold has_value. destruct (value a); simpl; split; congruence.
Qed.

Lemma render_assignment_app a s :
  render_assignment a ++ s = key a ++ after_key a (separator a ++ s).
Proof.
  unfold render_assignment, after_key, txt. simpl.
  rewrite <- !app_assoc. simpl.
  repeat (f_equal; rewrite <- ?app_assoc; simpl).
Qed.

Lemma render_all_cons a l :
  render_all (a :: l) = render_assignment a ++ render_all l.
Proof. reflexivity. Qed.

(** The text from the padding to the closing brace of an assignment
    without value holds no word character. *)
Lemma after_key_empty a rest :
  forallb is_space (pad_left a) = true ->
  forallb is_space (pad_right a) = true ->
  value a = [] ->
  exists u, after_key a rest = u ++ rest /\ no_word u = true.
Proof.
  intros Hl Hr Hv.
  exists (pad_left a ++ "="%char :: pad_right a ++ ["{"%char; "}"%char]).
  unfold after_key. rewrite Hv. split.
  - rewrite <- !app_assoc. simpl. rewrite <- !app_assoc. reflexivity.
  - unfold no_word in *. rewrite forallb_app. simpl. rewrite forallb_app.
    fold (no_word (pad_left a)). fold (no_word (pad_right a)).
    rewrite (spaces_no_word _ Hl), (spaces_no_word _ Hr). reflexivity.
Qed.

(** ** Bulk extraction on record texts *)

Lemma bulk_inv s m rest :
  match_here all_fields_pattern s = Some (m, rest) ->
  exists kw w1 w2 v,
    s = kw ++ w1 ++ "="%char :: w2 ++ "{"%char :: v ++ "}"%char :: rest
    /\ forallb is_word kw = true
    /\ forallb is_space w1 = true /\ forallb is_space w2 = true
    /\ forallb not_brace v = true /\ v <> [].
Proof.
  change all_fields_pattern with ((1, Plus is_word) :: assign_tail 2).
  intros H.
  apply match_plus_inv in H as (kw & s1 & m1 & -> & _ & Hkw & H & _).
  apply tail_inv in H as (w1 & w2 & v & -> & Hw1 & Hw2 & Hv & Hne).
  exists kw, w1, w2, v. repeat split; auto.
Qed.

Lemma after_key_stops a rest :
  forallb is_space (pad_left a) = true -> stops is_word (after_key a rest).
Proof.
  unfold after_key. destruct (pad_left a) as [|c p]; simpl.
  - reflexivity.
  - intros H. apply andb_true_iff in H as [H _]. apply space_not_word, H.
Qed.

Lemma bulk_run a rest :
  well_formed a = true -> has_value a = true ->
  match_here all_fields_pattern (key a ++ after_key a rest)
  = Some (bulk_match a, rest).
Proof.
  intros Hwf Hv. apply well_formed_parts in Hwf as (Hk & Hw & Hl & Hr & Hb & _).
  apply has_value_spec in Hv.
  change all_fields_pattern with ((1, Plus is_word) :: assign_tail 2).
  rewrite match_plus_span;
    [|exact Hk|exact Hw|apply after_key_stops, Hl|apply tail_rejects_word].
  rewrite tail_run by assumption. reflexivity.
Qed.

Lemma bulk_skip_no_word u s :
  no_word u = true ->
  search all_fields_pattern (u ++ s) = search all_fields_pattern s.
Proof.
  induction u as [|c u IH]; intros H; [reflexivity|].
  simpl in H. apply andb_true_iff in H as [Hc Hu].
  change ((c :: u) ++ s) with (c :: u ++ s).
  rewrite search_step; [apply IH, Hu|].
  apply match_plus_stops. simpl.
  destruct (is_word c); [discriminate|reflexivity].
Qed.

Lemma bulk_skip_key a k2 rest :
  well_formed a = true -> value a = [] ->
  forallb is_word k2 = true ->
  search all_fields_pattern (k2 ++ after_key a rest)
  = search all_fields_pattern (after_key a rest).
Proof.
  intros Hwf Hv. apply well_formed_parts in Hwf as (_ & _ & Hl & Hr & Hb & _).
  induction k2 as [|c k2 IH]; intros Hk2; [reflexivity|].
  change ((c :: k2) ++ after_key a rest) with (c :: k2 ++ after_key a rest).
  rewrite search_step.
  - apply IH. simpl in Hk2. apply andb_true_iff in Hk2 as [_ H]. exact H.
  - destruct (match_here all_fields_pattern (c :: k2 ++ after_key a rest))
      as [[m r]|] eqn:E; [exfalso|reflexivity].
    apply bulk_inv in E as (kw & w1 & w2 & v & E & Hkw & Hw1 & Hw2 & Hv' & Hne).
    change (c :: k2 ++ after_key a rest) with ((c :: k2) ++ after_key a rest)
      in E.
    apply shape_at_key in E as (_ & E & _); try assumption.
    congruence.
Qed.

Lemma bulk_skip_empty a s :
  well_formed a = true -> has_value a = false ->
  search all_fields_pattern (render_assignment a ++ s)
  = search all_fields_pattern s.
Proof.
  intros Hwf Hv.
  assert (Hv' : value a = []).
  { unfold has_value in Hv. destruct (value a); [reflexivity|discriminate]. }
  pose proof (well_formed_parts a Hwf) as (_ & Hw & Hl & Hr & _ & Hs).
  rewrite render_assignment_app, bulk_skip_key by assumption.
  destruct (after_key_empty a (separator a ++ s) Hl Hr Hv') as (u & -> & Hu).
  rewrite bulk_skip_no_word by exact Hu.
  apply bulk_skip_no_word, Hs.
Qed.

Lemma bulk_match_cons a :
  key a <> [] -> exists x m, bulk_match a = x :: m.
Proof.
  unfold bulk_match. destruct (key a) as [|c k]; [congruence|].
  intros _. simpl. eauto.
Qed.

Lemma bulk_findall_all l :
  forallb well_formed l = true ->
  findall all_fields_pattern (render_all l)
  = map bulk_match (filter has_value l).
Proof.
  induction l as [|a l IH]; intros Hl.
  - apply findall_none. reflexivity.
  - simpl in Hl. apply andb_true_iff in Hl as [Ha Hl].
    rewrite render_all_cons. simpl filter.
    destruct (has_value a) eqn:Hv.
    + pose proof (well_formed_parts a Ha) as (Hk & _ & _ & _ & _ & Hs).
      destruct (bulk_match_cons a Hk) as (x & m & Em).
      rewrite (findall_some all_fields_pattern _ x m
                 (separator a ++ render_all l)).
      * rewrite <- Em. simpl map. f_equal.
        rewrite findall_skip; [apply IH, Hl|].
        apply bulk_skip_no_word, Hs.
      * rewrite <- Em, render_assignment_app.
        apply search_hit, bulk_run; assumption.
    + rewrite findall_skip; [apply IH, Hl|].
      apply bulk_skip_empty; assumption.
Qed.

Lemma bulk_findall lead l :
  no_word lead = true -> forallb well_formed l = true ->
  findall all_fields_pattern (render lead l)
  = map bulk_match (filter has_value l).
Proof.
  intros Hlead Hl. unfold render.
  rewrite findall_skip; [apply bulk_findall_all, Hl|].
  apply bulk_skip_no_word, Hlead.
Qed.

(** ** The mapping bulk extraction builds *)

Lemma group_tail_match g h a :
  h <> 0 -> group h (tail_match g a) = if g =? h then value a else [].
Proof.
  intros Hh. unfold tail_match.
  assert (E : (0 =? h) = false) by (apply Nat.eqb_neq; lia).
  repeat (rewrite ?group_app, ?group_cons, ?group_tagged, ?E).
  change (group h []) with (@nil ascii).
  destruct (g =? h); simpl; rewrite ?app_nil_r; reflexivity.
Qed.

Lemma group_bulk_match_key a : group 1 (bulk_match a) = key a.
Proof.
  unfold bulk_match.
  rewrite group_app, group_tagged, group_tail_match by lia.
  simpl. apply app_nil_r.
Qed.

Lemma group_bulk_match_value a : group 2 (bulk_match a) = value a.
Proof.
  unfold bulk_match.
  rewrite group_app, group_tagged, group_tail_match by lia.
  reflexivity.
Qed.

Lemma extract_all_bib_fields_fold bib_text :
  extract_all_bib_fields bib_text
  = fold_left store_field (findall all_fields_pattern bib_text) [].
Proof. reflexivity. Qed.

Lemma dict_lookup_set d k v k' :
  dict_lookup (dict_set d k v) k'
  = if str_eqb k k' then Some v else dict_lookup d k'.
Proof.
  destruct (str_eqb_spec k k') as [<-|Hk].
  - apply dict_lookup_set_eq.
  - apply dict_lookup_set_neq, Hk.
Qed.

Lemma fold_store_lookup l d k :
  dict_lookup (fold_left store_field (map bulk_match l) d) k
  = match declared l k with
    | Some v => Some v
    | None => dict_lookup d k
    end.
Proof.
  revert d. induction l as [|a l IH]; intros d; [reflexivity|].
  simpl. rewrite IH. destruct (declared l k); [reflexivity|].
  unfold store_field.
  rewrite group_bulk_match_key, group_bulk_match_value, dict_lookup_set.
  destruct (str_eqb (key a) k); reflexivity.
Qed.

Lemma dict_set_keys d k v :
  forall k', In k' (map fst (dict_set d k v)) <-> k' = k \/ In k' (map fst d).
Proof.
  intros k'. induction d as [|[k0 v0] d IH]; simpl.
  - intuition.
  - destruct (str_eqb_spec k0 k) as [->|Hk]; simpl.
    + intuition.
    + rewrite IH. intuition.
Qed.

Lemma dict_set_nodup d k v :
  NoDup (map fst d) -> NoDup (map fst (dict_set d k v)).
Proof.
  induction d as [|[k0 v0] d IH]; simpl; intros Hd.
  - constructor; [intros []|constructor].
  - inversion Hd as [|? ? Hn Hd']; subst.
    destruct (str_eqb_spec k0 k) as [->|Hk]; simpl.
    + constructor; assumption.
    + constructor; [|apply IH, Hd'].
      rewrite dict_set_keys. intros [E|Hin]; [congruence|contradiction].
Qed.

Lemma fold_store_nodup ms d :
  NoDup (map fst d) -> NoDup (map fst (fold_left store_field ms d)).
Proof.
  revert d. induction ms as [|m ms IH]; intros d Hd; [exact Hd|].
  simpl. apply IH. unfold store_field. apply dict_set_nodup, Hd.
Qed.

Lemma dict_lookup_keys d k :
  In k (map fst d) <-> dict_lookup d k <> None.
Proof.
  induction d as [|[k0 v0] d IH]; simpl.
  - intuition.
  - destruct (str_eqb_spec k0 k) as [->|Hk].
    + split; [discriminate|auto].
    + rewrite <- IH. intuition.
Qed.

Lemma declared_keys l k :
  declared l k <> None <-> In k (map key l).
Proof.
  induction l as [|a l IH]; simpl.
  - intuition.
  - destruct (declared l k) as [v|].
    + split; [intros _; right; apply IH; discriminate|discriminate].
    + destruct (str_eqb_spec (key a) k) as [->|Hk].
      * split; [auto|discriminate].
      * split; [congruence|].
        intros [E|Hin]; [congruence|]. apply IH in Hin. congruence.
Qed.

(** The last assignment of a key decides. *)
Lemma declared_last l1 a l2 :
  (forall b, In b l2 -> key b <> key a) ->
  declared (l1 ++ a :: l2) (key a) = Some (strip (value a)).
Proof.
  intros Hl2.
  assert (E2 : declared l2 (key a) = None).
  { destruct (declared l2 (key a)) eqn:E; [|reflexivity].
    assert (Hin : In (key a) (map key l2)).
    { apply declared_keys. congruence. }
    apply in_map_iff in Hin as (b & Hb & Hin). exfalso.
    exact (Hl2 b Hin Hb). }
  induction l1 as [|b l1 IH]; simpl.
  - rewrite E2, str_eqb_refl. reflexivity.
  - rewrite IH. reflexivity.
Qed.

Lemma extract_all_bib_fields_render lead l k :
  no_word lead = true -> forallb well_formed l = true ->
  dict_lookup (extract_all_bib_fields (render lead l)) k
  = declared (filter has_value l) k.
Proof.
  intros Hlead Hl.
  rewrite extract_all_bib_fields_fold, bulk_findall, fold_store_lookup
    by assumption.
  destruct (declared (filter has_value l) k); reflexivity.
Qed.

Lemma filter_all {A : Type} (f : A -> bool) l :
  forallb f l = true -> filter f l = l.
Proof.
  induction l as [|a l IH]; simpl; [reflexivity|].
  intros H. apply andb_true_iff in H as [-> H]. rewrite IH by exact H.
  reflexivity.
Qed.

(** C4, as the code has it.  On a text of well-formed assignments
    [key = {value}], bulk extraction returns a mapping whose keys are
    exactly the keys of the assignments that have a value of at least one
    character, each once, and which gives every key the trimmed value of
    its last assignment with such a value.  An assignment [key = {}] is
    passed over. *)
Theorem bulk_extraction_recovers_fields (lead : str) (l : list assignment) :
  no_word lead = true ->
  forallb well_formed l = true ->
  let fields := extract_all_bib_fields (render lead l) in
  let valued := filter has_value l in
  (forall k, In k (map fst fields) <-> In k (map key valued))
  /\ NoDup (map fst fields)
  /\ (forall l1 a l2,
        valued = l1 ++ a :: l2 ->
        (forall b, In b l2 -> key b <> key a) ->
        dict_lookup fields (key a) = Some (strip (value a))).
Proof.
  intros Hlead Hl fields valued.
  assert (Hlook : forall k, dict_lookup fields k = declared valued k).
  { intros k. unfold fields.
    apply extract_all_bib_fields_render; assumption. }
  split; [|split].
  - intros k. rewrite dict_lookup_keys, Hlook. apply declared_keys.
  - unfold fields. rewrite extract_all_bib_fields_fold.
    apply fold_store_nodup. constructor.
  - intros l1 a l2 E Hl2. rewrite Hlook, E. apply declared_last, Hl2.
Qed.

Lemma bulk_extraction_recovers_fields_witness :
  let fields :=
    extract_all_bib_fields
      (txt "title = { Draft }," ++ newline ++ txt "note = {}," ++ newline
       ++ txt "author = {A. Author}," ++ newline
       ++ txt "title = {Final title }," ++ newline ++ txt "title = {},"
       ++ newline) in
  (forall k,
     In k (map fst fields) <-> In k [txt "title"; txt "author"; txt "title"])
  /\ NoDup (map fst fields)
  /\ dict_lookup fields (txt "title") = Some (txt "Final title").
Proof.
  destruct (bulk_extraction_recovers_fields []
              [field_line (txt "title") (txt " Draft ");
               sample_empty;
               field_line (txt "author") (txt "A. Author");
               field_line (txt "title") (txt "Final title ");
               field_line (txt "title") []]
              eq_refl eq_refl) as (Hk & Hn & Hv).
  split; [exact Hk|split; [exact Hn|]].
  exact (Hv [field_line (txt "title") (txt " Draft ");
             field_line (txt "author") (txt "A. Author")]
            (field_line (txt "title") (txt "Final title ")) []
            eq_refl (fun b (H : In b []) => match H with end)).
Defined.

(** C4 fails on an assignment without value.  The text below is made of
    well-formed assignments; it declares the key [note], which the mapping
    lacks, and the last assignment of [title] has the empty value, where
    the mapping keeps the value of the one before. *)
Lemma bulk_extraction_drops_empty_value :
  let l := [field_line (txt "title") (txt "T"); sample_empty;
            field_line (txt "title") []] in
  let fields := extract_all_bib_fields (render [] l) in
  render [] l
  = txt "title = {T}," ++ newline ++ txt "note = {}," ++ newline
    ++ txt "title = {}," ++ newline
  /\ forallb well_formed l = true
  /\ In (txt "note") (map key l)
  /\ ~ In (txt "note") (map fst fields)
  /\ declared l (txt "title") = Some []
  /\ dict_lookup fields (txt "title") = Some (txt "T").
Proof.
  repeat split.
  - simpl. auto.
  - vm_compute. intros [H|[]]. discriminate H.
Qed.

(** ** Field lookup on record texts *)

Lemma space_not_brace c : is_space c = true -> not_brace c = true.
Proof. each_char c. Qed.

Section Lookup.

Variable name : str.
Hypothesis name_not_empty : name <> [].
Hypothesis name_word : forallb is_word name = true.

Lemma bib_field_pattern_tail :
  bib_field_pattern name = lit 0 name ++ assign_tail 1.
Proof. reflexivity. Qed.

Lemma field_inv s m rest :
  match_here (bib_field_pattern name) s = Some (m, rest) ->
  exists w1 w2 v,
    s = name ++ w1 ++ "="%char :: w2 ++ "{"%char :: v ++ "}"%char :: rest
    /\ forallb is_space w1 = true /\ forallb is_space w2 = true
    /\ forallb not_brace v = true /\ v <> [].
Proof.
  rewrite bib_field_pattern_tail. intros H.
  apply match_lits_inv in H as (s1 & m1 & -> & H & _).
  apply tail_inv in H as (w1 & w2 & v & -> & Hw1 & Hw2 & Hv & Hne).
  exists w1, w2, v. repeat split; auto.
Qed.

Lemma field_run a rest :
  well_formed a = true -> has_value a = true ->
  match_here (bib_field_pattern name) (name ++ after_key a rest)
  = Some (field_match name a, rest).
Proof.
  intros Hwf Hv. apply well_formed_parts in Hwf as (_ & _ & Hl & Hr & Hb & _).
  apply has_value_spec in Hv.
  rewrite bib_field_pattern_tail, match_lits, tail_run by assumption.
  reflexivity.
Qed.

Lemma field_stops s :
  stops is_word s -> match_here (bib_field_pattern name) s = None.
Proof.
  intros Hs.
  destruct (match_here (bib_field_pattern name) s) as [[m r]|] eqn:E;
    [exfalso|reflexivity].
  apply field_inv in E as (w1 & w2 & v & -> & _).
  destruct name as [|c n]; [congruence|].
  simpl in Hs, name_word. rewrite Hs in name_word. discriminate.
Qed.

Lemma field_skip_no_word u s :
  no_word u = true ->
  search (bib_field_pattern name) (u ++ s) = search (bib_field_pattern name) s.
Proof.
  induction u as [|c u IH]; intros H; [reflexivity|].
  simpl in H. apply andb_true_iff in H as [Hc Hu].
  change ((c :: u) ++ s) with (c :: u ++ s).
  rewrite search_step; [apply IH, Hu|].
  apply field_stops. simpl. destruct (is_word c); [discriminate|reflexivity].
Qed.

Lemma field_at_key a k2 rest m r :
  well_formed a = true -> forallb is_word k2 = true ->
  match_here (bib_field_pattern name) (k2 ++ after_key a rest) = Some (m, r) ->
  k2 = name /\ value a <> [].
Proof.
  intros Hwf Hk2 H.
  apply well_formed_parts in Hwf as (_ & _ & Hl & Hr & Hb & _).
  apply field_inv in H as (w1 & w2 & v & E & Hw1 & Hw2 & Hv & Hne).
  apply shape_at_key in E as (-> & -> & _); auto.
Qed.

Lemma field_in_value v2 rest :
  forallb not_brace v2 = true ->
  match_here (bib_field_pattern name) (v2 ++ "}"%char :: rest) = None.
Proof.
  intros Hv2.
  destruct (match_here (bib_field_pattern name) (v2 ++ "}"%char :: rest))
    as [[m r]|] eqn:E; [exfalso|reflexivity].
  apply field_inv in E as (w1 & w2 & v & E & Hw1 & Hw2 & _).
  assert (Hpre : forallb not_brace (name ++ w1 ++ "="%char :: w2) = true).
  { rewrite !forallb_app. simpl. rewrite !andb_true_iff. repeat split.
    - revert name_word. apply forallb_weaken, word_not_brace.
    - revert Hw1. apply forallb_weaken, space_not_brace.
    - revert Hw2. apply forallb_weaken, space_not_brace. }
  replace (name ++ w1 ++ "="%char :: w2 ++ "{"%char :: v ++ "}"%char :: r)
    with ((name ++ w1 ++ "="%char :: w2) ++ "{"%char :: v ++ "}"%char :: r)
    in E by (rewrite <- !app_assoc; simpl; reflexivity).
  apply (span_unique not_brace) in E as (_ & E & _);
    [discriminate E|assumption|assumption|reflexivity|reflexivity].
Qed.

Lemma field_skip_value v2 rest :
  forallb not_brace v2 = true ->
  search (bib_field_pattern name) (v2 ++ "}"%char :: rest)
  = search (bib_field_pattern name) ("}"%char :: rest).
Proof.
  induction v2 as [|c v2 IH]; intros H; [reflexivity|].
  change ((c :: v2) ++ "}"%char :: rest) with (c :: v2 ++ "}"%char :: rest).
  rewrite search_step.
  - apply IH. simpl in H. apply andb_true_iff in H as [_ H]. exact H.
  - apply (field_in_value (c :: v2) rest H).
Qed.

Lemma field_skip_key a k2 rest :
  well_formed a = true -> forallb is_word k2 = true ->
  has_value a && endswith k2 name = false ->
  search (bib_field_pattern name) (k2 ++ after_key a rest)
  = search (bib_field_pattern name) (after_key a rest).
Proof.
  intros Hwf. induction k2 as [|c k2 IH]; intros Hk2 Hno; [reflexivity|].
  change ((c :: k2) ++ after_key a rest) with (c :: k2 ++ after_key a rest).
  simpl in Hk2. apply andb_true_iff in Hk2 as [Hc Hk2].
  rewrite search_step.
  - apply IH; [exact Hk2|].
    rewrite endswith_cons in Hno.
    destruct (has_value a); [|reflexivity].
    rewrite andb_true_l in *.
    apply orb_false_iff in Hno as [_ Hno]. exact Hno.
  - destruct (match_here (bib_field_pattern name) (c :: k2 ++ after_key a rest))
      as [[m r]|] eqn:E; [exfalso|reflexivity].
    apply (field_at_key a (c :: k2)) in E as [E Hv];
      [|exact Hwf|simpl; rewrite Hc, Hk2; reflexivity].
    apply has_value_spec in Hv.
    rewrite Hv, andb_true_l, endswith_cons, E, str_eqb_refl in Hno.
    discriminate.
Qed.

Lemma field_skip_after a s :
  well_formed a = true ->
  search (bib_field_pattern name) (after_key a (separator a ++ s))
  = search (bib_field_pattern name) s.
Proof.
  intros Hwf.
  apply well_formed_parts in Hwf as (_ & _ & Hl & Hr & Hb & Hs).
  unfold after_key.
  replace (pad_left a ++ "="%char :: pad_right a ++ "{"%char :: value a
           ++ "}"%char :: separator a ++ s)
    with ((pad_left a ++ "="%char :: pad_right a ++ ["{"%char])
          ++ value a ++ "}"%char :: separator a ++ s)
    by (rewrite <- !app_assoc; simpl; rewrite <- !app_assoc; reflexivity).
  rewrite field_skip_no_word.
  - rewrite field_skip_value by exact Hb.
    apply (field_skip_no_word ("}"%char :: separator a)).
    simpl. exact Hs.
  - unfold no_word in *. rewrite forallb_app. simpl. rewrite forallb_app.
    fold (no_word (pad_left a)). fold (no_word (pad_right a)).
    rewrite (spaces_no_word _ Hl), (spaces_no_word _ Hr). reflexivity.
Qed.

Lemma field_skip_assignment a s :
  well_formed a = true -> matches_field name a = false ->
  search (bib_field_pattern name) (render_assignment a ++ s)
  = search (bib_field_pattern name) s.
Proof.
  intros Hwf Hno.
  pose proof (well_formed_parts a Hwf) as (_ & Hw & _).
  rewrite render_assignment_app, field_skip_key by assumption.
  apply field_skip_after, Hwf.
Qed.

Lemma field_skip_to_name a k1 rest :
  well_formed a = true -> forallb is_word k1 = true ->
  search (bib_field_pattern name) (k1 ++ name ++ after_key a rest)
  = search (bib_field_pattern name) (name ++ after_key a rest).
Proof.
  intros Hwf. induction k1 as [|c k1 IH]; intros Hk1; [reflexivity|].
  simpl in Hk1. apply andb_true_iff in Hk1 as [Hc Hk1].
  change ((c :: k1) ++ name ++ after_key a rest)
    with (c :: k1 ++ name ++ after_key a rest).
  rewrite search_step; [apply IH, Hk1|].
  destruct (match_here (bib_field_pattern name)
              (c :: k1 ++ name ++ after_key a rest)) as [[m r]|] eqn:E;
    [exfalso|reflexivity].
  replace (c :: k1 ++ name ++ after_key a rest)
    with ((c :: k1 ++ name) ++ after_key a rest) in E
    by (simpl; rewrite <- app_assoc; reflexivity).
  apply field_at_key in E as [E _]; [|exact Hwf|].
  - apply (f_equal (@List.length ascii)) in E.
    simpl in E. rewrite length_app in E. lia.
  - simpl. rewrite Hc, forallb_app, Hk1, name_word. reflexivity.
Qed.

Lemma field_hit_assignment a s :
  well_formed a = true -> matches_field name a = true ->
  search (bib_field_pattern name) (render_assignment a ++ s)
  = Some (field_match name a, separator a ++ s).
Proof.
  intros Hwf Hyes. unfold matches_field in Hyes.
  apply andb_true_iff in Hyes as [Hv He].
  apply endswith_spec in He as [k1 Ek].
  pose proof (well_formed_parts a Hwf) as (_ & Hw & _).
  rewrite render_assignment_app, Ek, <- app_assoc.
  rewrite Ek, forallb_app in Hw. apply andb_true_iff in Hw as [Hk1 _].
  rewrite field_skip_to_name by assumption.
  apply search_hit, field_run; assumption.
Qed.

Lemma field_findall_all l :
  forallb well_formed l = true ->
  findall (bib_field_pattern name) (render_all l)
  = map (field_match name) (filter (matches_field name) l).
Proof.
  induction l as [|a l IH]; intros Hl.
  - apply findall_none. simpl. rewrite (field_stops [] I). reflexivity.
  - simpl in Hl. apply andb_true_iff in Hl as [Ha Hl].
    rewrite render_all_cons. simpl filter.
    pose proof (well_formed_parts a Ha) as (_ & _ & _ & _ & _ & Hs).
    destruct (matches_field name a) eqn:Hm.
    + assert (Em : exists x m, field_match name a = x :: m).
      { unfold field_match. destruct name as [|c n]; [congruence|].
        simpl. eauto. }
      destruct Em as (x & m & Em).
      rewrite (findall_some (bib_field_pattern name) _ x m
                 (separator a ++ render_all l)).
      * rewrite <- Em. simpl map. f_equal.
        rewrite findall_skip; [apply IH, Hl|].
        apply field_skip_no_word, Hs.
      * rewrite <- Em. apply field_hit_assignment; assumption.
    + rewrite findall_skip; [apply IH, Hl|].
      apply field_skip_assignment; assumption.
Qed.

Lemma group_field_match a : group 1 (field_match name a) = value a.
Proof.
  unfold field_match.
  rewrite group_app, group_tagged, group_tail_match by lia.
  reflexivity.
Qed.

(** [extract_bib_field] on a record text: the trimmed value of the last
    assignment that has a value and whose key ends with the name. *)
Lemma extract_bib_field_render lead l :
  no_word lead = true -> forallb well_formed l = true ->
  extract_bib_field (render lead l) name
  = match last_match (map value (filter (matches_field name) l)) with
    | Some v => Some (strip v)
    | None => None
    end.
Proof.
  intros Hlead Hl. unfold extract_bib_field, render.
  rewrite findall_skip by (apply field_skip_no_word, Hlead).
  rewrite field_findall_all by exact Hl.
  rewrite map_map.
  rewrite (map_ext _ value group_field_match). reflexivity.
Qed.

End Lookup.

(** ** Matches on any text *)

Lemma bulk_value_not_empty text m :
  In m (findall all_fields_pattern text) -> group 2 m <> [].
Proof.
  intros Hin. apply findall_sound in Hin as (s & rest & H).
  change all_fields_pattern with ((1, Plus is_word) :: assign_tail 2) in H.
  apply match_plus_inv in H as (kw & s1 & m1 & _ & _ & _ & H & ->).
  rewrite group_app, group_tagged. simpl.
  apply (tail_group 2 s1 m1 rest); [lia|exact H].
Qed.

Lemma field_value_not_empty name text m :
  In m (findall (bib_field_pattern name) text) -> group 1 m <> [].
Proof.
  intros Hin. apply findall_sound in Hin as (s & rest & H).
  change (bib_field_pattern name) with (lit 0 name ++ assign_tail 1) in H.
  apply match_lits_inv in H as (s1 & m1 & _ & H & ->).
  rewrite group_app, group_tagged. simpl.
  apply (tail_group 1 s1 m1 rest); [lia|exact H].
Qed.

(** ** Assignments without value *)

Lemma filter_without {A : Type} (f : A -> bool) l1 a l2 :
  f a = false -> filter f (l1 ++ a :: l2) = filter f (l1 ++ l2).
Proof.
  intros Ha. rewrite !filter_app. simpl. rewrite Ha. reflexivity.
Qed.

Lemma filter_none {A : Type} (f : A -> bool) l :
  (forall b, In b l -> f b = false) -> filter f l = [].
Proof.
  induction l as [|b l IH]; intros H; [reflexivity|].
  simpl. rewrite (H b (or_introl eq_refl)).
  apply IH. intros c Hc. apply H. right; exact Hc.
Qed.

Lemma forallb_without {A : Type} (f : A -> bool) l1 a l2 :
  forallb f (l1 ++ a :: l2) = true ->
  f a = true /\ forallb f (l1 ++ l2) = true.
Proof.
  rewrite !forallb_app. simpl. rewrite !andb_true_iff. tauto.
Qed.

Lemma extract_all_bib_fields_matches lead l :
  no_word lead = true -> forallb well_formed l = true ->
  extract_all_bib_fields (render lead l)
  = fold_left store_field (map bulk_match (filter has_value l)) [].
Proof.
  intros Hlead Hl.
  rewrite extract_all_bib_fields_fold, bulk_findall by assumption.
  reflexivity.
Qed.

(** C10.  In a text of well-formed assignments, an assignment with the
    empty value [key = {}] counts for nothing: bulk extraction and the
    lookup of any field name give what they give on the text without that
    assignment.  So the mapping has no entry for its key unless another
    assignment declares the key, and the lookup answers absent unless
    another assignment matches the name.  The reason holds on every text:
    no match of either pattern has an empty value, since the patterns ask
    for at least one character between the braces. *)
Theorem empty_value_is_skipped (lead : str) (l1 : list assignment)
    (a : assignment) (l2 : list assignment) (name : str) :
  no_word lead = true ->
  forallb well_formed (l1 ++ a :: l2) = true ->
  value a = [] ->
  name <> [] ->
  forallb is_word name = true ->
  extract_all_bib_fields (render lead (l1 ++ a :: l2))
  = extract_all_bib_fields (render lead (l1 ++ l2))
  /\ extract_bib_field (render lead (l1 ++ a :: l2)) name
     = extract_bib_field (render lead (l1 ++ l2)) name
  /\ ((forall b, In b (l1 ++ l2) -> key b <> key a) ->
      dict_lookup (extract_all_bib_fields (render lead (l1 ++ a :: l2)))
        (key a) = None)
  /\ ((forall b, In b (l1 ++ l2) -> endswith (key b) name = false) ->
      extract_bib_field (render lead (l1 ++ a :: l2)) name = None)
  /\ (forall text m,
        In m (findall all_fields_pattern text) -> group 2 m <> [])
  /\ (forall text m,
        In m (findall (bib_field_pattern name) text) -> group 1 m <> []).
Proof.
  intros Hlead Hl Hv Hne Hw.
  destruct (forallb_without well_formed l1 a l2 Hl) as [Ha Hl'].
  assert (Hhv : has_value a = false).
  { unfold has_value. rewrite Hv. reflexivity. }
  assert (Hmf : matches_field name a = false).
  { unfold matches_field. rewrite Hhv. reflexivity. }
  assert (Eall : extract_all_bib_fields (render lead (l1 ++ a :: l2))
                 = extract_all_bib_fields (render lead (l1 ++ l2))).
  { rewrite !extract_all_bib_fields_matches by assumption.
    rewrite (filter_without has_value l1 a l2 Hhv). reflexivity. }
  assert (Eone : extract_bib_field (render lead (l1 ++ a :: l2)) name
                 = extract_bib_field (render lead (l1 ++ l2)) name).
  { rewrite !extract_bib_field_render by assumption.
    rewrite (filter_without (matches_field name) l1 a l2 Hmf). reflexivity. }
  repeat split.
  - exact Eall.
  - exact Eone.
  - intros Hother. rewrite Eall.
    rewrite extract_all_bib_fields_render by assumption.
    destruct (declared (filter has_value (l1 ++ l2)) (key a)) eqn:E;
      [exfalso|reflexivity].
    assert (Hin : In (key a) (map key (filter has_value (l1 ++ l2)))).
    { apply declared_keys. congruence. }
    apply in_map_iff in Hin as (b & Hb & Hin).
    apply filter_In in Hin as [Hin _]. exact (Hother b Hin Hb).
  - intros Hother. rewrite Eone.
    rewrite extract_bib_field_render by assumption.
    rewrite (filter_none (matches_field name) (l1 ++ l2)); [reflexivity|].
    intros b Hb. unfold matches_field.
    rewrite (Hother b Hb). apply andb_false_r.
  - exact bulk_value_not_empty.
  - exact (field_value_not_empty name).
Qed.

Lemma empty_value_is_skipped_witness :
  let with_note :=
    txt "title = {T}," ++ newline ++ txt "note = {}," ++ newline in
  let without_note := txt "title = {T}," ++ newline in
  extract_all_bib_fields with_note = extract_all_bib_fields without_note
  /\ extract_bib_field with_note (txt "note")
     = extract_bib_field without_note (txt "note")
  /\ dict_lookup (extract_all_bib_fields with_note) (txt "note") = None
  /\ extract_bib_field with_note (txt "note") = None.
Proof.
  destruct (empty_value_is_skipped [] [field_line (txt "title") (txt "T")]
              sample_empty [] (txt "note")
              eq_refl eq_refl eq_refl
              (fun H : txt "note" = [] => eq_ind (txt "note")
                 (fun s => match s with [] => False | _ :: _ => True end)
                 I [] H)
              eq_refl) as (H1 & H2 & H3 & H4 & _).
  split; [exact H1|split; [exact H2|split]].
  - apply H3. intros b Hb. simpl in Hb. destruct Hb as [<-|[]].
    vm_compute. discriminate.
  - apply H4. intros b Hb. simpl in Hb. destruct Hb as [<-|[]].
    reflexivity.
Defined.

(** * Further properties of the code *)

(** ** The download *)

(** X1.  [download_pdf] opens the file before it reads the body of the
    response: when the read raises, the file has been opened for writing
    and is closed again with nothing written to it, and the exception of
    the read (or, when closing raises too, that of the close) reaches the
    caller. *)
Theorem download_pdf_opens_before_reading (R : Runtime) (url file_path : str)
    (w : world R) (r : response R) (w1 w2 : world R) (e : exn)
    (w3 : world R) (closed : result unit) (w4 : world R) :
  session_get R url [] w = (Ok r, w1) ->
  aio_open R file_path (txt "wb") w1 = (Ok tt, w2) ->
  response_read R r w2 = (Raise e, w3) ->
  file_close R file_path w3 = (closed, w4) ->
  download_pdf R url file_path w
  = (match closed with Ok _ => Raise e | Raise e' => Raise e' end,
     [Get url []; Open file_path (txt "wb"); Close file_path], w4).
Proof.
  intros H1 H2 H3 H4.
  unfold download_pdf, with_open, finally, bind, call, io.
  rewrite H1, H2, H3, H4. destruct closed; reflexivity.
Qed.

Lemma download_pdf_opens_before_reading_witness :
  download_pdf
    (faulty_runtime sample_site (fun _ => [])
       (fun _ => Raise (txt "Connection reset")) (fun _ => Ok tt))
    (txt "https://x/doc.pdf") (txt "D:/ds/2021/pdf/B_A.pdf") tt
  = (Raise (txt "Connection reset"),
     [Get (txt "https://x/doc.pdf") [];
      Open (txt "D:/ds/2021/pdf/B_A.pdf") (txt "wb");
      Close (txt "D:/ds/2021/pdf/B_A.pdf")],
     tt).
Proof.
  exact (download_pdf_opens_before_reading
           (faulty_runtime sample_site (fun _ => [])
              (fun _ => Raise (txt "Connection reset")) (fun _ => Ok tt))
           (txt "https://x/doc.pdf") (txt "D:/ds/2021/pdf/B_A.pdf") tt
           (200, txt "%PDF-1.4") tt tt (txt "Connection reset") tt (Ok tt) tt
           eq_refl eq_refl eq_refl eq_refl).
Defined.

(** X2.  The GET of [download_pdf] carries no header, and what it writes is
    the body of the response as read, whatever the status of the response:
    one write, between the opening and the closing of the file. *)
Theorem download_pdf_writes_body (R : Runtime) (url file_path : str)
    (w : world R) (r : response R) (w1 w2 : world R) (data : str)
    (w3 w4 w5 : world R) :
  session_get R url [] w = (Ok r, w1) ->
  aio_open R file_path (txt "wb") w1 = (Ok tt, w2) ->
  response_read R r w2 = (Ok data, w3) ->
  file_write R file_path (Bytes data) w3 = (Ok tt, w4) ->
  file_close R file_path w4 = (Ok tt, w5) ->
  download_pdf R url file_path w
  = (Ok tt,
     [Get url []; Open file_path (txt "wb"); Write file_path (Bytes data);
      Close file_path],
     w5).
Proof.
  intros H1 H2 H3 H4 H5.
  unfold download_pdf, with_open, finally, bind, call, io.
  rewrite H1, H2, H3, H4, H5. reflexivity.
Qed.

Lemma download_pdf_writes_body_witness :
  let R := sample_runtime
             [(txt "https://x/gone.pdf", (404, txt "Not Found"))]
             (fun _ => []) in
  response_status R (404, txt "Not Found") = 404
  /\ download_pdf R (txt "https://x/gone.pdf") (txt "D:/ds/2021/pdf/B_A.pdf") tt
     = (Ok tt,
        [Get (txt "https://x/gone.pdf") [];
         Open (txt "D:/ds/2021/pdf/B_A.pdf") (txt "wb");
         Write (txt "D:/ds/2021/pdf/B_A.pdf") (Bytes (txt "Not Found"));
         Close (txt "D:/ds/2021/pdf/B_A.pdf")],
        tt).
Proof.
  split; [reflexivity|].
  exact (download_pdf_writes_body
           (sample_runtime
              [(txt "https://x/gone.pdf", (404, txt "Not Found"))]
              (fun _ => []))
           (txt "https://x/gone.pdf") (txt "D:/ds/2021/pdf/B_A.pdf") tt
           (404, txt "Not Found") tt tt (txt "Not Found") tt tt tt
           eq_refl eq_refl eq_refl eq_refl eq_refl).
Defined.

(** ** The order of the steps of [process_bib_and_pdf] *)

Ltac run_all :=
  repeat
    match goal with
    | |- context [match ?f ?w with (_, _) => _ end] =>
        let r := fresh "r" in
        let e := fresh "e" in
        let w' := fresh "w" in
        destruct (f w) as [[r|e] w']; cbn iota beta
    end.

Ltac unfold_stage :=
  cbv beta iota zeta delta
    [process_bib_and_pdf download_pdf with_open finally try_except
     bind fetch call io print ret].

(** The cases of a run of [process_bib_and_pdf]: the outcome of each call of
    the runtime, in turn. *)
Ltac stage_cases R bib_url w :=
  unfold_stage;
  destruct (session_get R bib_url [(txt "User-Agent", nth 0 USER_AGENTS [])] w)
    as [[?r|?e] ?w];
  [match goal with
   | |- context [response_text R ?r ?w1] =>
       destruct (response_text R r w1) as [[?body|?e] ?w];
       [match goal with
        | |- context [extract_pdf_url ?b] =>
            destruct (extract_pdf_url b) as [[|?c ?u]|]
        end|]
   end|];
  run_all.

(** Where an event stands in an explicit list of events. *)
Ltac locate H :=
  cbn [app events fst snd] in H;
  match type of H with
  | _ = ?pre ++ _ :: _ =>
      destruct pre as [|? pre]; cbn [app] in H;
      [first [discriminate H | injection H; intros; subst]
      |first [discriminate H | injection H as ? H; subst; locate H]]
  end.

(** X3.  In every run of [process_bib_and_pdf], both folders have been made
    before a file is opened: the [pdf] folder and the [json_<folder_name>]
    folder. *)
Theorem folders_made_before_files (R : Runtime)
    (bib_url folder_path folder_name : str) (w : world R)
    (pre : list event) (path mode : str) (post : list event) :
  events (process_bib_and_pdf R bib_url folder_path folder_name w)
  = pre ++ Open path mode :: post ->
  In (MakeDirs (path_join R folder_path (txt "pdf"))) pre
  /\ In (MakeDirs (path_join R folder_path (txt "json_" ++ folder_name))) pre.
Proof.
  stage_cases R bib_url w; intros H; locate H; simpl; auto 10.
Qed.

Lemma folders_made_before_files_witness :
  In (MakeDirs (txt "D:/ds/2021/pdf"))
     [Get sample_bib_url fetch_headers;
      MakeDirs (txt "D:/ds/2021/pdf"); MakeDirs (txt "D:/ds/2021/json_2021");
      Get (txt "https://x/doc.pdf") []]
  /\ In (MakeDirs (txt "D:/ds/2021/json_2021"))
       [Get sample_bib_url fetch_headers;
        MakeDirs (txt "D:/ds/2021/pdf"); MakeDirs (txt "D:/ds/2021/json_2021");
        Get (txt "https://x/doc.pdf") []].
Proof.
  exact (folders_made_before_files
           (sample_runtime sample_site (fun _ => []))
           sample_bib_url (txt "D:/ds/2021") (txt "2021") tt
           [Get sample_bib_url fetch_headers;
            MakeDirs (txt "D:/ds/2021/pdf");
            MakeDirs (txt "D:/ds/2021/json_2021");
            Get (txt "https://x/doc.pdf") []]
           (txt "D:/ds/2021/pdf/B_A.pdf") (txt "wb")
           [Write (txt "D:/ds/2021/pdf/B_A.pdf") (Bytes (txt "%PDF-1.4"));
            Close (txt "D:/ds/2021/pdf/B_A.pdf");
            Print (txt "Downloaded PDF: D:/ds/2021/pdf/B_A.pdf");
            Open (txt "D:/ds/2021/json_2021/T.json") (txt "w");
            Write (txt "D:/ds/2021/json_2021/T.json")
              (Text (txt "title: T; author: A; booktitle: B; url: https://x/doc.pdf; "));
            Close (txt "D:/ds/2021/json_2021/T.json");
            Print (txt "Saved JSON: D:/ds/2021/json_2021/T.json")]
           eq_refl).
Defined.

(** X4.  In every run of [process_bib_and_pdf], the JSON file is opened
    only after the download is over: the PDF file has been closed and the
    line [Downloaded PDF] printed.  A failed download leaves no JSON. *)
Theorem json_opened_after_download (R : Runtime)
    (bib_url folder_path folder_name : str) (w : world R)
    (pre : list event) (path : str) (post : list event) :
  events (process_bib_and_pdf R bib_url folder_path folder_name w)
  = pre ++ Open path (txt "w") :: post ->
  exists pdf_file_path,
    In (Close pdf_file_path) pre
    /\ In (Print (txt "Downloaded PDF: " ++ pdf_file_path)) pre.
Proof.
  stage_cases R bib_url w; intros H; locate H;
    try match goal with
        | Hm : txt "wb" = txt "w" |- _ => vm_compute in Hm; discriminate Hm
        end;
    eexists; simpl; split; auto 10.
Qed.

Lemma json_opened_after_download_witness :
  exists pdf_file_path,
    In (Close pdf_file_path)
       [Get sample_bib_url fetch_headers;
        MakeDirs (txt "D:/ds/2021/pdf"); MakeDirs (txt "D:/ds/2021/json_2021");
        Get (txt "https://x/doc.pdf") [];
        Open (txt "D:/ds/2021/pdf/B_A.pdf") (txt "wb");
        Write (txt "D:/ds/2021/pdf/B_A.pdf") (Bytes (txt "%PDF-1.4"));
        Close (txt "D:/ds/2021/pdf/B_A.pdf");
        Print (txt "Downloaded PDF: D:/ds/2021/pdf/B_A.pdf")]
    /\ In (Print (txt "Downloaded PDF: " ++ pdf_file_path))
         [Get sample_bib_url fetch_headers;
          MakeDirs (txt "D:/ds/2021/pdf");
          MakeDirs (txt "D:/ds/2021/json_2021");
          Get (txt "https://x/doc.pdf") [];
          Open (txt "D:/ds/2021/pdf/B_A.pdf") (txt "wb");
          Write (txt "D:/ds/2021/pdf/B_A.pdf") (Bytes (txt "%PDF-1.4"));
          Close (txt "D:/ds/2021/pdf/B_A.pdf");
          Print (txt "Downloaded PDF: D:/ds/2021/pdf/B_A.pdf")].
Proof.
  exact (json_opened_after_download
           (sample_runtime sample_site (fun _ => []))
           sample_bib_url (txt "D:/ds/2021") (txt "2021") tt
           [Get sample_bib_url fetch_headers;
            MakeDirs (txt "D:/ds/2021/pdf");
            MakeDirs (txt "D:/ds/2021/json_2021");
            Get (txt "https://x/doc.pdf") [];
            Open (txt "D:/ds/2021/pdf/B_A.pdf") (txt "wb");
            Write (txt "D:/ds/2021/pdf/B_A.pdf") (Bytes (txt "%PDF-1.4"));
            Close (txt "D:/ds/2021/pdf/B_A.pdf");
            Print (txt "Downloaded PDF: D:/ds/2021/pdf/B_A.pdf")]
           (txt "D:/ds/2021/json_2021/T.json")
           [Write (txt "D:/ds/2021/json_2021/T.json")
              (Text (txt "title: T; author: A; booktitle: B; url: https://x/doc.pdf; "));
            Close (txt "D:/ds/2021/json_2021/T.json");
            Print (txt "Saved JSON: D:/ds/2021/json_2021/T.json")]
           eq_refl).
Defined.

(** X5.  The lines a run of [process_bib_and_pdf] hands to [print] are one
    of five things: nothing; one error line; the line [Downloaded PDF] and
    then an error line (the PDF stays without its JSON); the lines
    [Downloaded PDF] and [Saved JSON]; or these two and then an error line,
    when the [print] of [Saved JSON] raised.  An error line is always the
    last line, and it names the bibliography URL. *)
Theorem lines_of_process_bib_and_pdf (R : Runtime)
    (bib_url folder_path folder_name : str) (w : world R) :
  exists pdf_file_path json_file_path e,
    let lines :=
      printed
        (events (process_bib_and_pdf R bib_url folder_path folder_name w)) in
    let error :=
      txt "Error processing bib and PDF: " ++ bib_url ++ txt " | " ++ e in
    lines = []
    \/ lines = [error]
    \/ lines = [txt "Downloaded PDF: " ++ pdf_file_path; error]
    \/ lines = [txt "Downloaded PDF: " ++ pdf_file_path;
                txt "Saved JSON: " ++ json_file_path]
    \/ lines = [txt "Downloaded PDF: " ++ pdf_file_path;
                txt "Saved JSON: " ++ json_file_path; error].
Proof.
  stage_cases R bib_url w;
    eexists _, _, _; cbn [printed events flat_map fst snd app];
    first [left; reflexivity
          |right; left; reflexivity
          |right; right; left; reflexivity
          |right; right; right; left; reflexivity
          |right; right; right; right; reflexivity].
  Unshelve. all: exact [].
Qed.

(** The fifth case, on a console that rejects the line [Saved JSON]: both
    files are on disk, and the run ends with an error line. *)
Lemma lines_when_saved_json_is_rejected :
  let console := fun line =>
        if startswith line (txt "Saved JSON")
        then Raise (txt "[Errno 32] Broken pipe")
        else Ok tt in
  let R := with_console (sample_runtime sample_site (fun _ => [])) console in
  let run :=
    process_bib_and_pdf R sample_bib_url (txt "D:/ds/2021") (txt "2021") tt in
  outcome run = Ok tt
  /\ printed (events run)
     = [txt "Downloaded PDF: D:/ds/2021/pdf/B_A.pdf";
        txt "Saved JSON: D:/ds/2021/json_2021/T.json";
        txt "Error processing bib and PDF: " ++ sample_bib_url
        ++ txt " | [Errno 32] Broken pipe"].
Proof. split; vm_compute; reflexivity. Qed.

(** ** The abstract page *)

Lemma process_bib_and_pdf_ok (R : Runtime) bib_url folder_path folder_name w :
  print_succeeds R ->
  outcome (process_bib_and_pdf R bib_url folder_path folder_name w) = Ok tt.
Proof. apply try_print_outcome. Qed.

Section Abstract.

Variable R : Runtime.
Variables url folder_path folder_name : str.
Variable w : world R.
Variable r : response R.
Variable w1 : world R.
Variable html : str.
Variable w2 : world R.
Hypothesis got : session_get R url fetch_headers w = (Ok r, w1).
Hypothesis read : response_text R r w1 = (Ok html, w2).

Local Abbreviation error :=
  (fun e => txt "Error processing abstract: " ++ url ++ txt " | " ++ e).

Lemma process_abstract_run :
  process_abstract R url folder_path folder_name w
  = match bs_select R html (txt "a.btn.btn-light.btn-spacer") with
    | Ok [] => (Ok tt, [Get url fetch_headers], w2)
    | Ok (pdf_link :: _) =>
        match tag_attr R pdf_link (txt "href") with
        | Some href =>
            match process_bib_and_pdf R (BASE_URL ++ href)
                    folder_path folder_name w2 with
            | (Ok _, t, w3) => (Ok tt, Get url fetch_headers :: t, w3)
            | (Raise e, t, w3) =>
                match builtin_print R (error e) w3 with
                | (res, w4) =>
                    (res, Get url fetch_headers :: t ++ [Print (error e)], w4)
                end
            end
        | None =>
            match builtin_print R (error (txt "'href'")) w2 with
            | (res, w3) =>
                (res,
                 [Get url fetch_headers; Print (error (txt "'href'"))], w3)
            end
        end
    | Raise e =>
        match builtin_print R (error e) w2 with
        | (res, w3) => (res, [Get url fetch_headers; Print (error e)], w3)
        end
    end.
Proof.
  unfold process_abstract, try_except. unfold bind at 1.
  rewrite (fetch_body R url w r w1 html w2 got read).
  unfold bind at 1, pure.
  destruct (bs_select R html (txt "a.btn.btn-light.btn-spacer"))
    as [[|pdf_link others]|e].
  - reflexivity.
  - unfold getitem.
    destruct (tag_attr R pdf_link (txt "href")) as [href|].
    + rewrite bind_ret_run.
      destruct (process_bib_and_pdf R (BASE_URL ++ href)
                  folder_path folder_name w2) as [[[[]|e] t] w3];
        [reflexivity|].
      unfold print, call.
      destruct (builtin_print R (error e) w3) as [res w4]. reflexivity.
    + unfold bind, raise, print, call.
      change (txt "'" ++ txt "href" ++ txt "'") with (txt "'href'").
      destruct (builtin_print R (error (txt "'href'")) w2) as [res w3].
      reflexivity.
  - unfold print, call.
    destruct (builtin_print R (error e) w2) as [res w3]. reflexivity.
Qed.

End Abstract.

(** X6.  When no element of the abstract page matches the selector of the
    PDF button, [process_abstract] does nothing after the GET of the page:
    it fetches no bibliography and prints no line. *)
Theorem process_abstract_without_button (R : Runtime)
    (url folder_path folder_name : str) (w : world R)
    (r : response R) (w1 : world R) (html : str) (w2 : world R) :
  session_get R url fetch_headers w = (Ok r, w1) ->
  response_text R r w1 = (Ok html, w2) ->
  bs_select R html (txt "a.btn.btn-light.btn-spacer") = Ok [] ->
  process_abstract R url folder_path folder_name w
  = (Ok tt, [Get url fetch_headers], w2).
Proof.
  intros H1 H2 H3.
  rewrite (process_abstract_run R url folder_path folder_name
             w r w1 html w2 H1 H2), H3.
  reflexivity.
Qed.

Lemma process_abstract_without_button_witness :
  process_abstract (sample_runtime sample_abstract_site (fun _ => []))
    sample_abstract_url (txt "D:/ds/2021") (txt "2021") tt
  = (Ok tt, [Get sample_abstract_url fetch_headers], tt).
Proof.
  exact (process_abstract_without_button
           (sample_runtime sample_abstract_site (fun _ => []))
           sample_abstract_url (txt "D:/ds/2021") (txt "2021") tt
           (200, txt "<html>...</html>") tt (txt "<html>...</html>") tt
           eq_refl eq_refl eq_refl).
Defined.

(** X7.  When the selector finds elements, [process_abstract] takes the
    first one and runs [process_bib_and_pdf] on the base URL followed by
    its [href] as it stands (no slash is added or removed), with the same
    folder.  When that run returns, the events of the stage are the GET of
    the page and then those of the run; when it raises (the [print] of its
    handler raised), the stage hands its own error line to [print] and ends
    as that [print] ends. *)
Theorem process_abstract_follows_first_button (R : Runtime)
    (url folder_path folder_name : str) (w : world R)
    (r : response R) (w1 : world R) (html : str) (w2 : world R)
    (pdf_link : tag R) (others : list (tag R)) (href : str) :
  session_get R url fetch_headers w = (Ok r, w1) ->
  response_text R r w1 = (Ok html, w2) ->
  bs_select R html (txt "a.btn.btn-light.btn-spacer")
  = Ok (pdf_link :: others) ->
  tag_attr R pdf_link (txt "href") = Some href ->
  process_abstract R url folder_path folder_name w
  = match process_bib_and_pdf R (txt "https://papers.nips.cc/" ++ href)
            folder_path folder_name w2 with
    | (Ok _, t, w3) => (Ok tt, Get url fetch_headers :: t, w3)
    | (Raise e, t, w3) =>
        match builtin_print R
                (txt "Error processing abstract: " ++ url ++ txt " | " ++ e)
                w3 with
        | (res, w4) =>
            (res,
             Get url fetch_headers
             :: t ++ [Print (txt "Error processing abstract: " ++ url
                             ++ txt " | " ++ e)],
             w4)
        end
    end.
Proof.
  intros H1 H2 H3 H4.
  rewrite (process_abstract_run R url folder_path folder_name
             w r w1 html w2 H1 H2), H3, H4.
  reflexivity.
Qed.

Lemma process_abstract_follows_first_button_witness :
  process_abstract
    (button_runtime sample_abstract_site
       [Some (txt "/paper_files/paper/2021/file/abc-Bibtex.bib");
        Some (txt "/paper_files/paper/2021/file/abc-Paper.pdf")])
    sample_abstract_url (txt "D:/ds/2021") (txt "2021") tt
  = (Ok tt,
     [Get sample_abstract_url fetch_headers;
      Get (txt "https://papers.nips.cc//paper_files/paper/2021/file/abc-Bibtex.bib")
        fetch_headers;
      Print (txt "Error processing bib and PDF: "
             ++ txt "https://papers.nips.cc//paper_files/paper/2021/file/abc-Bibtex.bib"
             ++ txt " | Cannot connect to host")],
     tt).
Proof.
  exact (process_abstract_follows_first_button
           (button_runtime sample_abstract_site
              [Some (txt "/paper_files/paper/2021/file/abc-Bibtex.bib");
               Some (txt "/paper_files/paper/2021/file/abc-Paper.pdf")])
           sample_abstract_url (txt "D:/ds/2021") (txt "2021") tt
           (200, txt "<html>...</html>") tt (txt "<html>...</html>") tt
           (Some (txt "/paper_files/paper/2021/file/abc-Bibtex.bib"))
           [Some (txt "/paper_files/paper/2021/file/abc-Paper.pdf")]
           (txt "/paper_files/paper/2021/file/abc-Bibtex.bib")
           eq_refl eq_refl eq_refl eq_refl).
Defined.

(** X8.  When the first element found has no [href], or when parsing or
    selecting raises, [process_abstract] hands one error line to [print],
    with the URL of the page and the text of the exception (for the
    missing attribute: ['href']), fetches nothing more, and ends as that
    [print] ends: it returns when the console accepts the line and raises
    what [print] raises otherwise. *)
Theorem process_abstract_logs_bad_button (R : Runtime)
    (url folder_path folder_name : str) (w : world R)
    (r : response R) (w1 : world R) (html : str) (w2 : world R) :
  session_get R url fetch_headers w = (Ok r, w1) ->
  response_text R r w1 = (Ok html, w2) ->
  (forall pdf_link others res w3,
     bs_select R html (txt "a.btn.btn-light.btn-spacer")
     = Ok (pdf_link :: others) ->
     tag_attr R pdf_link (txt "href") = None ->
     builtin_print R
       (txt "Error processing abstract: " ++ url ++ txt " | 'href'") w2
     = (res, w3) ->
     process_abstract R url folder_path folder_name w
     = (res,
        [Get url fetch_headers;
         Print (txt "Error processing abstract: " ++ url
                ++ txt " | 'href'")],
        w3))
  /\ (forall e res w3,
        bs_select R html (txt "a.btn.btn-light.btn-spacer") = Raise e ->
        builtin_print R
          (txt "Error processing abstract: " ++ url ++ txt " | " ++ e) w2
        = (res, w3) ->
        process_abstract R url folder_path folder_name w
        = (res,
           [Get url fetch_headers;
            Print (txt "Error processing abstract: " ++ url
                   ++ txt " | " ++ e)],
           w3)).
Proof.
  intros H1 H2. split.
  - intros pdf_link others res w3 H3 H4 H5.
    rewrite (process_abstract_run R url folder_path folder_name
               w r w1 html w2 H1 H2), H3, H4.
    change (txt " | " ++ txt "'href'") with (txt " | 'href'").
    rewrite H5. reflexivity.
  - intros e res w3 H3 H5.
    rewrite (process_abstract_run R url folder_path folder_name
               w r w1 html w2 H1 H2), H3, H5.
    reflexivity.
Qed.

Lemma process_abstract_logs_bad_button_witness :
  let R := with_console (button_runtime sample_abstract_site [None])
             closed_pipe in
  process_abstract (button_runtime sample_abstract_site [None])
    sample_abstract_url (txt "D:/ds/2021") (txt "2021") tt
  = (Ok tt,
     [Get sample_abstract_url fetch_headers;
      Print (txt "Error processing abstract: " ++ sample_abstract_url
             ++ txt " | 'href'")],
     tt)
  /\ process_abstract R sample_abstract_url (txt "D:/ds/2021") (txt "2021") tt
     = (Raise (txt "[Errno 32] Broken pipe"),
        [Get sample_abstract_url fetch_headers;
         Print (txt "Error processing abstract: " ++ sample_abstract_url
                ++ txt " | 'href'")],
        tt).
Proof.
  split.
  - exact (proj1
             (process_abstract_logs_bad_button
                (button_runtime sample_abstract_site [None])
                sample_abstract_url (txt "D:/ds/2021") (txt "2021") tt
                (200, txt "<html>...</html>") tt (txt "<html>...</html>") tt
                eq_refl eq_refl)
             None [] (Ok tt) tt eq_refl eq_refl eq_refl).
  - exact (proj1
             (process_abstract_logs_bad_button
                (with_console (button_runtime sample_abstract_site [None])
                   closed_pipe)
                sample_abstract_url (txt "D:/ds/2021") (txt "2021") tt
                (200, txt "<html>...</html>") tt (txt "<html>...</html>") tt
                eq_refl eq_refl)
             None [] (Raise (txt "[Errno 32] Broken pipe")) tt
             eq_refl eq_refl eq_refl).
Defined.

(** ** The listing page *)

Section Listing.

Variable R : Runtime.

Lemma bind_ext {A B : Type} (m : M R A) (f g : A -> M R B) w :
  (forall a w', f a w' = g a w') -> bind m f w = bind m g w.
Proof.
  intros H. unfold bind.
  destruct (m w) as [[[a|e] t] w1]; [rewrite H|]; reflexivity.
Qed.

Lemma bind_assoc {A B C : Type} (m : M R A) (f : A -> M R B)
    (g : B -> M R C) w :
  bind (bind m f) g w = bind m (fun a => bind (f a) g) w.
Proof.
  unfold bind.
  destruct (m w) as [[[a|e] t] w1]; [|reflexivity].
  destruct (f a w1) as [[[b|e] t1] w2]; [|reflexivity].
  destruct (g b w2) as [[r2 t2] w3]. rewrite app_assoc. reflexivity.
Qed.

Lemma for_each_app {A : Type} (l1 l2 : list A) (body : A -> M R unit) w :
  for_each (l1 ++ l2) body w
  = bind (for_each l1 body) (fun _ => for_each l2 body) w.
Proof.
  revert w. induction l1 as [|a l1 IH]; intros w.
  - simpl. rewrite bind_ret_run. reflexivity.
  - change (for_each ((a :: l1) ++ l2) body)
      with (bind (body a) (fun _ => for_each (l1 ++ l2) body)).
    change (for_each (a :: l1) body)
      with (bind (body a) (fun _ => for_each l1 body)).
    rewrite bind_assoc. apply bind_ext. intros _ w'. apply IH.
Qed.

Variables folder_path folder_name : str.

Local Abbreviation visit := (visit_link R folder_path folder_name).
Local Abbreviation abstract_of := (abstract_of R folder_path folder_name).

Lemma paper_hrefs_cons t links href :
  tag_attr R t (txt "href") = Some href ->
  paper_hrefs R (t :: links)
  = if startswith href (txt "/paper_files/paper/")
    then href :: paper_hrefs R links
    else paper_hrefs R links.
Proof.
  intros E. unfold paper_hrefs, hrefs_of. cbn [flat_map]. rewrite E.
  reflexivity.
Qed.

Lemma visit_run t href w :
  tag_attr R t (txt "href") = Some href ->
  visit t w
  = (if startswith href (txt "/paper_files/paper/")
     then abstract_of href
     else ret R tt) w.
Proof.
  intros E. unfold visit_link, getitem. rewrite E.
  apply bind_ret_run.
Qed.

Lemma for_each_paper_hrefs links :
  (forall t, In t links -> tag_attr R t (txt "href") <> None) ->
  forall w,
    for_each links visit w = for_each (paper_hrefs R links) abstract_of w.
Proof.
  induction links as [|t links IH]; intros Hall w; [reflexivity|].
  assert (IH' : forall w', for_each links visit w'
                           = for_each (paper_hrefs R links) abstract_of w').
  { apply IH. intros t' Ht'. apply Hall. right; exact Ht'. }
  destruct (tag_attr R t (txt "href")) as [href|] eqn:E;
    [|exfalso; exact (Hall t (or_introl eq_refl) E)].
  rewrite (paper_hrefs_cons t links href E).
  change (for_each (t :: links) visit w)
    with (bind (visit t) (fun _ => for_each links visit) w).
  unfold bind at 1. rewrite (visit_run t href w E).
  destruct (startswith href (txt "/paper_files/paper/")).
  - change (for_each (href :: paper_hrefs R links) abstract_of w)
      with (bind (abstract_of href)
              (fun _ => for_each (paper_hrefs R links) abstract_of) w).
    unfold bind at 1.
    destruct (abstract_of href w) as [[[u|e] t1] w1]; [|reflexivity].
    rewrite IH'. reflexivity.
  - unfold ret. rewrite IH'.
    destruct (for_each (paper_hrefs R links) abstract_of w) as [[r2 t2] w2].
    reflexivity.
Qed.

Lemma for_each_abstracts_ok hrefs w :
  print_succeeds R ->
  outcome (for_each hrefs abstract_of w) = Ok tt.
Proof.
  intros Hp. apply for_each_ok. intros href w' _.
  apply (process_abstract_ok R (BASE_URL ++ href) folder_path folder_name).
  exact Hp.
Qed.

Lemma process_href_run url w r w1 html w2 links :
  session_get R url fetch_headers w = (Ok r, w1) ->
  response_text R r w1 = (Ok html, w2) ->
  bs_select R html (txt "li > a") = Ok links ->
  process_href R url folder_path folder_name w
  = match for_each links visit w2 with
    | (Ok _, t, w3) => (Ok tt, Get url fetch_headers :: t, w3)
    | (Raise e, t, w3) =>
        match builtin_print R
                (txt "Error processing href: " ++ url ++ txt " | " ++ e)
                w3 with
        | (res, w4) =>
            (res,
             Get url fetch_headers
             :: t ++ [Print (txt "Error processing href: " ++ url
                             ++ txt " | " ++ e)],
             w4)
        end
    end.
Proof.
  intros H1 H2 H3.
  unfold process_href, try_except. unfold bind at 1.
  rewrite (fetch_body R url w r w1 html w2 H1 H2).
  unfold bind at 1, pure. rewrite H3.
  match goal with
  | |- context [for_each links ?b w2] => change b with visit
  end.
  destruct (for_each links visit w2) as [[[[]|e] t] w3]; [reflexivity|].
  unfold print, call.
  destruct (builtin_print R
              (txt "Error processing href: " ++ url ++ txt " | " ++ e) w3)
    as [res w4].
  reflexivity.
Qed.

End Listing.

(** X9.  On a listing whose list-item anchors all have an [href],
    [process_href] runs [process_abstract] on the base URL followed by the
    [href], for the anchors whose [href] starts with [/paper_files/paper/],
    in document order and each with the folder of the listing; the other
    anchors are passed over without a trace.  When one of these runs raises
    (the [print] of its handler raised), the links after it are left out
    and the stage hands its own error line to [print].  On a console that
    accepts every line none raises: every paper link has its run, and the
    stage returns without an error line of its own. *)
Theorem process_href_follows_paper_links (R : Runtime)
    (url folder_path folder_name : str) (w : world R)
    (r : response R) (w1 : world R) (html : str) (w2 : world R)
    (links : list (tag R)) :
  session_get R url fetch_headers w = (Ok r, w1) ->
  response_text R r w1 = (Ok html, w2) ->
  bs_select R html (txt "li > a") = Ok links ->
  (forall t, In t links -> tag_attr R t (txt "href") <> None) ->
  process_href R url folder_path folder_name w
  = match for_each (paper_hrefs R links)
            (abstract_of R folder_path folder_name) w2 with
    | (Ok _, t, w3) => (Ok tt, Get url fetch_headers :: t, w3)
    | (Raise e, t, w3) =>
        match builtin_print R
                (txt "Error processing href: " ++ url ++ txt " | " ++ e)
                w3 with
        | (res, w4) =>
            (res,
             Get url fetch_headers
             :: t ++ [Print (txt "Error processing href: " ++ url
                             ++ txt " | " ++ e)],
             w4)
        end
    end
  /\ (print_succeeds R ->
      exists t w3,
        for_each (paper_hrefs R links)
          (abstract_of R folder_path folder_name) w2
        = (Ok tt, t, w3)
        /\ process_href R url folder_path folder_name w
           = (Ok tt, Get url fetch_headers :: t, w3)).
Proof.
  intros H1 H2 H3 Hall.
  rewrite (process_href_run R folder_path folder_name
             url w r w1 html w2 links H1 H2 H3).
  rewrite (for_each_paper_hrefs R folder_path folder_name links Hall).
  split; [reflexivity|].
  intros Hp.
  pose proof (for_each_abstracts_ok R folder_path folder_name
                (paper_hrefs R links) w2 Hp) as Hok.
  destruct (for_each (paper_hrefs R links)
              (abstract_of R folder_path folder_name) w2)
    as [[[[]|e] t] w3]; [|discriminate Hok].
  exists t, w3. split; reflexivity.
Qed.

Lemma process_href_follows_paper_links_witness :
  process_href (sample_runtime sample_listing_site sample_anchors)
    sample_listing_url (txt "D:/ds/2021") (txt "2021") tt
  = (Ok tt,
     [Get sample_listing_url fetch_headers;
      Get (txt "https://papers.nips.cc//paper_files/paper/2021/hash/abc-Abstract.html")
        fetch_headers;
      Print (txt "Error processing abstract: "
             ++ txt "https://papers.nips.cc//paper_files/paper/2021/hash/abc-Abstract.html"
             ++ txt " | Cannot connect to host");
      Get (txt "https://papers.nips.cc//paper_files/paper/2021/hash/def-Abstract.html")
        fetch_headers;
      Print (txt "Error processing abstract: "
             ++ txt "https://papers.nips.cc//paper_files/paper/2021/hash/def-Abstract.html"
             ++ txt " | Cannot connect to host")],
     tt).
Proof.
  refine (proj1
            (process_href_follows_paper_links
               (sample_runtime sample_listing_site sample_anchors)
               sample_listing_url (txt "D:/ds/2021") (txt "2021") tt
               (200, txt "<ul>...</ul>") tt (txt "<ul>...</ul>") tt _
               eq_refl eq_refl eq_refl _)).
  intros t Ht. simpl in Ht.
  destruct Ht as [<-|[<-|[<-|[]]]]; discriminate.
Defined.

(** X10.  A list-item anchor without [href] ends the loop of
    [process_href]: the paper links before it have been processed, the
    anchors after it are not looked at, and one error line with the URL of
    the listing is handed to [print]; the stage ends as that [print] ends.
    The line carries the text ['href'] when the runs before the anchor
    returned, and the exception of the run that raised otherwise. *)
Theorem process_href_stops_at_missing_href (R : Runtime)
    (url folder_path folder_name : str) (w : world R)
    (r : response R) (w1 : world R) (html : str) (w2 : world R)
    (before : list (tag R)) (broken : tag R) (after : list (tag R)) :
  session_get R url fetch_headers w = (Ok r, w1) ->
  response_text R r w1 = (Ok html, w2) ->
  bs_select R html (txt "li > a") = Ok (before ++ broken :: after) ->
  (forall t, In t before -> tag_attr R t (txt "href") <> None) ->
  tag_attr R broken (txt "href") = None ->
  process_href R url folder_path folder_name w
  = match for_each (paper_hrefs R before)
            (abstract_of R folder_path folder_name) w2 with
    | (before_ended, t, w3) =>
        let line :=
          txt "Error processing href: " ++ url ++ txt " | "
          ++ match before_ended with
             | Ok _ => txt "'href'"
             | Raise e => e
             end in
        match builtin_print R line w3 with
        | (res, w4) => (res, Get url fetch_headers :: t ++ [Print line], w4)
        end
    end.
Proof.
  intros H1 H2 H3 Hall Hbroken.
  rewrite (process_href_run R folder_path folder_name
             url w r w1 html w2 _ H1 H2 H3).
  rewrite for_each_app. unfold bind at 1.
  rewrite (for_each_paper_hrefs R folder_path folder_name before Hall).
  destruct (for_each (paper_hrefs R before)
              (abstract_of R folder_path folder_name) w2)
    as [[[[]|e] t] w3]; [|reflexivity].
  change (for_each (broken :: after)
            (visit_link R folder_path folder_name) w3)
    with (bind (visit_link R folder_path folder_name broken)
            (fun _ => for_each after (visit_link R folder_path folder_name))
            w3).
  unfold bind at 1. unfold visit_link at 1, getitem. rewrite Hbroken.
  unfold bind, raise. rewrite app_nil_r. reflexivity.
Qed.

Lemma process_href_stops_at_missing_href_witness :
  process_href
    (sample_runtime sample_listing_site
       (fun _ =>
          [Some (txt "/about"); None;
           Some (txt "/paper_files/paper/2021/hash/def-Abstract.html")]))
    sample_listing_url (txt "D:/ds/2021") (txt "2021") tt
  = (Ok tt,
     [Get sample_listing_url fetch_headers;
      Print (txt "Error processing href: " ++ sample_listing_url
             ++ txt " | 'href'")],
     tt).
Proof.
  refine (process_href_stops_at_missing_href
            (sample_runtime sample_listing_site
               (fun _ =>
                  [Some (txt "/about"); None;
                   Some (txt "/paper_files/paper/2021/hash/def-Abstract.html")]))
            sample_listing_url (txt "D:/ds/2021") (txt "2021") tt
            (200, txt "<ul>...</ul>") tt (txt "<ul>...</ul>") tt
            [Some (txt "/about")] None
            [Some (txt "/paper_files/paper/2021/hash/def-Abstract.html")]
            eq_refl eq_refl eq_refl _ eq_refl).
  intros t Ht. simpl in Ht. destruct Ht as [<-|[]]. discriminate.
Defined.

(** ** The crawl driver up to [gather] *)

Lemma startswith_app s prefix : startswith (prefix ++ s) prefix = true.
Proof.
  induction prefix as [|c prefix IH]; simpl.
  - destruct s; reflexivity.
  - rewrite Ascii.eqb_refl. exact IH.
Qed.

Lemma contains_cons c s needle :
  contains (c :: s) needle = startswith (c :: s) needle || contains s needle.
Proof. reflexivity. Qed.

Lemma replace_from_absent n old new :
  forall s, contains s old = false -> replace_from n s old new = s.
Proof.
  induction n as [|n IH]; intros s H; [reflexivity|].
  destruct s as [|c s]; [reflexivity|].
  rewrite contains_cons in H. apply orb_false_iff in H as [H1 H2].
  cbn [replace_from]. rewrite H1, (IH s H2). reflexivity.
Qed.

Lemma replace_prefix old new s :
  old <> [] -> contains s old = false ->
  replace (old ++ s) old new = new ++ s.
Proof.
  intros Hold Hs. unfold replace.
  destruct old as [|c old]; [congruence|].
  change ((c :: old) ++ s) with (c :: old ++ s).
  cbn [replace_from].
  change (c :: old ++ s) with ((c :: old) ++ s).
  rewrite startswith_app, skipn_app, skipn_all, Nat.sub_diag.
  simpl skipn. rewrite replace_from_absent by exact Hs. reflexivity.
Qed.

Lemma replace_from_fuel old new :
  old <> [] ->
  forall n m s, List.length s < n -> List.length s < m ->
    replace_from n s old new = replace_from m s old new.
Proof.
  intros Hold. induction n as [|n IH]; intros [|m] s Hn Hm; try lia.
  destruct s as [|c s]; [reflexivity|].
  cbn [replace_from]. destruct (startswith (c :: s) old).
  - f_equal. apply IH; rewrite length_skipn; simpl in *;
      (destruct old; [congruence|simpl; lia]).
  - f_equal. apply IH; simpl in *; lia.
Qed.

Lemma replace_from_S n c s old new :
  replace_from (S n) (c :: s) old new
  = if startswith (c :: s) old
    then new ++ replace_from n (skipn (List.length old) (c :: s)) old new
    else c :: replace_from n s old new.
Proof. reflexivity. Qed.

Lemma replace_prefix_all old new s :
  old <> [] -> replace (old ++ s) old new = new ++ replace s old new.
Proof.
  intros Hold. unfold replace.
  destruct old as [|c old']; [congruence|].
  change ((c :: old') ++ s) with (c :: old' ++ s).
  rewrite replace_from_S.
  change (c :: old' ++ s) with ((c :: old') ++ s).
  rewrite startswith_app, skipn_app, skipn_all, Nat.sub_diag.
  change (skipn 0 s) with s. cbn [app]. f_equal.
  apply replace_from_fuel; [discriminate| |lia].
  simpl. rewrite ?length_app. lia.
Qed.

Section Driver.

Variable R : Runtime.

Local Abbreviation folder_of :=
  (fun href => MakeDirs (path_join R DOWNLOAD_PATH (replace href paper_prefix []))).

Lemma collect_tasks_run links :
  makedirs_succeeds R ->
  (forall t, In t links -> tag_attr R t (txt "href") <> None) ->
  forall tasks w,
  exists w',
    collect_tasks R links tasks w
    = (Ok (tasks ++ map (task_of R) (paper_hrefs R links)),
       map folder_of (paper_hrefs R links), w').
Proof.
  intros Hmk. induction links as [|t links IH]; intros Hall tasks w.
  - exists w. simpl. unfold ret. rewrite app_nil_r. reflexivity.
  - destruct (tag_attr R t (txt "href")) as [href|] eqn:E;
      [|exfalso; exact (Hall t (or_introl eq_refl) E)].
    rewrite (paper_hrefs_cons R t links href E).
    cbn [collect_tasks]. unfold getitem. rewrite E, bind_ret_run.
    assert (Hall' : forall t', In t' links ->
                      tag_attr R t' (txt "href") <> None).
    { intros t' Ht'. apply Hall. right; exact Ht'. }
    destruct (startswith href (txt "/paper_files/paper/")).
    + unfold bind, call.
      destruct (Hmk (path_join R DOWNLOAD_PATH
                       (replace href (txt "/paper_files/paper/") [])) w)
        as [w1 Hw1].
      rewrite Hw1.
      destruct (IH Hall'
                  (tasks ++ [(BASE_URL ++ href,
                              path_join R DOWNLOAD_PATH
                                (replace href (txt "/paper_files/paper/") []),
                              replace href (txt "/paper_files/paper/") [])])
                  w1) as [w' Hw'].
      exists w'. rewrite Hw'. rewrite <- app_assoc. reflexivity.
    + apply IH, Hall'.
Qed.

Lemma collect_tasks_app before broken after :
  makedirs_succeeds R ->
  (forall t, In t before -> tag_attr R t (txt "href") <> None) ->
  tag_attr R broken (txt "href") = None ->
  forall tasks w,
  exists w',
    collect_tasks R (before ++ broken :: after) tasks w
    = (Raise (txt "'href'"), map folder_of (paper_hrefs R before), w').
Proof.
  intros Hmk. induction before as [|t before IH]; intros Hall Hb tasks w.
  - exists w. cbn [app collect_tasks]. unfold getitem. rewrite Hb.
    reflexivity.
  - destruct (tag_attr R t (txt "href")) as [href|] eqn:E;
      [|exfalso; exact (Hall t (or_introl eq_refl) E)].
    rewrite (paper_hrefs_cons R t before href E).
    change ((t :: before) ++ broken :: after)
      with (t :: before ++ broken :: after).
    cbn [collect_tasks]. unfold getitem. rewrite E, bind_ret_run.
    assert (Hall' : forall t', In t' before ->
                      tag_attr R t' (txt "href") <> None).
    { intros t' Ht'. apply Hall. right; exact Ht'. }
    destruct (startswith href (txt "/paper_files/paper/")).
    + unfold bind, call.
      destruct (Hmk (path_join R DOWNLOAD_PATH
                       (replace href (txt "/paper_files/paper/") [])) w)
        as [w1 Hw1].
      rewrite Hw1.
      destruct (IH Hall' Hb
                  (tasks ++ [(BASE_URL ++ href,
                              path_join R DOWNLOAD_PATH
                                (replace href (txt "/paper_files/paper/") []),
                              replace href (txt "/paper_files/paper/") [])])
                  w1) as [w' Hw'].
      exists w'. rewrite Hw'. reflexivity.
    + apply IH; assumption.
Qed.

End Driver.

(** X11.  [main] has no handler of its own.  When the GET of the index
    raises, [main] raises before anything else is done.  When a list-item
    anchor of the index has no [href], [main] raises [KeyError] after it
    has made the folders of the paper listings before that anchor, and no
    task is run. *)
Theorem main_tasks_raises (R : Runtime) (w : world R) :
  (forall e w1,
     session_get R BASE_URL fetch_headers w = (Raise e, w1) ->
     main_tasks R w = (Raise e, [Get BASE_URL fetch_headers], w1))
  /\ (forall r w1 html w2 before broken after,
        session_get R BASE_URL fetch_headers w = (Ok r, w1) ->
        response_text R r w1 = (Ok html, w2) ->
        bs_select R html (txt "li > a") = Ok (before ++ broken :: after) ->
        makedirs_succeeds R ->
        (forall t, In t before -> tag_attr R t (txt "href") <> None) ->
        tag_attr R broken (txt "href") = None ->
        exists w3,
          main_tasks R w
          = (Raise (txt "'href'"),
             Get BASE_URL fetch_headers
             :: map (fun href =>
                       MakeDirs (path_join R DOWNLOAD_PATH
                                   (replace href paper_prefix [])))
                  (paper_hrefs R before),
             w3)).
Proof.
  split.
  - intros e w1 H. unfold main_tasks, bind.
    rewrite (fetch_raises R BASE_URL w e w1 H). reflexivity.
  - intros r w1 html w2 before broken after H1 H2 H3 Hmk Hall Hb.
    destruct (collect_tasks_app R before broken after Hmk Hall Hb [] w2)
      as [w3 Hw3].
    exists w3. unfold main_tasks. unfold bind at 1.
    rewrite (fetch_body R BASE_URL w r w1 html w2 H1 H2).
    unfold bind, pure. rewrite H3, Hw3. reflexivity.
Qed.

Lemma main_tasks_raises_witness :
  main_tasks (sample_runtime [] (fun _ => [])) tt
  = (Raise (txt "Cannot connect to host"),
     [Get (txt "https://papers.nips.cc/") fetch_headers], tt)
  /\ exists w3,
       main_tasks
         (sample_runtime [(BASE_URL, (200, txt "<ul>...</ul>"))]
            (fun _ => [Some (txt "/paper_files/paper/2021"); None;
                       Some (txt "/paper_files/paper/2022")]))
         tt
       = (Raise (txt "'href'"),
          [Get (txt "https://papers.nips.cc/") fetch_headers;
           MakeDirs (txt "D:/ds/2021")],
          w3).
Proof.
  split.
  - exact (proj1 (main_tasks_raises (sample_runtime [] (fun _ => [])) tt)
             (txt "Cannot connect to host") tt eq_refl).
  - refine (proj2
              (main_tasks_raises
                 (sample_runtime [(BASE_URL, (200, txt "<ul>...</ul>"))]
                    (fun _ => [Some (txt "/paper_files/paper/2021"); None;
                               Some (txt "/paper_files/paper/2022")]))
                 tt)
              (200, txt "<ul>...</ul>") tt (txt "<ul>...</ul>") tt
              [Some (txt "/paper_files/paper/2021")] None
              [Some (txt "/paper_files/paper/2022")]
              eq_refl eq_refl eq_refl _ _ eq_refl).
    + intros path w. exists tt. destruct w. reflexivity.
    + intros t Ht. simpl in Ht. destruct Ht as [<-|[]]. discriminate.
Defined.

(** X12.  When the index is fetched, its list-item anchors all have an
    [href] and the folders can be made, [main] makes one folder and builds
    one task for each anchor whose [href] starts with [/paper_files/paper/],
    in document order, and for no other anchor.  The task of an [href] is
    the call of [process_href] on the base URL followed by the [href], with
    the folder named by the [href] after the removal of every occurrence of
    the prefix, under the download root.  All folders are made before
    [gather] is called. *)
Theorem main_tasks_one_per_listing (R : Runtime) (w : world R)
    (r : response R) (w1 : world R) (html : str) (w2 : world R)
    (links : list (tag R)) :
  session_get R BASE_URL fetch_headers w = (Ok r, w1) ->
  response_text R r w1 = (Ok html, w2) ->
  bs_select R html (txt "li > a") = Ok links ->
  makedirs_succeeds R ->
  (forall t, In t links -> tag_attr R t (txt "href") <> None) ->
  exists w3,
    main_tasks R w
    = (Ok (map (fun href =>
                  (BASE_URL ++ href,
                   path_join R DOWNLOAD_PATH (replace href paper_prefix []),
                   replace href paper_prefix []))
             (paper_hrefs R links)),
       Get BASE_URL fetch_headers
       :: map (fun href =>
                 MakeDirs (path_join R DOWNLOAD_PATH
                             (replace href paper_prefix [])))
            (paper_hrefs R links),
       w3).
Proof.
  intros H1 H2 H3 Hmk Hall.
  destruct (collect_tasks_run R links Hmk Hall [] w2) as [w3 Hw3].
  exists w3. unfold main_tasks. unfold bind at 1.
  rewrite (fetch_body R BASE_URL w r w1 html w2 H1 H2).
  unfold bind, pure. rewrite H3, Hw3. reflexivity.
Qed.

Lemma main_tasks_one_per_listing_witness :
  exists w3,
    main_tasks
      (sample_runtime [(BASE_URL, (200, txt "<ul>...</ul>"))]
         (fun _ => [Some (txt "/paper_files/paper/2021"); Some (txt "/about");
                    Some (txt "/paper_files/paper/2022")]))
      tt
    = (Ok [(txt "https://papers.nips.cc//paper_files/paper/2021",
            txt "D:/ds/2021", txt "2021");
           (txt "https://papers.nips.cc//paper_files/paper/2022",
            txt "D:/ds/2022", txt "2022")],
       [Get (txt "https://papers.nips.cc/") fetch_headers;
        MakeDirs (txt "D:/ds/2021"); MakeDirs (txt "D:/ds/2022")],
       w3).
Proof.
  refine (main_tasks_one_per_listing
            (sample_runtime [(BASE_URL, (200, txt "<ul>...</ul>"))]
               (fun _ => [Some (txt "/paper_files/paper/2021");
                          Some (txt "/about");
                          Some (txt "/paper_files/paper/2022")]))
            tt (200, txt "<ul>...</ul>") tt (txt "<ul>...</ul>") tt _
            eq_refl eq_refl eq_refl _ _).
  - intros path w. exists tt. destruct w. reflexivity.
  - intros t Ht. simpl in Ht.
    destruct Ht as [<-|[<-|[<-|[]]]]; discriminate.
Defined.

(** X13.  The folder name [main] derives from a paper link is the rest of
    the link after the prefix [/paper_files/paper/], with every further
    occurrence of the prefix removed from it as well; it is the rest itself
    when the prefix does not occur in the rest. *)
Theorem folder_name_of_paper_link (rest : str) :
  replace (txt "/paper_files/paper/" ++ rest) (txt "/paper_files/paper/") []
  = replace rest (txt "/paper_files/paper/") []
  /\ (contains rest (txt "/paper_files/paper/") = false ->
      replace (txt "/paper_files/paper/" ++ rest)
        (txt "/paper_files/paper/") []
      = rest).
Proof.
  split.
  - apply (replace_prefix_all (txt "/paper_files/paper/") [] rest).
    discriminate.
  - intros H.
    apply (replace_prefix (txt "/paper_files/paper/") [] rest);
      [discriminate|exact H].
Qed.

Lemma folder_name_of_paper_link_witness :
  replace (txt "/paper_files/paper/" ++ txt "2021")
    (txt "/paper_files/paper/") []
  = txt "2021".
Proof.
  apply (folder_name_of_paper_link (txt "2021")). reflexivity.
Defined.

(** ** What the extractors return on any text *)

Lemma match_opt_inv g c p s m rest :
  match_here ((g, Opt c) :: p) s = Some (m, rest) ->
  exists o s' m',
    s = o ++ s' /\ (o = [] \/ o = [c])
    /\ match_here p s' = Some (m', rest) /\ m = tagged g o ++ m'.
Proof.
  simpl. destruct s as [|x s].
  - intros H. exists [], [], m. auto.
  - destruct (Ascii.eqb_spec x c) as [->|_].
    + destruct (match_here p s) as [[m1 r1]|] eqn:E.
      * intros H. injection H as <- <-. exists [c], s, m1. auto.
      * intros H. exists [], (c :: s), m. auto.
    + intros H. exists [], (x :: s), m. auto.
Qed.

(** Where [search] finds its match. *)
Lemma search_found p s m rest :
  search p s = Some (m, rest) ->
  exists pre,
    s = pre ++ map snd m ++ rest
    /\ match_here p (map snd m ++ rest) = Some (m, rest).
Proof.
  induction s as [|c s IH]; simpl.
  - destruct (match_here p []) as [r|] eqn:E; [|discriminate].
    intros H. injection H as ->. exists [].
    pose proof (match_here_consumes p [] m rest E) as Hs.
    simpl. rewrite <- Hs. auto.
  - destruct (match_here p (c :: s)) as [r|] eqn:E.
    + intros H. injection H as ->. exists [].
      pose proof (match_here_consumes p (c :: s) m rest E) as Hs.
      simpl. rewrite <- Hs. auto.
    + intros H. destruct (IH H) as (pre & -> & Hm).
      exists (c :: pre). auto.
Qed.

Lemma findall_from_found p n :
  forall s m, In m (findall_from n p s) ->
    exists pre rest,
      s = pre ++ map snd m ++ rest
      /\ match_here p (map snd m ++ rest) = Some (m, rest).
Proof.
  induction n as [|n IH]; intros s m Hin; [contradiction|].
  rewrite findall_from_S in Hin.
  destruct (search p s) as [[m0 rest]|] eqn:E; [|contradiction].
  apply search_found in E as (pre & Es & E).
  assert (Hrec : forall rest', (exists u, rest = u ++ rest') ->
                   In m (findall_from n p rest') ->
                   exists pre' rest'',
                     s = pre' ++ map snd m ++ rest''
                     /\ match_here p (map snd m ++ rest'') = Some (m, rest'')).
  { intros rest' [u Hu] Hin'.
    destruct (IH _ _ Hin') as (pre' & rest'' & -> & Hm).
    exists (pre ++ map snd m0 ++ u ++ pre'), rest''.
    split; [|exact Hm].
    rewrite Es, Hu, <- !app_assoc. reflexivity. }
  destruct m0 as [|x m0].
  - destruct rest as [|c rest].
    + destruct Hin as [<-|[]]. exists pre, []. auto.
    + destruct Hin as [<-|Hin]; [exists pre, (c :: rest); auto|].
      apply (Hrec rest); [exists [c]; reflexivity|exact Hin].
  - destruct Hin as [<-|Hin]; [exists pre, rest; auto|].
    apply (Hrec rest); [exists []; reflexivity|exact Hin].
Qed.

Lemma findall_found p s m :
  In m (findall p s) ->
  exists pre rest,
    s = pre ++ map snd m ++ rest
    /\ match_here p (map snd m ++ rest) = Some (m, rest).
Proof. apply findall_from_found. Qed.

(** The shape of a match of the PDF-URL pattern. *)
Lemma pdf_url_inv s m rest :
  match_here pdf_url_pattern s = Some (m, rest) ->
  exists w1 w2 o q,
    (o = [] \/ o = ["s"%char]) /\ q <> [] /\ forallb not_quote q = true
    /\ s = txt "url" ++ w1 ++ "="%char :: w2
           ++ "{"%char :: (txt "http" ++ o ++ txt "://" ++ q ++ txt ".pdf")
           ++ "}"%char :: rest
    /\ group 1 m = txt "http" ++ o ++ txt "://" ++ q ++ txt ".pdf".
Proof.
  unfold pdf_url_pattern. intros H.
  apply match_lits_inv in H as (s1 & m1 & -> & H & ->).
  cbn [app] in H.
  apply match_star_inv in H as (w1 & s2 & m2 & -> & _ & H & ->).
  apply match_lit_inv in H as (s3 & m3 & -> & H & ->).
  apply match_star_inv in H as (w2 & s4 & m4 & -> & _ & H & ->).
  apply match_lit_inv in H as (s5 & m5 & -> & H & ->).
  apply match_lits_inv in H as (s6 & m6 & -> & H & ->).
  cbn [app] in H.
  apply match_opt_inv in H as (o & s7 & m7 & -> & Ho & H & ->).
  apply match_lits_inv in H as (s8 & m8 & -> & H & ->).
  cbn [app] in H.
  apply match_plus_inv in H as (q & s9 & m9 & -> & Hq & Hnq & H & ->).
  apply match_lits_inv in H as (s10 & m10 & -> & H & ->).
  apply match_lit_inv in H as (s11 & m11 & -> & H & ->).
  simpl in H. injection H as <- <-.
  exists w1, w2, o, q. repeat split; auto.
  - rewrite <- !app_assoc. reflexivity.
  - repeat (rewrite ?group_app, ?group_cons, ?group_tagged).
    simpl. rewrite ?app_nil_r. reflexivity.
Qed.

(** ** The files of a paper, as they are opened *)

Lemma extract_pdf_url_not_empty bib_text : extract_pdf_url bib_text <> Some [].
Proof.
  unfold extract_pdf_url.
  destruct (search pdf_url_pattern bib_text) as [[m rest]|] eqn:E;
    [|discriminate].
  apply search_found in E as (pre & _ & E).
  apply pdf_url_inv in E as (w1 & w2 & o & q & _ & _ & _ & _ & ->).
  discriminate.
Qed.

(** One call of the runtime that is known to succeed. *)
Ltac call_succeeds Hmk Hop Hwr Hcl Hp Hsv :=
  match goal with
  | |- context [os_makedirs ?R ?p ?w] =>
      let E := fresh "E" in
      destruct (Hmk p w) as [?w E]; rewrite E; clear E
  | |- context [aio_open ?R ?p ?m ?w] =>
      let E := fresh "E" in
      destruct (Hop p m w) as [?w E]; rewrite E; clear E
  | |- context [file_write ?R ?p ?d ?w] =>
      let E := fresh "E" in
      destruct (Hwr p d w) as [?w E]; rewrite E; clear E
  | |- context [file_close ?R ?p ?w] =>
      let E := fresh "E" in
      destruct (Hcl p w) as [?w E]; rewrite E; clear E
  | |- context [builtin_print ?R ?l ?w] =>
      let E := fresh "E" in
      destruct (Hp l w) as [?w E]; rewrite E; clear E
  | |- context [session_get ?R ?u [] ?w] =>
      let E := fresh "E" in
      let Hrd := fresh "Hrd" in
      destruct (Hsv w) as (?r & ?w & E & Hrd); rewrite E; clear E
  | Hrd : forall w2, exists w3, response_read ?R ?r w2 = _
    |- context [response_read ?R ?r ?w] =>
      let E := fresh "E" in
      destruct (Hrd w) as [?w E]; rewrite E; clear E
  end;
  cbv beta iota.

(** C6.  The two files of a paper are opened under the names the fields
    give: the PDF, in mode [wb], as
    [sanitize(booktitle) + _ + sanitize(author) + .pdf] inside the [pdf]
    folder, and the JSON, in mode [w], as [sanitize(title) + .json] inside
    the [json_<folder_name>] folder; a field that bulk extraction did not
    find is replaced by the literal [Unknown_Booktitle], [Unknown_Author]
    or [Unknown_Title].  No run opens a file under another name; and when
    the body holds a PDF URL that the site serves, and the file system and
    the console accept every call, the run is the twelve steps below, with
    both files opened, written and closed under these names. *)
Theorem file_names_from_fields (R : Runtime)
    (bib_url folder_path folder_name : str) (w : world R)
    (r : response R) (w1 : world R) (body : str) (w2 : world R) :
  session_get R bib_url fetch_headers w = (Ok r, w1) ->
  response_text R r w1 = (Ok body, w2) ->
  let fields := extract_all_bib_fields body in
  let field_or := fun name placeholder =>
        match dict_lookup fields name with
        | Some v => v
        | None => placeholder
        end in
  let pdf_file_name :=
        sanitize_filename (field_or (txt "booktitle") (txt "Unknown_Booktitle"))
        ++ txt "_"
        ++ sanitize_filename (field_or (txt "author") (txt "Unknown_Author"))
        ++ txt ".pdf" in
  let json_file_name :=
        sanitize_filename (field_or (txt "title") (txt "Unknown_Title"))
        ++ txt ".json" in
  let pdf_folder_path := path_join R folder_path (txt "pdf") in
  let json_folder_path :=
        path_join R folder_path (txt "json_" ++ folder_name) in
  let pdf_file_path := path_join R pdf_folder_path pdf_file_name in
  let json_file_path := path_join R json_folder_path json_file_name in
  (forall path mode,
     In (Open path mode)
        (events (process_bib_and_pdf R bib_url folder_path folder_name w)) ->
     (path = pdf_file_path /\ mode = txt "wb")
     \/ (path = json_file_path /\ mode = txt "w"))
  /\ (forall pdf_url data,
        extract_pdf_url body = Some pdf_url ->
        serves R pdf_url data ->
        files_succeed R ->
        print_succeeds R ->
        exists w',
          process_bib_and_pdf R bib_url folder_path folder_name w
          = (Ok tt,
             [Get bib_url fetch_headers;
              MakeDirs pdf_folder_path;
              MakeDirs json_folder_path;
              Get pdf_url [];
              Open pdf_file_path (txt "wb");
              Write pdf_file_path (Bytes data);
              Close pdf_file_path;
              Print (txt "Downloaded PDF: " ++ pdf_file_path);
              Open json_file_path (txt "w");
              Write json_file_path
                (Text (json_dumps R (dict_set fields (txt "url") pdf_url)));
              Close json_file_path;
              Print (txt "Saved JSON: " ++ json_file_path)],
             w')).
Proof.
  intros H1 H2 fields field_or pdf_file_name json_file_name
    pdf_folder_path json_folder_path pdf_file_path json_file_path.
  split.
  - intros path mode Hin.
    pose proof (process_bib_and_pdf_steps R bib_url folder_path folder_name
                  w r w1 body w2 H1 H2) as Hall.
    rewrite Forall_forall in Hall.
    exact (Hall _ Hin).
  - intros pdf_url data Hu Hsv (Hmk & Hop & Hwr & Hcl) Hp.
    destruct pdf_url as [|c u];
      [exfalso; exact (extract_pdf_url_not_empty body Hu)|].
    unfold process_bib_and_pdf.
    cbv beta iota zeta delta
      [download_pdf with_open finally try_except bind call io print ret].
    rewrite (fetch_body R bib_url w r w1 body w2 H1 H2), Hu.
    cbv beta iota.
    repeat call_succeeds Hmk Hop Hwr Hcl Hp Hsv.
    eexists. reflexivity.
Qed.

Lemma file_names_from_fields_witness :
  exists w',
    process_bib_and_pdf (sample_runtime sample_draft_site (fun _ => []))
      sample_bib_url (txt "D:/ds/2021") (txt "2021") tt
    = (Ok tt,
       [Get sample_bib_url fetch_headers;
        MakeDirs (txt "D:/ds/2021/pdf");
        MakeDirs (txt "D:/ds/2021/json_2021");
        Get (txt "https://x/doc.pdf") [];
        Open (txt "D:/ds/2021/pdf/Unknown_Booktitle_Unknown_Author.pdf")
          (txt "wb");
        Write (txt "D:/ds/2021/pdf/Unknown_Booktitle_Unknown_Author.pdf")
          (Bytes (txt "%PDF-1.4"));
        Close (txt "D:/ds/2021/pdf/Unknown_Booktitle_Unknown_Author.pdf");
        Print (txt "Downloaded PDF: D:/ds/2021/pdf/Unknown_Booktitle_Unknown_Author.pdf");
        Open (txt "D:/ds/2021/json_2021/T.json") (txt "w");
        Write (txt "D:/ds/2021/json_2021/T.json")
          (Text (txt "title: T; url: https://x/doc.pdf; "));
        Close (txt "D:/ds/2021/json_2021/T.json");
        Print (txt "Saved JSON: D:/ds/2021/json_2021/T.json")],
       w').
Proof.
  refine (proj2
            (file_names_from_fields
               (sample_runtime sample_draft_site (fun _ => []))
               sample_bib_url (txt "D:/ds/2021") (txt "2021") tt
               (200, sample_draft_body) tt sample_draft_body tt
               eq_refl eq_refl)
            (txt "https://x/doc.pdf") (txt "%PDF-1.4") eq_refl _ _ _).
  - intros w. exists (200, txt "%PDF-1.4"), w. split; [reflexivity|].
    intros w2. exists w2. reflexivity.
  - repeat split; intros; eexists; reflexivity.
  - intros line w. exists w. reflexivity.
Defined.

(** X14.  Whatever [extract_pdf_url] returns begins with [http://] or
    [https://], ends with [.pdf], has at least one character in between
    and no double quote, and stands in the text between an opening and a
    closing brace; it is never the empty text, so the test [if pdf_url:]
    of the stage fails only on [None]. *)
Theorem extract_pdf_url_shape (bib_text pdf_url : str) :
  extract_pdf_url bib_text = Some pdf_url ->
  exists q,
    q <> [] /\ forallb not_quote q = true
    /\ (pdf_url = txt "http://" ++ q ++ txt ".pdf"
        \/ pdf_url = txt "https://" ++ q ++ txt ".pdf")
    /\ pdf_url <> []
    /\ exists pre post,
         bib_text = pre ++ txt "{" ++ pdf_url ++ txt "}" ++ post.
Proof.
  unfold extract_pdf_url.
  destruct (search pdf_url_pattern bib_text) as [[m rest]|] eqn:E;
    [|discriminate].
  intros H. injection H as <-.
  apply search_found in E as (pre & Es & E).
  apply pdf_url_inv in E as (w1 & w2 & o & q & Ho & Hq & Hnq & Em & ->).
  exists q. repeat split; auto.
  - destruct Ho as [->| ->]; [left|right]; reflexivity.
  - discriminate.
  - exists (pre ++ txt "url" ++ w1 ++ "="%char :: w2), rest.
    rewrite Es, Em. repeat (rewrite <- app_assoc; simpl). reflexivity.
Qed.

Lemma extract_pdf_url_shape_witness :
  exists q,
    q <> [] /\ forallb not_quote q = true
    /\ (txt "https://x/doc.pdf" = txt "http://" ++ q ++ txt ".pdf"
        \/ txt "https://x/doc.pdf" = txt "https://" ++ q ++ txt ".pdf")
    /\ txt "https://x/doc.pdf" <> []
    /\ exists pre post,
         sample_bib_body
         = pre ++ txt "{" ++ txt "https://x/doc.pdf" ++ txt "}" ++ post.
Proof.
  exact (extract_pdf_url_shape sample_bib_body (txt "https://x/doc.pdf")
           eq_refl).
Defined.

Lemma search_needs_char p c s :
  In (0, Lit c) p -> ~ In c s -> search p s = None.
Proof.
  intros Hp Hs.
  destruct (search p s) as [[m rest]|] eqn:E; [exfalso|reflexivity].
  apply search_found in E as (pre & -> & E).
  apply (match_here_has_lit p _ m rest 0 c Hp) in E.
  apply Hs. apply in_or_app. right. apply in_or_app. left.
  apply (in_map snd) in E. exact E.
Qed.

Lemma findall_needs_char p c s :
  In (0, Lit c) p -> ~ In c s -> findall p s = [].
Proof.
  intros Hp Hs. apply findall_none. apply (search_needs_char p c s Hp Hs).
Qed.

(** X18.  A text that lacks the equals sign, or the opening brace, or the
    closing brace, gives nothing: bulk extraction returns the empty
    mapping, and the lookup of a field whose name is made of word
    characters and the PDF-URL lookup answer absent.  The empty text is
    such a text. *)
Theorem extraction_needs_equals_and_braces (bib_text field_name : str)
    (c : ascii) :
  In c ["="%char; "{"%char; "}"%char] ->
  ~ In c bib_text ->
  extract_all_bib_fields bib_text = []
  /\ (forallb is_word field_name = true ->
      extract_bib_field bib_text field_name = None)
  /\ extract_pdf_url bib_text = None.
Proof.
  intros Hc Hs.
  assert (H1 : In (0, Lit c) all_fields_pattern).
  { simpl in Hc. destruct Hc as [<-|[<-|[<-|[]]]]; simpl;
      repeat (first [left; reflexivity|right]). }
  assert (H2 : In (0, Lit c) (bib_field_pattern field_name)).
  { unfold bib_field_pattern. apply in_or_app. right.
    simpl in Hc. destruct Hc as [<-|[<-|[<-|[]]]]; simpl;
      repeat (first [left; reflexivity|right]). }
  assert (H3 : In (0, Lit c) pdf_url_pattern).
  { simpl in Hc. destruct Hc as [<-|[<-|[<-|[]]]]; simpl;
      repeat (first [left; reflexivity|right]). }
  repeat split.
  - unfold extract_all_bib_fields.
    rewrite (findall_needs_char _ c bib_text H1 Hs). reflexivity.
  - intros _. unfold extract_bib_field.
    rewrite (findall_needs_char _ c bib_text H2 Hs). reflexivity.
  - unfold extract_pdf_url.
    rewrite (search_needs_char _ c bib_text H3 Hs). reflexivity.
Qed.

Lemma extraction_needs_equals_and_braces_witness :
  extract_all_bib_fields (txt "title: {T}, url: {https://x/doc.pdf}") = []
  /\ extract_bib_field (txt "title: {T}, url: {https://x/doc.pdf}")
       (txt "title") = None
  /\ extract_pdf_url (txt "title: {T}, url: {https://x/doc.pdf}") = None.
Proof.
  destruct (extraction_needs_equals_and_braces
              (txt "title: {T}, url: {https://x/doc.pdf}") (txt "title")
              "="%char) as (Hall & Hfield & Hurl).
  - simpl. auto.
  - vm_compute. intuition discriminate.
  - split; [exact Hall|split; [apply Hfield; reflexivity|exact Hurl]].
Defined.

(** ** Trimming *)

Lemma lstrip_suffix s : exists sp, s = sp ++ lstrip s.
Proof.
  induction s as [|c s [sp IH]]; [exists []; reflexivity|].
  simpl. destruct (is_space c).
  - exists (c :: sp). simpl. rewrite <- IH. reflexivity.
  - exists []. reflexivity.
Qed.

Lemma lstrip_head s c rest : lstrip s = c :: rest -> is_space c = false.
Proof.
  induction s as [|x s IH]; simpl; [discriminate|].
  destruct (is_space x) eqn:E; [exact IH|].
  intros H. injection H as <- _. exact E.
Qed.

Lemma rstrip_prefix s : exists sp, s = rstrip s ++ sp.
Proof.
  unfold rstrip. destruct (lstrip_suffix (rev s)) as [sp H].
  exists (rev sp). rewrite <- rev_app_distr, <- H, rev_involutive.
  reflexivity.
Qed.

Lemma strip_keeps (P : ascii -> bool) s :
  forallb P s = true -> forallb P (strip s) = true.
Proof.
  intros H. unfold strip.
  destruct (lstrip_suffix s) as [sp1 H1].
  destruct (rstrip_prefix (lstrip s)) as [sp2 H2].
  rewrite H1, H2, !forallb_app in H.
  apply andb_true_iff in H as [_ H]. apply andb_true_iff in H as [H _].
  exact H.
Qed.

Lemma strip_first s c rest : strip s = c :: rest -> is_space c = false.
Proof.
  unfold strip. intros H.
  destruct (rstrip_prefix (lstrip s)) as [sp H2].
  rewrite H in H2. simpl in H2.
  apply (lstrip_head s c (rest ++ sp)). exact H2.
Qed.

Lemma strip_last s front c : strip s = front ++ [c] -> is_space c = false.
Proof.
  unfold strip, rstrip. intros H.
  apply (f_equal (@rev ascii)) in H.
  rewrite rev_involutive, rev_app_distr in H. simpl in H.
  apply (lstrip_head _ _ _ H).
Qed.

(** ** The entries of the bulk mapping, on any text *)

Lemma dict_set_entries d k v k' v' :
  In (k', v') (dict_set d k v) -> (k' = k /\ v' = v) \/ In (k', v') d.
Proof.
  induction d as [|[k0 v0] d IH]; simpl.
  - intros [H|[]]. injection H as <- <-. auto.
  - destruct (str_eqb_spec k0 k) as [->|Hk]; simpl.
    + intros [H|H]; [injection H as <- <-; auto|auto].
    + intros [H|H]; [auto|]. destruct (IH H); auto.
Qed.

Lemma fold_store_entries ms d k v :
  In (k, v) (fold_left store_field ms d) ->
  In (k, v) d
  \/ exists m, In m ms /\ k = group 1 m /\ v = strip (group 2 m).
Proof.
  revert d. induction ms as [|m ms IH]; intros d H; [left; exact H|].
  simpl in H. apply IH in H as [H|(m' & Hin & Hk & Hv)].
  - unfold store_field in H. apply dict_set_entries in H as [[-> ->]|H].
    + right. exists m. simpl. auto.
    + left. exact H.
  - right. exists m'. simpl. auto.
Qed.

Lemma tail_inv_match g s m rest :
  match_here (assign_tail g) s = Some (m, rest) ->
  exists w1 w2 v,
    forallb not_brace v = true /\ v <> []
    /\ m = tagged 0 w1 ++ (0, "="%char) :: tagged 0 w2
           ++ (0, "{"%char) :: tagged g v ++ [(0, "}"%char)].
Proof.
  unfold assign_tail. intros H.
  apply match_star_inv in H as (w1 & s1 & m1 & _ & _ & H & ->).
  apply match_lit_inv in H as (s2 & m2 & _ & H & ->).
  apply match_star_inv in H as (w2 & s3 & m3 & _ & _ & H & ->).
  apply match_lit_inv in H as (s4 & m4 & _ & H & ->).
  apply match_plus_inv in H as (v & s5 & m5 & _ & Hne & Hv & H & ->).
  apply match_lit_inv in H as (s6 & m6 & _ & H & ->).
  simpl in H. injection H as <- _.
  exists w1, w2, v. auto.
Qed.

Lemma bulk_groups s m rest :
  match_here all_fields_pattern s = Some (m, rest) ->
  group 1 m <> [] /\ forallb is_word (group 1 m) = true
  /\ group 2 m <> [] /\ forallb not_brace (group 2 m) = true.
Proof.
  change all_fields_pattern with ((1, Plus is_word) :: assign_tail 2).
  intros H.
  apply match_plus_inv in H as (kw & s1 & m1 & _ & Hne & Hkw & H & ->).
  apply tail_inv_match in H as (w1 & w2 & v & Hv & Hvne & ->).
  assert (E1 : group 1 (tagged 1 kw ++ tagged 0 w1 ++ (0, "="%char)
                        :: tagged 0 w2 ++ (0, "{"%char) :: tagged 2 v
                        ++ [(0, "}"%char)]) = kw).
  { repeat (rewrite ?group_app, ?group_cons, ?group_tagged).
    simpl. rewrite ?app_nil_r. reflexivity. }
  assert (E2 : group 2 (tagged 1 kw ++ tagged 0 w1 ++ (0, "="%char)
                        :: tagged 0 w2 ++ (0, "{"%char) :: tagged 2 v
                        ++ [(0, "}"%char)]) = v).
  { repeat (rewrite ?group_app, ?group_cons, ?group_tagged).
    simpl. rewrite ?app_nil_r. reflexivity. }
  rewrite E1, E2. auto.
Qed.

(** X17.  On any text, every entry of the mapping that bulk extraction
    returns has a key that is a non-empty word and a value without braces
    that neither begins nor ends with white space. *)
Theorem bulk_entries_are_clean (bib_text k v : str) :
  In (k, v) (extract_all_bib_fields bib_text) ->
  k <> [] /\ forallb is_word k = true
  /\ forallb not_brace v = true
  /\ (forall c rest, v = c :: rest -> is_space c = false)
  /\ (forall front c, v = front ++ [c] -> is_space c = false).
Proof.
  intros H. rewrite extract_all_bib_fields_fold in H.
  apply fold_store_entries in H as [[]|(m & Hin & -> & ->)].
  apply findall_sound in Hin as (s & rest & Hm).
  apply bulk_groups in Hm as (Hk & Hw & _ & Hv).
  repeat split; auto.
  - apply strip_keeps, Hv.
  - intros c rest'. apply strip_first.
  - intros front c. apply strip_last.
Qed.

Lemma bulk_entries_are_clean_witness :
  txt "Final title" <> [] /\ forallb is_word (txt "title") = true
  /\ forallb not_brace (txt "Final title") = true.
Proof.
  destruct (bulk_entries_are_clean (render [] sample_record)
              (txt "title") (txt "Final title"))
    as (_ & Hw & Hv & _).
  - vm_compute. auto.
  - split; [discriminate|]. split; [exact Hw|exact Hv].
Defined.

(** ** Lookup and bulk extraction agree *)

Lemma last_match_cons x l :
  last_match (x :: l)
  = match last_match l with
    | Some y => Some y
    | None => Some x
    end.
Proof.
  unfold last_match. simpl. destruct (rev l) as [|m r]; reflexivity.
Qed.

Lemma endswith_refl s : endswith s s = true.
Proof. apply endswith_spec. exists []. reflexivity. Qed.

Lemma field_last_declared name l :
  (forall a, In a l -> endswith (key a) name = true -> key a = name) ->
  match last_match (map value (filter (matches_field name) l)) with
  | Some v => Some (strip v)
  | None => None
  end
  = declared (filter has_value l) name.
Proof.
  induction l as [|a l IH]; intros Hkeys; [reflexivity|].
  assert (IH' := IH (fun b Hb => Hkeys b (or_intror Hb))).
  cbn [filter]. unfold matches_field at 1.
  destruct (has_value a); [|exact IH'].
  rewrite andb_true_l. cbn [declared]. rewrite <- IH'.
  destruct (endswith (key a) name) eqn:E.
  - rewrite (Hkeys a (or_introl eq_refl) E), str_eqb_refl.
    cbn [map]. rewrite last_match_cons.
    destruct (last_match (map value (filter (matches_field name) l)));
      reflexivity.
  - destruct (str_eqb_spec (key a) name) as [Hk|_].
    + rewrite Hk, endswith_refl in E. discriminate.
    + destruct (last_match (map value (filter (matches_field name) l)));
        reflexivity.
Qed.

(** X16.  On a text of well-formed assignments in which no longer key ends
    with the field name, the lookup of the field gives what bulk
    extraction has under that name: the trimmed value of the last
    assignment of the field that has a value, or absent. *)
Theorem lookup_agrees_with_bulk (lead : str) (l : list assignment)
    (name : str) :
  no_word lead = true ->
  forallb well_formed l = true ->
  name <> [] ->
  forallb is_word name = true ->
  (forall a, In a l -> endswith (key a) name = true -> key a = name) ->
  extract_bib_field (render lead l) name
  = dict_lookup (extract_all_bib_fields (render lead l)) name
  /\ extract_bib_field (render lead l) name
     = declared (filter has_value l) name.
Proof.
  intros Hlead Hl Hne Hw Hkeys.
  rewrite (extract_bib_field_render name Hne Hw lead l Hlead Hl).
  rewrite (extract_all_bib_fields_render lead l name Hlead Hl).
  rewrite (field_last_declared name l Hkeys). auto.
Qed.

Lemma lookup_agrees_with_bulk_witness :
  extract_bib_field (render [] sample_record) (txt "title")
  = dict_lookup (extract_all_bib_fields (render [] sample_record))
      (txt "title")
  /\ extract_bib_field (render [] sample_record) (txt "title")
     = Some (txt "Final title").
Proof.
  refine (lookup_agrees_with_bulk [] sample_record (txt "title")
            eq_refl eq_refl _ eq_refl _).
  - discriminate.
  - intros a Ha He. simpl in Ha.
    destruct Ha as [<-|[<-|[<-|[]]]];
      first [reflexivity | vm_compute in He; discriminate He].
Defined.

(** ** The order of the keys *)

Lemma str_eqb_sym a b : str_eqb a b = str_eqb b a.
Proof.
  destruct (str_eqb_spec a b) as [->|H].
  - symmetry. apply str_eqb_refl.
  - symmetry. apply str_eqb_neq. congruence.
Qed.

Lemma dict_set_add_key d k v :
  map fst (dict_set d k v) = add_key (map fst d) k.
Proof.
  unfold add_key. induction d as [|[k0 v0] d IH]; [reflexivity|].
  cbn [dict_set map fst existsb]. rewrite (str_eqb_sym k k0).
  destruct (str_eqb k0 k); [reflexivity|].
  cbn [map fst orb]. rewrite IH.
  destruct (existsb (str_eqb k) (map fst d)); reflexivity.
Qed.

Lemma fold_store_keys l d :
  map fst (fold_left store_field (map bulk_match l) d)
  = fold_left add_key (map key l) (map fst d).
Proof.
  revert d. induction l as [|a l IH]; intros d; [reflexivity|].
  cbn [map fold_left]. rewrite IH. unfold store_field.
  rewrite dict_set_add_key, group_bulk_match_key. reflexivity.
Qed.

Lemma filter_filter_and {A : Type} (f g : A -> bool) l :
  filter f (filter g l) = filter (fun x => g x && f x) l.
Proof.
  induction l as [|x l IH]; [reflexivity|].
  simpl. destruct (g x); simpl; [destruct (f x)|]; rewrite IH; reflexivity.
Qed.

Lemma fold_add_key l :
  forall acc,
    fold_left add_key l acc
    = acc ++ filter (fun k => negb (existsb (str_eqb k) acc)) (first_seen l).
Proof.
  induction l as [|k l IH]; intros acc.
  - simpl. rewrite app_nil_r. reflexivity.
  - cbn [fold_left first_seen filter]. rewrite IH. unfold add_key.
    destruct (existsb (str_eqb k) acc) eqn:E.
    + cbn [negb]. f_equal. rewrite filter_filter_and.
      apply filter_ext. intros x.
      destruct (str_eqb_spec k x) as [<-|_]; [rewrite E|]; reflexivity.
    + cbn [negb]. rewrite <- app_assoc. f_equal. cbn [app]. f_equal.
      rewrite filter_filter_and. apply filter_ext. intros x.
      rewrite existsb_app. cbn [existsb]. rewrite orb_false_r.
      rewrite (str_eqb_sym x k), negb_orb.
      apply andb_comm.
Qed.

(** X19.  On a text of well-formed assignments, the keys of the mapping
    that bulk extraction returns stand in the order in which they are
    first assigned a value in the text; a repeated key keeps its first
    place. *)
Theorem bulk_keys_in_first_seen_order (lead : str) (l : list assignment) :
  no_word lead = true ->
  forallb well_formed l = true ->
  map fst (extract_all_bib_fields (render lead l))
  = first_seen (map key (filter has_value l)).
Proof.
  intros Hlead Hl.
  rewrite (extract_all_bib_fields_matches lead l Hlead Hl).
  rewrite fold_store_keys, fold_add_key. cbn [map app existsb negb].
  induction (first_seen (map key (filter has_value l))) as [|k ks IH];
    [reflexivity|].
  simpl. rewrite IH. reflexivity.
Qed.

Lemma bulk_keys_in_first_seen_order_witness :
  map fst
    (extract_all_bib_fields
       (txt "title = { Draft }," ++ newline ++ txt "author = {A. Author},"
        ++ newline ++ txt "title = {Final title }," ++ newline))
  = [txt "title"; txt "author"].
Proof.
  exact (bulk_keys_in_first_seen_order [] sample_record eq_refl eq_refl).
Defined.

(** ** File names *)

Lemma sanitize_filename_clean s c :
  forbidden c = true -> ~ In c (sanitize_filename s).
Proof.
  intros Hc. rewrite sanitize_filename_map, in_map_iff.
  intros [x [Hx _]].
  pose proof (underscore_if_forbidden_safe x) as Hs.
  rewrite Hx in Hs. congruence.
Qed.

Lemma literal_clean (lit_text : str) c :
  forallb (fun x => negb (forbidden x)) lit_text = true ->
  forbidden c = true -> ~ In c lit_text.
Proof.
  intros Hl Hc Hin. rewrite forallb_forall in Hl.
  specialize (Hl c Hin). rewrite Hc in Hl. discriminate.
Qed.

(** X21.  [sanitize_filename] keeps the length of the text, works on the
    parts of a concatenation one by one, and returns a text without any of
    the nine characters unchanged. *)
Theorem sanitize_filename_structure (a b : str) :
  List.length (sanitize_filename a) = List.length a
  /\ sanitize_filename (a ++ b) = sanitize_filename a ++ sanitize_filename b
  /\ (forallb (fun c => negb (forbidden c)) a = true ->
      sanitize_filename a = a).
Proof.
  rewrite !sanitize_filename_map. repeat split.
  - apply length_map.
  - apply map_app.
  - intros H. rewrite forallb_forall in H.
    rewrite <- (map_id a) at 2. apply map_ext_in. intros c Hc.
    unfold underscore_if_forbidden.
    specialize (H c Hc). destruct (forbidden c); [discriminate|reflexivity].
Qed.

Lemma sanitize_filename_structure_witness :
  sanitize_filename (txt "Advances in NIPS 34") = txt "Advances in NIPS 34".
Proof.
  apply (sanitize_filename_structure (txt "Advances in NIPS 34") []).
  reflexivity.
Defined.

Lemma process_bib_and_pdf_fetch_failed (R : Runtime)
    bib_url folder_path folder_name w :
  (forall body w2,
     fetch R bib_url w <> (Ok body, [Get bib_url fetch_headers], w2)) ->
  forall path mode,
    ~ In (Open path mode)
        (events (process_bib_and_pdf R bib_url folder_path folder_name w)).
Proof.
  intros Hfail path mode.
  unfold process_bib_and_pdf, try_except. unfold bind at 1.
  rewrite fetch_run in *.
  destruct (session_get R bib_url fetch_headers w) as [[r|e] w1].
  - destruct (response_text R r w1) as [[body|e] w2].
    + exfalso. apply (Hfail body w2). reflexivity.
    + unfold print, call.
      destruct (builtin_print R _ w2) as [res w3].
      simpl. intuition discriminate.
  - unfold print, call.
    destruct (builtin_print R _ w1) as [res w3].
    simpl. intuition discriminate.
Qed.

(** X20.  The name of every file that [process_bib_and_pdf] opens, the
    last part of the path it joins, holds none of the nine characters that
    [sanitize_filename] replaces: whatever the title, the book title and
    the author are, the file name has no path separator of its own.  (The
    folder name is used as it comes.) *)
Theorem file_names_are_clean (R : Runtime)
    (bib_url folder_path folder_name : str) (w : world R)
    (path mode : str) :
  In (Open path mode)
     (events (process_bib_and_pdf R bib_url folder_path folder_name w)) ->
  exists folder name,
    path = path_join R folder name
    /\ (folder = path_join R folder_path (txt "pdf")
        \/ folder = path_join R folder_path (txt "json_" ++ folder_name))
    /\ forall c, forbidden c = true -> ~ In c name.
Proof.
  intros Hin.
  destruct (session_get R bib_url fetch_headers w) as [[r|e] w1] eqn:H1.
  - destruct (response_text R r w1) as [[body|e] w2] eqn:H2.
    + pose proof (process_bib_and_pdf_steps R bib_url folder_path folder_name
                    w r w1 body w2 H1 H2) as Hall.
      rewrite Forall_forall in Hall.
      destruct (Hall _ Hin) as [[-> _]|[-> _]].
      * eexists _, _. split; [reflexivity|]. split; [left; reflexivity|].
        intros c Hc Hc'.
        apply in_app_or in Hc' as [Hc'|Hc'];
          [exact (sanitize_filename_clean _ c Hc Hc')|].
        apply in_app_or in Hc' as [Hc'|Hc'];
          [exact (literal_clean (txt "_") c eq_refl Hc Hc')|].
        apply in_app_or in Hc' as [Hc'|Hc'];
          [exact (sanitize_filename_clean _ c Hc Hc')|].
        exact (literal_clean (txt ".pdf") c eq_refl Hc Hc').
      * eexists _, _. split; [reflexivity|]. split; [right; reflexivity|].
        intros c Hc Hc'.
        apply in_app_or in Hc' as [Hc'|Hc'];
          [exact (sanitize_filename_clean _ c Hc Hc')|].
        exact (literal_clean (txt ".json") c eq_refl Hc Hc').
    + exfalso.
      apply (process_bib_and_pdf_fetch_failed R bib_url folder_path
               folder_name w) with (path := path) (mode := mode);
        [|exact Hin].
      intros body w2'. rewrite fetch_run, H1, H2. discriminate.
  - exfalso.
    apply (process_bib_and_pdf_fetch_failed R bib_url folder_path
             folder_name w) with (path := path) (mode := mode);
      [|exact Hin].
    intros body w2'. rewrite fetch_run, H1. discriminate.
Qed.

Lemma file_names_are_clean_witness :
  exists folder name,
    txt "D:/ds/2021/pdf/B_A.pdf" = sample_join folder name
    /\ (folder = sample_join (txt "D:/ds/2021") (txt "pdf")
        \/ folder = sample_join (txt "D:/ds/2021") (txt "json_" ++ txt "2021"))
    /\ forall c, forbidden c = true -> ~ In c name.
Proof.
  apply (file_names_are_clean (sample_runtime sample_site (fun _ => []))
           sample_bib_url (txt "D:/ds/2021") (txt "2021") tt
           (txt "D:/ds/2021/pdf/B_A.pdf") (txt "wb")).
  vm_compute. auto 10.
Defined.

(** ** When the PDF-URL lookup returns the value of the field *)

Lemma contains_app a needle b : contains (a ++ needle ++ b) needle = true.
Proof.
  induction a as [|c a IH].
  - simpl app. destruct (needle ++ b) as [|x s] eqn:E.
    + destruct needle; [reflexivity|discriminate].
    + rewrite contains_cons, <- E, startswith_app. reflexivity.
  - change ((c :: a) ++ needle ++ b) with (c :: a ++ needle ++ b).
    rewrite contains_cons, IH. apply orb_true_r.
Qed.

(** A repetition stops at the longest stretch after which the rest of the
    pattern matches. *)
Lemma many_at_end g cls k s :
  (forall e s', e <> [] -> forallb cls e = true -> s = e ++ s' ->
     k s' = None) ->
  many g cls k s = k s.
Proof.
  induction s as [|c s IH]; intros Hno; [reflexivity|].
  simpl. destruct (cls c) eqn:Ec; [|reflexivity].
  rewrite IH.
  - rewrite (Hno [c] s); [reflexivity|discriminate|simpl; rewrite Ec; auto|auto].
  - intros e s' He Hcls ->.
    apply (Hno (c :: e) s'); [discriminate| |reflexivity].
    simpl. rewrite Ec. exact Hcls.
Qed.

Lemma many_longest g cls k w s m rest :
  forallb cls w = true -> k s = Some (m, rest) ->
  (forall e s', e <> [] -> forallb cls e = true -> s = e ++ s' ->
     k s' = None) ->
  many g cls k (w ++ s) = Some (tagged g w ++ m, rest).
Proof.
  intros Hw Hk Hno. induction w as [|c w IH].
  - simpl. rewrite many_at_end by exact Hno. exact Hk.
  - simpl in Hw. apply andb_true_iff in Hw as [Hc Hw].
    simpl. rewrite Hc, (IH Hw). reflexivity.
Qed.

Lemma match_plus_longest g cls p w s m rest :
  w <> [] -> forallb cls w = true ->
  match_here p s = Some (m, rest) ->
  (forall e s', e <> [] -> forallb cls e = true -> s = e ++ s' ->
     match_here p s' = None) ->
  match_here ((g, Plus cls) :: p) (w ++ s) = Some (tagged g w ++ m, rest).
Proof.
  intros Hne Hw Hk Hno. destruct w as [|c w]; [congruence|].
  simpl in Hw. apply andb_true_iff in Hw as [Hc Hw].
  change (match_here ((g, Plus cls) :: p) ((c :: w) ++ s))
    with (if cls c then push g c (many g cls (match_here p) (w ++ s))
          else None).
  rewrite Hc, (many_longest g cls (match_here p) w s m rest Hw Hk Hno).
  reflexivity.
Qed.

Lemma match_opt_take g c p s m rest :
  match_here p s = Some (m, rest) ->
  match_here ((g, Opt c) :: p) (c :: s) = Some ((g, c) :: m, rest).
Proof. intros H. simpl. rewrite Ascii.eqb_refl, H. reflexivity. Qed.

Lemma match_opt_skip g c p x s :
  Ascii.eqb x c = false ->
  match_here ((g, Opt c) :: p) (x :: s) = match_here p (x :: s).
Proof. intros H. simpl. rewrite H. reflexivity. Qed.

Lemma search_skip_suffixes p pre t :
  (forall a b, pre = a ++ b -> b <> [] -> match_here p (b ++ t) = None) ->
  search p (pre ++ t) = search p t.
Proof.
  induction pre as [|c pre IH]; intros H; [reflexivity|].
  change ((c :: pre) ++ t) with (c :: pre ++ t).
  rewrite search_step.
  - apply IH. intros a b -> Hb. apply (H (c :: a) b); auto.
  - apply (H [] (c :: pre)); [reflexivity|discriminate].
Qed.

(** The end of the PDF-URL pattern: [.pdf] inside the group, then the
    closing brace. *)
Lemma pdf_end_run rest :
  match_here (lit 1 (txt ".pdf") ++ [(0, Lit "}"%char)])
    (txt ".pdf" ++ "}"%char :: rest)
  = Some (tagged 1 (txt ".pdf") ++ [(0, "}"%char)], rest).
Proof. rewrite match_lits, match_lit. reflexivity. Qed.

Lemma pdf_end_later e post s' :
  e <> [] -> contains post (txt ".pdf}") = false ->
  txt ".pdf" ++ "}"%char :: post = e ++ s' ->
  match_here (lit 1 (txt ".pdf") ++ [(0, Lit "}"%char)]) s' = None.
Proof.
  intros He Hpost Hs.
  destruct (match_here (lit 1 (txt ".pdf") ++ [(0, Lit "}"%char)]) s')
    as [[m r]|] eqn:E; [exfalso|reflexivity].
  apply match_lits_inv in E as (s1 & m1 & -> & E & _).
  apply match_lit_inv in E as (s2 & m2 & -> & _).
  destruct e as [|e1 [|e2 [|e3 [|e4 [|e5 e]]]]]; try congruence;
    simpl in Hs; try discriminate Hs.
  injection Hs as _ _ _ _ _ Hs.
  rewrite Hs in Hpost.
  change (e ++ "."%char :: "p"%char :: "d"%char :: "f"%char :: "}"%char :: s2)
    with (e ++ txt ".pdf}" ++ s2) in Hpost.
  rewrite contains_app in Hpost. discriminate.
Qed.

Lemma url_not_in_prefix pre a b t s1 :
  contains pre (txt "url") = false ->
  pre = a ++ b -> b <> [] ->
  b ++ txt "url" ++ t = txt "url" ++ s1 -> False.
Proof.
  intros Hpre -> Hb H.
  destruct b as [|b1 [|b2 [|b3 b]]]; try congruence;
    simpl in H; try discriminate H.
  injection H as -> -> -> _.
  change (a ++ "u"%char :: "r"%char :: "l"%char :: b)
    with (a ++ txt "url" ++ b) in Hpre.
  rewrite contains_app in Hpre. discriminate.
Qed.

Lemma pdf_url_run p1 p2 scheme body post :
  forallb is_space p1 = true -> forallb is_space p2 = true ->
  scheme = txt "http://" \/ scheme = txt "https://" ->
  body <> [] -> forallb not_quote body = true ->
  contains post (txt ".pdf}") = false ->
  exists m,
    match_here pdf_url_pattern
      (txt "url" ++ p1 ++ "="%char :: p2 ++ "{"%char :: scheme ++ body
       ++ txt ".pdf" ++ "}"%char :: post)
    = Some (m, post)
    /\ group 1 m = scheme ++ body ++ txt ".pdf".
Proof.
  intros Hp1 Hp2 Hscheme Hne Hbody Hpost.
  assert (Hend :
    match_here
      ((1, Plus not_quote) :: lit 1 (txt ".pdf") ++ [(0, Lit "}"%char)])
      (body ++ txt ".pdf" ++ "}"%char :: post)
    = Some (tagged 1 body ++ tagged 1 (txt ".pdf") ++ [(0, "}"%char)], post)).
  { apply match_plus_longest; [exact Hne|exact Hbody|apply pdf_end_run|].
    intros e s' He _ Hs. exact (pdf_end_later e post s' He Hpost Hs). }
  unfold pdf_url_pattern.
  rewrite match_lits. cbn [app].
  rewrite match_star_span;
    [|exact Hp1|apply stops_cons; reflexivity
     |apply lit_rejects; exact space_not_equals].
  rewrite match_lit.
  rewrite match_star_span;
    [|exact Hp2|apply stops_cons; reflexivity
     |apply lit_rejects; exact space_not_open].
  rewrite match_lit.
  destruct Hscheme as [-> | ->].
  - change (txt "http://" ++ body ++ txt ".pdf" ++ "}"%char :: post)
      with (txt "http" ++ ":"%char :: txt "//" ++ body ++ txt ".pdf"
            ++ "}"%char :: post).
    rewrite match_lits. cbn [app].
    rewrite match_opt_skip by reflexivity.
    change (":"%char :: txt "//" ++ body ++ txt ".pdf" ++ "}"%char :: post)
      with (txt "://" ++ body ++ txt ".pdf" ++ "}"%char :: post).
    rewrite match_lits. cbn [app]. rewrite Hend.
    eexists. split; [reflexivity|].
    repeat (rewrite ?group_app, ?group_cons, ?group_tagged).
    simpl. rewrite ?app_nil_r. reflexivity.
  - change (txt "https://" ++ body ++ txt ".pdf" ++ "}"%char :: post)
      with (txt "http" ++ "s"%char :: txt "://" ++ body ++ txt ".pdf"
            ++ "}"%char :: post).
    rewrite match_lits. cbn [app].
    rewrite (match_opt_take 1 "s"%char _ _
               (tagged 1 (txt "://") ++ tagged 1 body
                ++ tagged 1 (txt ".pdf") ++ [(0, "}"%char)]) post).
    + eexists. split; [reflexivity|].
      repeat (rewrite ?group_app, ?group_cons, ?group_tagged).
      simpl. rewrite ?app_nil_r. reflexivity.
    + rewrite match_lits. cbn [app]. rewrite Hend. reflexivity.
Qed.

(** X15.  [extract_pdf_url] returns the value of the [url] field, from
    [http://] or [https://] to [.pdf], when the letters [url] do not occur
    before the field, the value holds no double quote, and the text after
    the closing brace of the field holds no further [.pdf}]. *)
Theorem extract_pdf_url_value_of_field
    (pre p1 p2 scheme body post : str) :
  contains pre (txt "url") = false ->
  forallb is_space p1 = true ->
  forallb is_space p2 = true ->
  scheme = txt "http://" \/ scheme = txt "https://" ->
  body <> [] ->
  forallb not_quote body = true ->
  contains post (txt ".pdf}") = false ->
  extract_pdf_url
    (pre ++ txt "url" ++ p1 ++ txt "=" ++ p2 ++ txt "{"
     ++ scheme ++ body ++ txt ".pdf" ++ txt "}" ++ post)
  = Some (scheme ++ body ++ txt ".pdf").
Proof.
  intros Hpre Hp1 Hp2 Hscheme Hne Hbody Hpost.
  change (pre ++ txt "url" ++ p1 ++ txt "=" ++ p2 ++ txt "{"
          ++ scheme ++ body ++ txt ".pdf" ++ txt "}" ++ post)
    with (pre ++ txt "url" ++ p1 ++ "="%char :: p2 ++ "{"%char :: scheme
          ++ body ++ txt ".pdf" ++ "}"%char :: post).
  destruct (pdf_url_run p1 p2 scheme body post Hp1 Hp2 Hscheme Hne Hbody Hpost)
    as (m & Hm & Hg).
  unfold extract_pdf_url.
  rewrite search_skip_suffixes.
  - rewrite (search_hit _ _ _ Hm), Hg. reflexivity.
  - intros a b Hab Hb.
    destruct (match_here pdf_url_pattern
                (b ++ txt "url" ++ p1 ++ "="%char :: p2 ++ "{"%char :: scheme
                 ++ body ++ txt ".pdf" ++ "}"%char :: post))
      as [[m' r']|] eqn:E; [exfalso|reflexivity].
    unfold pdf_url_pattern in E.
    apply match_lits_inv in E as (s1 & m1 & E & _).
    exact (url_not_in_prefix pre a b _ s1 Hpre Hab Hb E).
Qed.

Lemma extract_pdf_url_value_of_field_witness :
  extract_pdf_url sample_bib_body = Some (txt "https://x/doc.pdf").
Proof.
  exact (extract_pdf_url_value_of_field
           (txt "title = {T}" ++ newline ++ txt "author = {A}" ++ newline
            ++ txt "booktitle = {B}" ++ newline)
           (txt " ") (txt " ") (txt "https://") (txt "x/doc") []
           eq_refl eq_refl eq_refl (or_intror eq_refl)
           (fun H : txt "x/doc" = [] =>
              eq_ind (txt "x/doc")
                (fun s => match s with [] => False | _ :: _ => True end)
                I [] H)
           eq_refl eq_refl).
Defined.

(** ** The keys of the JSON *)

Lemma existsb_str_eqb k ks :
  existsb (str_eqb k) ks = true <-> In k ks.
Proof.
  rewrite existsb_exists. split.
  - intros [x [Hx E]]. apply str_eqb_eq in E. subst x. exact Hx.
  - intros H. exists k. split; [exact H|apply str_eqb_refl].
Qed.

(** X22.  The mapping that [process_bib_and_pdf] writes as JSON has every
    key once.  Its keys are those of bulk extraction in their order; the
    key [url] keeps its place when the body has a [url] field with a
    value, and is added at the end when it has none. *)
Theorem json_keys_of_bulk_extraction (R : Runtime)
    (bib_url folder_path folder_name : str) (w : world R)
    (r : response R) (w1 : world R) (body : str) (w2 : world R) :
  session_get R bib_url fetch_headers w = (Ok r, w1) ->
  response_text R r w1 = (Ok body, w2) ->
  forall path s,
    In (Write path (Text s))
       (events (process_bib_and_pdf R bib_url folder_path folder_name w)) ->
    exists bib_data,
      s = json_dumps R bib_data
      /\ NoDup (map fst bib_data)
      /\ (In (txt "url") (map fst (extract_all_bib_fields body)) ->
          map fst bib_data = map fst (extract_all_bib_fields body))
      /\ (~ In (txt "url") (map fst (extract_all_bib_fields body)) ->
          map fst bib_data
          = map fst (extract_all_bib_fields body) ++ [txt "url"]).
Proof.
  intros H1 H2 path s Hin.
  pose proof (process_bib_and_pdf_steps R bib_url folder_path folder_name
                w r w1 body w2 H1 H2) as Hall.
  rewrite Forall_forall in Hall.
  destruct (Hall _ Hin) as [_ [pdf_url [_ ->]]].
  exists (dict_set (extract_all_bib_fields body) (txt "url") pdf_url).
  split; [reflexivity|]. split; [|split].
  - apply dict_set_nodup. rewrite extract_all_bib_fields_fold.
    apply fold_store_nodup. constructor.
  - intros Hk. rewrite dict_set_add_key. unfold add_key.
    apply existsb_str_eqb in Hk. rewrite Hk. reflexivity.
  - intros Hk. rewrite dict_set_add_key. unfold add_key.
    destruct (existsb (str_eqb (txt "url"))
                (map fst (extract_all_bib_fields body))) eqn:E;
      [|reflexivity].
    apply existsb_str_eqb in E. contradiction.
Qed.

Lemma json_keys_of_bulk_extraction_witness :
  exists bib_data,
    txt "title: T; url: https://x/doc.pdf; " = sample_dumps bib_data
    /\ NoDup (map fst bib_data)
    /\ (In (txt "url") (map fst (extract_all_bib_fields sample_draft_body)) ->
        map fst bib_data = map fst (extract_all_bib_fields sample_draft_body))
    /\ (~ In (txt "url")
            (map fst (extract_all_bib_fields sample_draft_body)) ->
        map fst bib_data
        = map fst (extract_all_bib_fields sample_draft_body) ++ [txt "url"]).
Proof.
  apply (json_keys_of_bulk_extraction
           (sample_runtime sample_draft_site (fun _ => []))
           sample_bib_url (txt "D:/ds/2021") (txt "2021") tt
           (200, sample_draft_body) tt sample_draft_body tt
           eq_refl eq_refl
           (txt "D:/ds/2021/json_2021/T.json")
           (txt "title: T; url: https://x/doc.pdf; ")).
  vm_compute. auto 20.
Defined.
